(** * go-omniinterface: a shallow embedding of [omniinterface.go]

    The Go package turns a simplified request (method, table path, filter,
    column values) into the payload the OMNIbus REST API wants, and unwraps
    the answers.  This development embeds the package's functions
    ([SendRequest], [generatePayload], [getPayloadStructure],
    [sendOMNIbus], [generateRetval], [createCacheDir]) together with the
    few library functions they call, and proves properties of them.

    Conventions of the embedding:
    - a Go [interface{}] is a [value]; JSON objects decode to [VMap],
      JSON arrays to [VSlice], JSON numbers to [VFloat64];
    - a Go [map[string]interface{}] is a [gmap string value]; a nil map
      and an empty map are identified (the code only reads nil maps);
    - a Go [error] is an [error]; a function that may also panic returns
      an [outcome];
    - the file system, the configuration object behind the pointer
      receiver and the HTTP traffic live in a [Machine], threaded through
      the stateful functions ([prog]); a path is looked up through the
      directories above it, and [os.Stat] tells a path that is not there
      from one it cannot get to;
    - Go does not fix the order in which [range] visits a map: the
      functions that loop over one take the order as an argument, and the
      statements about them hold for every order ([range_order]);
    - what the package calls and does not define (the JSON codec, URL
      parsing and escaping, the HTTP client) is a parameter ([Runtime]);
    - Go's [int] is the 64-bit one. *)

From Stdlib Require Import ZArith String Ascii List PrimFloat FloatOps SpecFloat FloatAxioms.
From stdpp Require Import base option list gmap strings.

Set Warnings "-inexact-float,-register-all".
Set Default Proof Using "Type".

Local Open Scope string_scope.
Local Open Scope list_scope.

(** ** Dynamic values *)

Inductive value :=
| VNil                                      (* the nil interface *)
| VBool (b : bool)                          (* bool *)
| VString (s : string)                      (* string *)
| VInt (n : Z)                              (* int *)
| VInt64 (n : Z)                            (* int64 *)
| VFloat64 (f : float)                      (* float64 *)
| VSlice (l : list value)                   (* []interface{} *)
| VMap (m : gmap string value)              (* map[string]interface{} *)
| VMapSlice (l : list (gmap string value))  (* []map[string]interface{} *)
| VOther (ty : string) (repr : string).     (* any other dynamic type, by its
                                               reflect name; contents opaque *)

(** [reflect.TypeOf(v)]: [None] is the nil [reflect.Type] that
    [reflect.TypeOf(nil)] returns. *)
Definition reflect_TypeOf (v : value) : option string :=
  match v with
  | VNil => None
  | VBool _ => Some "bool"
  | VString _ => Some "string"
  | VInt _ => Some "int"
  | VInt64 _ => Some "int64"
  | VFloat64 _ => Some "float64"
  | VSlice _ => Some "[]interface {}"
  | VMap _ => Some "map[string]interface {}"
  | VMapSlice _ => Some "[]map[string]interface {}"
  | VOther ty _ => Some ty
  end.

(** [m[k]] on a Go map: the zero value (nil interface) for a missing key. *)
Definition index (m : gmap string value) (k : string) : value :=
  default VNil (m !! k).

(** [x == nil] for an interface value. *)
Definition is_nil (v : value) : bool :=
  match v with VNil => true | _ => false end.

(** [x == "lit"] for an interface value and a string constant: equal dynamic
    type and equal contents. *)
Definition eq_string (v : value) (lit : string) : bool :=
  match v with VString s => String.eqb s lit | _ => false end.

(** ** Errors, panics *)

Inductive error :=
| errors_New (msg : string)      (* errors.New(msg) *)
| url_Error (msg : string).      (* the error http.Client.Do returns *)

Inductive outcome (A : Type) :=
| Ok (a : A)
| Err (e : error)
| Panic.
Arguments Ok {A} a.
Arguments Err {A} e.
Arguments Panic {A}.

Global Instance outcome_ret : MRet outcome := @Ok.
Global Instance outcome_bind : MBind outcome := λ A B f x,
  match x with Ok a => f a | Err e => Err e | Panic => Panic end.

(** Type assertions [v.(T)] without the comma-ok form: a mismatch panics. *)
Definition assert_map (v : value) : outcome (gmap string value) :=
  match v with VMap m => Ok m | _ => Panic end.
Definition assert_slice (v : value) : outcome (list value) :=
  match v with VSlice l => Ok l | _ => Panic end.
Definition assert_string (v : value) : outcome string :=
  match v with VString s => Ok s | _ => Panic end.
Definition assert_float64 (v : value) : outcome float :=
  match v with VFloat64 f => Ok f | _ => Panic end.
Definition assert_int64 (v : value) : outcome Z :=
  match v with VInt64 n => Ok n | _ => Panic end.

(** ** Library functions the package calls *)

Definition int_min : Z := - 2 ^ 63.
Definition int_max : Z := 2 ^ 63 - 1.

Definition digit_of (c : ascii) : option Z :=
  let n := Z.of_N (N_of_ascii c) in
  if ((48 <=? n) && (n <=? 57))%Z then Some (n - 48)%Z else None.

Fixpoint parse_digits (s : string) (acc : Z) : option Z :=
  match s with
  | EmptyString => Some acc
  | String c s' =>
      match digit_of c with
      | Some d => parse_digits s' (acc * 10 + d)%Z
      | None => None
      end
  end.

(** [strconv.Atoi]: an optional sign, then one or more decimal digits, the
    number within [int]; [None] stands for its syntax and range errors. *)
Definition strconv_Atoi (s : string) : option Z :=
  let '(neg, body) :=
    match s with
    | String "-" r => (true, r)
    | String "+" r => (false, r)
    | _ => (false, s)
    end in
  match body with
  | EmptyString => None
  | _ =>
      match parse_digits body 0 with
      | Some n =>
          let v := if neg then (- n)%Z else n in
          if ((int_min <=? v) && (v <=? int_max))%Z then Some v else None
      | None => None
      end
  end.

(** [strings.Split(s, sep)] for a one-byte separator. *)
Fixpoint strings_Split (s : string) (sep : ascii) : list string :=
  match s with
  | EmptyString => [EmptyString]
  | String c s' =>
      if Ascii.eqb c sep then EmptyString :: strings_Split s' sep
      else match strings_Split s' sep with
           | seg :: segs => String c seg :: segs
           | [] => [String c EmptyString]
           end
  end.

(** [strings.Join(l, sep)]. *)
Fixpoint strings_Join (l : list string) (sep : string) : string :=
  match l with
  | [] => ""
  | [s] => s
  | s :: rest => s +:+ sep +:+ strings_Join rest sep
  end.

(** How often the byte [sep] occurs in [s]. *)
Fixpoint count_byte (sep : ascii) (s : string) : nat :=
  match s with
  | EmptyString => 0
  | String c s' => (if Ascii.eqb c sep then 1 else 0) + count_byte sep s'
  end.

(** The integer part of a binary64 number (fraction discarded), when it is
    finite. *)
Definition trunc_float64 (f : float) : option Z :=
  match Prim2SF f with
  | S754_zero _ => Some 0%Z
  | S754_finite sign m e =>
      let q := Z.shiftl (Z.pos m) e in
      Some (if sign then (- q)%Z else q)
  | S754_infinity _ | S754_nan => None
  end.

(** The truncation when [int] can hold it. *)
Definition exact_int (f : float) : option Z :=
  match trunc_float64 f with
  | Some z => if ((int_min <=? z) && (z <=? int_max))%Z then Some z else None
  | None => None
  end.

(** ** The package's data types *)

(** OMNiInterface is the configuration type holding the OMNIbus server
    information. *)
Record OMNiInterface := {
  URL : string;
  User : string;
  Password : string;
  Timeout : float;
  PayloadStructCacheDir : string;
}.

(** Request is the message intended for the OMNIbus REST API. *)
Record Request := {
  Method : string;
  DBPath : string;
  Filter : string;
  ColumnData : gmap string value;
  Collist : list string;
  Payload : gmap string value;
}.

(** [*http.Request], as far as the package fills it in. *)
Record http_Request := {
  rq_method : string;
  rq_url : string;
  rq_body : option string;
  rq_auth : option (string * string);   (* SetBasicAuth *)
  rq_close : bool;                      (* Close *)
  rq_content_type : option string;      (* Header.Set("Content-Type", _) *)
}.

(** ** The world around the package *)

(** What is not the package's own code is a parameter: the JSON codec, URL
    parsing and escaping, the remote service, and the result of a
    float-to-int conversion the language leaves to the implementation. *)
Class Runtime := {
  (** [json.Unmarshal(dat, &m)] into a nil map: what the map holds
      afterwards, and whether an error was returned (every call in the
      package drops the error). *)
  json_Unmarshal : string → gmap string value * bool;
  (** [json.Marshal(m)] (every call in the package drops the error). *)
  json_Marshal : gmap string value → string;
  url_QueryEscape : string → string;
  (** Whether [http.NewRequest] accepts the URL. *)
  url_Parse_ok : string → bool;
  (** [client.Do(req)] followed by [ioutil.ReadAll(resp.Body)], given the
      requests sent before, the client's timeout in nanoseconds and the
      request: the body read, or the transport error. *)
  client_Do : list http_Request → Z → http_Request → string + string;
  (** [int(f)] when [int] cannot represent the integer part of [f]. *)
  int_unrepresentable : float → Z;
  (** Decoding no input reports an error and leaves the map nil. *)
  json_Unmarshal_nil : json_Unmarshal "" = (∅, true);
}.

Inductive fnode :=
| Dir                  (* a directory *)
| Closed               (* a directory that cannot be searched *)
| Unreadable           (* a file that os.Stat finds and ioutil.ReadFile cannot read *)
| File (dat : string). (* a regular file and its bytes *)

(** The state the package works on.  [nodes] holds what [os.Stat] can find,
    path by path; a path lies in the directories named by what stands
    before each of its slashes ([dirs_above]), and on a disk each of them
    is a [Dir].  The statements hold for every [nodes], also for those no
    disk can hold. *)
Record Machine := {
  omni : OMNiInterface;        (* the object behind the pointer receiver *)
  nodes : gmap string fnode;   (* what exists on disk *)
  sealed : gset string;        (* paths at which nothing can be created *)
  wire : list http_Request;    (* the HTTP requests sent so far, oldest first *)
}.

(** Stateful code that may return an error or panic. *)
Definition prog (S A : Type) : Type := S → S * outcome A.

Global Instance prog_ret {S} : MRet (prog S) := λ A a s, (s, Ok a).
Global Instance prog_bind {S} : MBind (prog S) := λ A B f c s,
  match c s with
  | (s', Ok a) => f a s'
  | (s', Err e) => (s', Err e)
  | (s', Panic) => (s', Panic)
  end.

Definition fail {S A} (e : error) : prog S A := λ s, (s, Err e).
Definition panic {S A} : prog S A := λ s, (s, Panic).
Definition gets {S A} (f : S → A) : prog S A := λ s, (s, Ok (f s)).
Definition modify {S} (f : S → S) : prog S unit := λ s, (f s, Ok tt).
Definition lift {S A} (x : outcome A) : prog S A := λ s, (s, x).

(** [l[i]] on a slice: out of range panics. *)
Definition at_index {A} (l : list A) (i : nat) : outcome A :=
  match l !! i with Some x => Ok x | None => Panic end.

(** [l[i] = x] on a slice: out of range panics. *)
Definition set_index {A} (l : list A) (i : nat) (x : A) : outcome (list A) :=
  if decide (i < length l)%nat then Ok (<[i := x]> l) else Panic.

Definition set_omni (o : OMNiInterface) (m : Machine) : Machine :=
  {| omni := o; nodes := nodes m; sealed := sealed m; wire := wire m |}.
Definition set_nodes (n : gmap string fnode) (m : Machine) : Machine :=
  {| omni := omni m; nodes := n; sealed := sealed m; wire := wire m |}.
Definition set_wire (w : list http_Request) (m : Machine) : Machine :=
  {| omni := omni m; nodes := nodes m; sealed := sealed m; wire := w |}.
Definition set_PayloadStructCacheDir (d : string) (o : OMNiInterface) : OMNiInterface :=
  {| URL := URL o; User := User o; Password := Password o; Timeout := Timeout o;
     PayloadStructCacheDir := d |}.
Definition set_Payload (p : gmap string value) (r : Request) : Request :=
  {| Method := Method r; DBPath := DBPath r; Filter := Filter r;
     ColumnData := ColumnData r; Collist := Collist r; Payload := p |}.

(** The prefixes of [p] that end before a slash, [pre] put in front of
    each, the shortest first. *)
Fixpoint dirs_from (pre p : string) : list string :=
  match p with
  | EmptyString => []
  | String c p' =>
      (if Ascii.eqb c "/" then [pre] else []) ++ dirs_from (pre +:+ String c "") p'
  end.

(** The directories a path lies in, the outermost first: [a] and [a/b]
    for [a/b/c].  The root, which is always there, is left out.  A path is
    read as names with slashes between them: [.], [..] and links are
    names like any other here. *)
Definition dirs_above (p : string) : list string :=
  filter (λ a, a ≠ "") (dirs_from "" p).

(** What [os.Stat] comes back with: the node, the error that
    [os.IsNotExist] recognises (ENOENT), or another error (ENOTDIR, EACCES). *)
Inductive stat_result :=
| Found (n : fnode)
| NotExist
| StatFails.

(** Going down the directories [above] a path: the error met on the way,
    if any.  A missing directory is ENOENT; a regular file where a
    directory should be is ENOTDIR, a directory that cannot be searched is
    EACCES. *)
Fixpoint descend (t : gmap string fnode) (above : list string) : option stat_result :=
  match above with
  | [] => None
  | a :: rest =>
      match t !! a with
      | Some Dir => descend t rest
      | Some _ => Some StatFails
      | None => Some NotExist
      end
  end.

(** [os.Stat(p)]: what is at [p]; where nothing is, ENOENT when the
    directories above [p] are directories that can be searched as far as
    they are there, and another error when one of them is not. *)
Definition os_Stat (p : string) (m : Machine) : stat_result :=
  match nodes m !! p with
  | Some n => Found n
  | None => default NotExist (descend (nodes m) (dirs_above p))
  end.

(** [_, err := os.Stat(p); os.IsNotExist(err)]. *)
Definition os_Stat_IsNotExist (p : string) : prog Machine bool :=
  gets (λ m, match os_Stat p m with NotExist => true | _ => false end).

(** [os.MkdirAll] on the directories of [chain], the outermost first: each
    one that is missing is made, unless nothing can be created there or
    the directory it lies in cannot be searched ([closed]); what is there
    and is no directory stops it.  What was made before it stopped stays.
    Returns the tree and whether it failed. *)
Fixpoint mkdirs (chain : list string) (closed : bool) (sealed : gset string)
    (t : gmap string fnode) : gmap string fnode * bool :=
  match chain with
  | [] => (t, false)
  | a :: rest =>
      match t !! a with
      | Some Dir => mkdirs rest false sealed t
      | Some Closed => mkdirs rest true sealed t
      | Some _ => (t, true)
      | None =>
          if closed || bool_decide (a ∈ sealed) then (t, true)
          else mkdirs rest false sealed (<[a := Dir]> t)
      end
  end.

(** [os.MkdirAll(p, perm) != nil]: [p] and the directories above it. *)
Definition os_MkdirAll (p : string) : prog Machine bool := λ m,
  let '(t, failed) := mkdirs (dirs_above p ++ [p]) false (sealed m) (nodes m) in
  (set_nodes t m, Ok failed).

(** [ioutil.ReadFile(p)]: the bytes (none on error) and whether it failed. *)
Definition ioutil_ReadFile (p : string) : prog Machine (string * bool) :=
  gets (λ m, match nodes m !! p with
             | Some (File dat) => (dat, false)
             | _ => ("", true)
             end).

(** [ioutil.WriteFile(p, dat, perm) != nil]: creates or replaces a regular
    file. *)
Definition ioutil_WriteFile (p dat : string) : prog Machine bool := λ m,
  if bool_decide (p ∈ sealed m) then (m, Ok true)
  else match nodes m !! p with
       | None | Some (File _) => (set_nodes (<[p := File dat]> (nodes m)) m, Ok false)
       | Some _ => (m, Ok true)
       end.

(** ** The package's functions *)

Section Package.
Context `{Runtime}.

(** [int(f)] for a float64 [f]: the fraction is discarded; outside [int]
    the result is the implementation's. *)
Definition int_of_float64 (f : float) : Z :=
  match exact_int f with
  | Some z => z
  | None => int_unrepresentable f
  end.

(** int64 arithmetic wraps around. *)
Definition wrap64 (z : Z) : Z := ((z + 2 ^ 63) `mod` 2 ^ 64 - 2 ^ 63)%Z.

(** [time.Duration(omni.Timeout) * time.Second], in nanoseconds. *)
Definition client_Timeout (o : OMNiInterface) : Z :=
  wrap64 (int_of_float64 (Timeout o) * 1000000000).

(** [http.NewRequest(method, url, body)] with the error dropped: nil when the
    URL does not parse. *)
Definition http_NewRequest (method url : string) (body : option string)
    : option http_Request :=
  if url_Parse_ok url
  then Some {| rq_method := method; rq_url := url; rq_body := body;
               rq_auth := None; rq_close := false; rq_content_type := None |}
  else None.

(** Operations through a [*http.Request]: a nil pointer panics. *)
Definition set_Close (r : option http_Request) : outcome http_Request :=
  match r with
  | Some r => Ok {| rq_method := rq_method r; rq_url := rq_url r; rq_body := rq_body r;
                    rq_auth := rq_auth r; rq_close := true;
                    rq_content_type := rq_content_type r |}
  | None => Panic
  end.
Definition SetBasicAuth (r : option http_Request) (user pass : string)
    : outcome http_Request :=
  match r with
  | Some r => Ok {| rq_method := rq_method r; rq_url := rq_url r; rq_body := rq_body r;
                    rq_auth := Some (user, pass); rq_close := rq_close r;
                    rq_content_type := rq_content_type r |}
  | None => Panic
  end.
Definition Header_Set_Content_Type (r : http_Request) (ct : string) : http_Request :=
  {| rq_method := rq_method r; rq_url := rq_url r; rq_body := rq_body r;
     rq_auth := rq_auth r; rq_close := rq_close r; rq_content_type := Some ct |}.

(** [resp, err := client.Do(req)] and, when it succeeds, the body read from
    the response. *)
Definition http_Do (o : OMNiInterface) (r : http_Request) : prog Machine (string + string) :=
  λ m, (set_wire (wire m ++ [r]) m, Ok (client_Do (wire m) (client_Timeout o) r)).

(** *** generateRetval *)

Definition generateRetval (res : gmap string value) : outcome (list value) :=
  match res !! "exception" with
  | Some exc =>
      (* exception by OMNIbus *)
      e ← assert_map exc;
      msg ← assert_string (index e "message");
      Err (errors_New ("OMNIbus: " +:+ msg))
  | None =>
      match res !! "rowset" with
      | Some rowset =>
          rs ← assert_map rowset;
          match rs !! "rows" with
          | None => Ok []
          | Some rows => assert_slice rows
          end
      | None => Ok []
      end
  end.

(** *** createCacheDir *)

Definition default_cache_dir : string := "cache/omniinterface/payloadstructs".

Definition createCacheDir : prog Machine unit :=
  o ← gets omni;
  (if String.eqb (PayloadStructCacheDir o) ""
   then modify (set_omni (set_PayloadStructCacheDir default_cache_dir o))
   else mret tt) ;;
  o ← gets omni;
  (* check if the dir already exists *)
  missing ← os_Stat_IsNotExist (PayloadStructCacheDir o);
  if missing : bool then
    failed ← os_MkdirAll (PayloadStructCacheDir o);
    if failed : bool
    then fail (errors_New "Couldn't create payload structure cache directory")
    else mret tt
  else
    (* directory did already exist *)
    mret tt.

(** *** getPayloadStructure *)

(** The [switch dt] of the catalog loop. *)
Definition typeTag (dt : float) : string :=
  if PrimFloat.eqb dt 1 then "utc"
  else if PrimFloat.eqb dt 2 then "string"
  else if PrimFloat.eqb dt 10 then "string"
  else "integer".

(** One round of [for _, v := range res]. *)
Definition catalogRow (types : gmap string value) (v : value)
    : outcome (gmap string value) :=
  r ← assert_map v;
  dt ← assert_float64 (index r "DataType");
  r ← assert_map v;
  cn ← assert_string (index r "ColumnName");
  Ok (<[cn := VString (typeTag dt)]> types).

Fixpoint catalogRows (types : gmap string value) (res : list value)
    : outcome (gmap string value) :=
  match res with
  | [] => Ok types
  | v :: rest => types' ← catalogRow types v; catalogRows types' rest
  end.

Definition cache_file (dir db table : string) : string :=
  dir +:+ "/" +:+ db +:+ "." +:+ table +:+ ".json".

Definition catalog_url (o : OMNiInterface) (db table : string) : string :=
  URL o +:+ "/catalog/columns" +:+ "?collist=ColumnName,DataType&filter=" +:+
  url_QueryEscape ("DatabaseName='" +:+ db +:+ "' AND TableName='" +:+ table +:+ "'").

(** The body of [if _, err := os.Stat(...); os.IsNotExist(err)]: the
    request to the catalog, the type tags, the cache file. *)
Definition fetchStructure (o : OMNiInterface) (db table : string) : prog Machine unit :=
  (* We do the request directly here, it's a static one *)
  let hreq := http_NewRequest "GET" (catalog_url o db table) None in
  hreq ← lift (SetBasicAuth hreq (User o) (Password o));
  resp ← http_Do o hreq;
  match resp with
  | inr err => fail (url_Error err)
  | inl body =>
      let types := (json_Unmarshal body).1 in
      res ← lift (generateRetval types);
      types ← lift (catalogRows types res);
      let dat := json_Marshal types in
      ioutil_WriteFile (cache_file (PayloadStructCacheDir o) db table) dat ;;
      mret tt
  end.

Definition getPayloadStructure (req : Request) : prog Machine unit :=
  createCacheDir ;;
  (* check if the file exists *)
  let dbinfo := strings_Split (DBPath req) "/" in
  if negb (length dbinfo =? 2)%nat
  then fail (errors_New "DBPath is not a path: Format db/table")
  else
    o ← gets omni;
    db ← lift (at_index dbinfo 0);
    table ← lift (at_index dbinfo 1);
    missing ← os_Stat_IsNotExist (cache_file (PayloadStructCacheDir o) db table);
    if missing : bool then fetchStructure o db table else mret tt.

(** *** generatePayload *)

(** The two slices [coldesc] and [rows] that [generatePayload] makes, stores
    in [req.Payload["rowset"]] and then fills in through its local
    variables: the payload shares them, so it shows every update. *)
Record bufs := {
  b_coldesc : list (gmap string value);
  b_rows : list (gmap string value);
}.

Definition payload_of (b : bufs) : gmap string value :=
  {[ "rowset" := VMap (<[ "rows" := VMapSlice (b_rows b) ]>
                       {[ "coldesc" := VMapSlice (b_coldesc b) ]}) ]}.

(** [coldesc[i] = m]. *)
Definition set_coldesc (i : nat) (m : gmap string value) : prog bufs unit :=
  b ← gets id;
  l ← lift (set_index (b_coldesc b) i m);
  modify (λ b, {| b_coldesc := l; b_rows := b_rows b |}).

(** [coldesc[i][key] = x]. *)
Definition put_coldesc (i : nat) (key : string) (x : value) : prog bufs unit :=
  b ← gets id;
  m ← lift (at_index (b_coldesc b) i);
  set_coldesc i (<[key := x]> m).

(** [rows[j][key] = x]. *)
Definition put_rows (j : nat) (key : string) (x : value) : prog bufs unit :=
  b ← gets id;
  m ← lift (at_index (b_rows b) j);
  l ← lift (set_index (b_rows b) j (<[key := x]> m));
  modify (λ b, {| b_coldesc := b_coldesc b; b_rows := l |}).

(** The body of [for k, v := range req.ColumnData], at loop counter [i]. *)
Definition columnStep (types : gmap string value) (i : nat) (k : string) (v : value)
    : prog bufs unit :=
  if is_nil (index types k)
  then fail (errors_New ("Column not found: " +:+ k))
  else
    set_coldesc i ∅ ;;
    put_coldesc i "type" (index types k) ;;
    put_coldesc i "name" (VString k) ;;
    if eq_string (index types k) "integer" || eq_string (index types k) "utc" then
      match reflect_TypeOf v with
      | None => panic
      | Some ty =>
          if String.eqb ty "string" then
            s ← lift (assert_string v);
            match strconv_Atoi s with
            | None =>
                s ← lift (assert_string v);
                t ← lift (assert_string (index types k));
                fail (errors_New ("Couldn't convert column value to integer: "
                                  +:+ s +:+ " (" +:+ t +:+ ")"))
            | Some num => put_rows 0 k (VInt num)
            end
          else if String.eqb ty "int64" then
            n ← lift (assert_int64 v);
            put_rows 0 k (VInt64 n)
          else if String.eqb ty "float64" then
            f ← lift (assert_float64 v);
            put_rows 0 k (VInt (int_of_float64 f))
          else if String.eqb ty "int" then
            put_rows 0 k v
          else
            fail (errors_New ("Couldn't convert given parameter: " +:+ k
                              +:+ " which is of type " +:+ ty))
      end
    else
      put_rows 0 k v.

(** The loop, over the entries in the order [range] yields them. *)
Fixpoint rangeColumns (types : gmap string value) (order : list (string * value))
    (i : nat) : prog bufs unit :=
  match order with
  | [] => mret tt
  | (k, v) :: rest => columnStep types i k v ;; rangeColumns types rest (S i)
  end.

(** Go leaves the order in which [range] visits a map open: [order] is one
    of the orders it may take over [m]. *)
Definition range_order (m : gmap string value) (order : list (string * value)) : Prop :=
  order ≡ₚ map_to_list m.

(** Run a program of the machine on the machine half of a pair. *)
Definition on_machine {A} (c : prog Machine A) : prog (Machine * Request) A :=
  λ '(m, r), let '(m', x) := c m in ((m', r), x).

(** Run a program on the slices of the payload of [req]. *)
Definition on_payload {A} (b : bufs) (c : prog bufs A) : prog (Machine * Request) A :=
  λ '(m, r), let '(b', x) := c b in ((m, set_Payload (payload_of b') r), x).

(** generatePayload generates the payload for the given request.  The
    request is behind a pointer: it is part of the state. *)
Definition generatePayload (order : list (string * value))
    : prog (Machine * Request) unit :=
  req ← gets snd;
  on_machine (getPayloadStructure req) ;;
  let dbinfo := strings_Split (DBPath req) "/" in
  (* we have the structure file saved, we need that to generate the payload. *)
  o ← gets (omni ∘ fst);
  db ← lift (at_index dbinfo 0);
  table ← lift (at_index dbinfo 1);
  rd ← on_machine (ioutil_ReadFile (cache_file (PayloadStructCacheDir o) db table));
  let types := (json_Unmarshal rd.1).1 in
  let b := {| b_coldesc := replicate (size (ColumnData req)) ∅; b_rows := [∅] |} in
  on_payload b (rangeColumns types order 0).

(** *** sendOMNIbus *)

(** What follows [client.Do] in each of the four cases. *)
Definition unwrap (resp : string + string) : prog Machine (list value) :=
  match resp with
  | inr err => fail (url_Error err)
  | inl body => lift (generateRetval (json_Unmarshal body).1)
  end.

Definition sendOMNIbus (req : Request) : prog Machine (list value) :=
  o ← gets omni;
  if String.eqb (Method req) "GET" then
    let columns := strings_Join (Collist req) "," in
    let hreq := http_NewRequest "GET"
      (URL o +:+ "/" +:+ DBPath req +:+ "/" +:+ "?collist=" +:+ columns +:+ "&filter="
       +:+ url_QueryEscape (Filter req)) None in
    hreq ← lift (set_Close hreq);
    hreq ← lift (SetBasicAuth (Some hreq) (User o) (Password o));
    resp ← http_Do o hreq;
    unwrap resp
  else if String.eqb (Method req) "DELETE" then
    let hreq := http_NewRequest "DELETE"
      (URL o +:+ "/" +:+ DBPath req +:+ "/" +:+ "?filter="
       +:+ url_QueryEscape (Filter req)) None in
    hreq ← lift (set_Close hreq);
    hreq ← lift (SetBasicAuth (Some hreq) (User o) (Password o));
    resp ← http_Do o hreq;
    unwrap resp
  else if String.eqb (Method req) "PATCH" then
    let jsonstr := json_Marshal (Payload req) in
    let hreq := http_NewRequest "PATCH"
      (URL o +:+ "/" +:+ DBPath req +:+ "?filter=" +:+ url_QueryEscape (Filter req))
      (Some jsonstr) in
    hreq ← lift (set_Close hreq);
    hreq ← lift (SetBasicAuth (Some hreq) (User o) (Password o));
    let hreq := Header_Set_Content_Type hreq "application/json" in
    resp ← http_Do o hreq;
    unwrap resp
  else if String.eqb (Method req) "POST" then
    let jsonstr := json_Marshal (Payload req) in
    let hreq := http_NewRequest "POST" (URL o +:+ "/" +:+ DBPath req) (Some jsonstr) in
    hreq ← lift (set_Close hreq);
    hreq ← lift (SetBasicAuth (Some hreq) (User o) (Password o));
    let hreq := Header_Set_Content_Type hreq "application/json" in
    resp ← http_Do o hreq;
    unwrap resp
  else mret [].

(** *** SendRequest *)

(** SendRequest is the main function called to send a request to OMNIbus.
    [req] is passed by value: the copy that [generatePayload] fills in is
    the one [sendOMNIbus] sends. *)
Definition SendRequest (order : list (string * value)) (req : Request)
    : prog Machine (list value) :=
  λ m,
    (* for POST(INSERT) and PATCH(UPDATE) we need to generate a payload. *)
    if String.eqb (Method req) "POST" || String.eqb (Method req) "PATCH" then
      match generatePayload order (m, req) with
      | ((m', req'), Ok _) => sendOMNIbus req' m'
      | ((m', _), Err e) => (m', Err e)
      | ((m', _), Panic) => (m', Panic)
      end
    else sendOMNIbus req m.

End Package.

(** ** Vocabulary for the statements *)

Section Vocabulary.
Context `{Runtime}.

(** The cache directory [createCacheDir] settles on. *)
Definition effective_dir (o : OMNiInterface) : string :=
  if String.eqb (PayloadStructCacheDir o) "" then default_cache_dir
  else PayloadStructCacheDir o.

(** The machine once [createCacheDir] has filled in the default directory. *)
Definition settled (m : Machine) : Machine :=
  if String.eqb (PayloadStructCacheDir (omni m)) ""
  then set_omni (set_PayloadStructCacheDir default_cache_dir (omni m)) m
  else m.

(** [os.Stat] reports that there is nothing at [p]. *)
Definition absent (m : Machine) (p : string) : Prop := os_Stat p m = NotExist.

(** [createCacheDir] has nothing to complain about: [os.Stat] does not
    report the cache directory as missing, or [os.MkdirAll] makes it. *)
Definition cache_dir_available (m : Machine) : Prop :=
  let d := effective_dir (omni m) in
  absent m d → (os_MkdirAll d m).2 = Ok false.

(** The Schema Store has an entry for the table of [req], as far as the
    code looks: [os.Stat] reports neither the cache directory nor the
    table's cache file as missing. *)
Definition has_entry (m : Machine) (req : Request) (db table : string) : Prop :=
  strings_Split (DBPath req) "/" = [db; table] ∧
  ¬ absent m (effective_dir (omni m)) ∧
  ¬ absent m (cache_file (effective_dir (omni m)) db table).

(** The entry is a readable file that decodes to [types]. *)
Definition schema_cached (m : Machine) (req : Request) (types : gmap string value) : Prop :=
  ∃ db table dat,
    strings_Split (DBPath req) "/" = [db; table] ∧
    is_Some (nodes m !! effective_dir (omni m)) ∧
    nodes m !! cache_file (effective_dir (omni m)) db table = Some (File dat) ∧
    (json_Unmarshal dat).1 = types.

(** The slices as [generatePayload] makes them, before the loop. *)
Definition initial_bufs (req : Request) : bufs :=
  {| b_coldesc := replicate (size (ColumnData req)) ∅; b_rows := [∅] |}.

(** The ColumnDescriptor of column [k]. *)
Definition descriptor (types : gmap string value) (k : string) : gmap string value :=
  <["name" := VString k]> (<["type" := index types k]> ∅).

(** The slices after one accepted column: its descriptor in slot [i] and
    [x] under [k] in the row. *)
Definition stored (types : gmap string value) (i : nat) (k : string) (x : value)
    (b : bufs) : bufs :=
  {| b_coldesc := <[i := descriptor types k]> (b_coldesc b);
     b_rows := alter (<[k := x]>) 0%nat (b_rows b) |}.

(** The loop over [order] has got to the entry [(k, v)] without an error:
    the entries before it were all accepted, [i] is the loop counter and [b]
    the slices at that point, [post] the entries still to come. *)
Definition reaches (types : gmap string value) (req : Request)
    (order : list (string * value)) (k : string) (v : value)
    (i : nat) (b : bufs) (post : list (string * value)) : Prop :=
  ∃ pre, order = pre ++ (k, v) :: post ∧ i = length pre ∧
         rangeColumns types pre 0 (initial_bufs req) = (b, Ok tt).

(** The slices after the descriptor of [k] went into slot [i]. *)
Definition described (types : gmap string value) (i : nat) (k : string)
    (b : bufs) : bufs :=
  {| b_coldesc := <[i := descriptor types k]> (b_coldesc b); b_rows := b_rows b |}.

(** Column [k] is declared with one of the two numeric tags. *)
Definition numeric (types : gmap string value) (k : string) : bool :=
  eq_string (index types k) "integer" || eq_string (index types k) "utc".

(** Slot [i] of [coldesc] and the one row are there to be written. *)
Definition ready (i : nat) (b : bufs) : Prop :=
  (i < length (b_coldesc b))%nat ∧ ∃ row, b_rows b = [row].

(** What the loop body puts in the row for [(k, v)], or how it fails, once
    the column is known to the schema. *)
Definition columnValue (types : gmap string value) (k : string) (v : value)
    : outcome value :=
  if numeric types k then
    match reflect_TypeOf v with
    | None => Panic
    | Some ty =>
        if String.eqb ty "string" then
          s ← assert_string v;
          match strconv_Atoi s with
          | None =>
              t ← assert_string (index types k);
              Err (errors_New ("Couldn't convert column value to integer: "
                               +:+ s +:+ " (" +:+ t +:+ ")"))
          | Some num => Ok (VInt num)
          end
        else if String.eqb ty "int64" then n ← assert_int64 v; Ok (VInt64 n)
        else if String.eqb ty "float64" then
          f ← assert_float64 v; Ok (VInt (int_of_float64 f))
        else if String.eqb ty "int" then Ok v
        else Err (errors_New ("Couldn't convert given parameter: " +:+ k
                              +:+ " which is of type " +:+ ty))
    end
  else Ok v.

(** The one row of the slices. *)
Definition the_row (b : bufs) : gmap string value := default ∅ (b_rows b !! 0%nat).

(** [payload["rowset"]["coldesc"]] and [payload["rowset"]["rows"]] of a
    synthesized payload. *)
Definition payload_coldesc (p : gmap string value) : list (gmap string value) :=
  match p !! "rowset" with
  | Some (VMap rs) => match rs !! "coldesc" with Some (VMapSlice l) => l | _ => [] end
  | _ => []
  end.
Definition payload_rows (p : gmap string value) : list (gmap string value) :=
  match p !! "rowset" with
  | Some (VMap rs) => match rs !! "rows" with Some (VMapSlice l) => l | _ => [] end
  | _ => []
  end.

(** The columns a catalog answer lists: each row an object with a numeric
    [DataType] and a textual [ColumnName]. *)
Definition catalog_lists (res : list value) (cols : list (string * float)) : Prop :=
  Forall2 (λ v c, ∃ r, v = VMap r ∧ r !! "DataType" = Some (VFloat64 c.2) ∧
                       r !! "ColumnName" = Some (VString c.1)) res cols.

(** The request [fetchStructure] sends to the catalog. *)
Definition catalog_request (o : OMNiInterface) (db table : string) : http_Request :=
  {| rq_method := "GET"; rq_url := catalog_url o db table; rq_body := None;
     rq_auth := Some (User o, Password o); rq_close := false;
     rq_content_type := None |}.

(** The entry at [file] is there, and reading or decoding it fails. *)
Definition cache_read_fails (m : Machine) (file : string) : Prop :=
  match nodes m !! file with
  | Some (File dat) => (json_Unmarshal dat).2 = true
  | Some _ => True
  | None => False
  end.

(** The mapping [generatePayload] ends up with from the entry at [file],
    errors dropped: what the decoder made of the bytes, and nothing when
    there were no bytes to decode. *)
Definition entry_types (m : Machine) (file : string) : gmap string value :=
  match nodes m !! file with
  | Some (File dat) => (json_Unmarshal dat).1
  | _ => ∅
  end.

(** Everything on disk in [m] is still there, unchanged, in [m']. *)
Definition keeps (m m' : Machine) : Prop :=
  ∀ p n, nodes m !! p = Some n → nodes m' !! p = Some n.

End Vocabulary.

(** ** Vocabulary for the requests and the lookup *)

Section Requests.
Context `{Runtime}.

(** The methods [sendOMNIbus] has a case for. *)
Definition supported (method : string) : bool :=
  String.eqb method "GET" || String.eqb method "DELETE" ||
  String.eqb method "PATCH" || String.eqb method "POST".

(** The methods for which [SendRequest] generates a payload. *)
Definition writes (method : string) : bool :=
  String.eqb method "POST" || String.eqb method "PATCH".

(** The URL [sendOMNIbus] asks for, method by method. *)
Definition table_url (o : OMNiInterface) (req : Request) : string :=
  if String.eqb (Method req) "GET" then
    URL o +:+ "/" +:+ DBPath req +:+ "/" +:+ "?collist="
    +:+ strings_Join (Collist req) "," +:+ "&filter=" +:+ url_QueryEscape (Filter req)
  else if String.eqb (Method req) "DELETE" then
    URL o +:+ "/" +:+ DBPath req +:+ "/" +:+ "?filter=" +:+ url_QueryEscape (Filter req)
  else if String.eqb (Method req) "PATCH" then
    URL o +:+ "/" +:+ DBPath req +:+ "?filter=" +:+ url_QueryEscape (Filter req)
  else
    URL o +:+ "/" +:+ DBPath req.

(** The request [sendOMNIbus] hands to the client. *)
Definition table_request (o : OMNiInterface) (req : Request) : http_Request :=
  {| rq_method := Method req;
     rq_url := table_url o req;
     rq_body := if writes (Method req) then Some (json_Marshal (Payload req)) else None;
     rq_auth := Some (User o, Password o);
     rq_close := true;
     rq_content_type := if writes (Method req) then Some "application/json" else None |}.

(** Nothing stands in the way to [p]: what is there of the directories
    above it is directories that can be searched. *)
Definition way_clear (m : Machine) (p : string) : Prop :=
  Forall (λ a, nodes m !! a = None ∨ nodes m !! a = Some Dir) (dirs_above p).

(** The Schema Store has no entry for the table of [req]: the table's
    cache file is not there, nothing stands in the way to it, and the
    cache directory is there or can be made.  [os.Stat] will report the
    file as missing, and [getPayloadStructure] will ask the catalog. *)
Definition cache_miss (m : Machine) (req : Request) (db table : string) : Prop :=
  strings_Split (DBPath req) "/" = [db; table] ∧
  cache_dir_available m ∧
  nodes m !! cache_file (effective_dir (omni m)) db table = None ∧
  way_clear m (cache_file (effective_dir (omni m)) db table).

(** What the remote service answers to the catalog query sent from [m]. *)
Definition catalog_answer (m : Machine) (db table : string) : string + string :=
  client_Do (wire m) (client_Timeout (omni m)) (catalog_request (omni m) db table).

End Requests.

(** A request with one field replaced. *)
Definition set_ColumnData (cd : gmap string value) (r : Request) : Request :=
  {| Method := Method r; DBPath := DBPath r; Filter := Filter r;
     ColumnData := cd; Collist := Collist r; Payload := Payload r |}.
Definition set_Filter (f : string) (r : Request) : Request :=
  {| Method := Method r; DBPath := DBPath r; Filter := f;
     ColumnData := ColumnData r; Collist := Collist r; Payload := Payload r |}.
Definition set_Collist (cl : list string) (r : Request) : Request :=
  {| Method := Method r; DBPath := DBPath r; Filter := Filter r;
     ColumnData := ColumnData r; Collist := cl; Payload := Payload r |}.

(** The entries of [order], with the value of column [k] replaced by the
    int [n]. *)
Definition as_int (k : string) (n : Z) (order : list (string * value))
    : list (string * value) :=
  (λ e, if decide (e.1 = k) then (k, VInt n) else e) <$> order.

(** The names [reflect] gives the dynamic types that have a constructor of
    their own in [value]. *)
Definition embedded_types : list string :=
  ["bool"; "string"; "int"; "int64"; "float64"; "[]interface {}";
   "map[string]interface {}"; "[]map[string]interface {}"].

(** A value of any other dynamic type goes by another name. *)
Definition genuine (v : value) : Prop :=
  match v with
  | VOther ty _ => ty ∉ embedded_types
  | _ => True
  end.

(** ** A scripted runtime, for concrete runs *)

(** A runtime whose decoder knows the byte strings of [book], whose encoder
    is [enc], and whose remote service answers by [serve]. *)
Definition scripted_Unmarshal (book : list (string * gmap string value)) (s : string)
    : gmap string value * bool :=
  if String.eqb s "" then (∅, true)
  else match list_find (λ e, e.1 = s) book with
       | Some (_, (_, m)) => (m, false)
       | None => (∅, true)
       end.

Definition scripted (book : list (string * gmap string value))
    (enc : gmap string value → string)
    (serve : http_Request → string + string) : Runtime :=
  {| json_Unmarshal := scripted_Unmarshal book;
     json_Marshal := enc;
     url_QueryEscape := λ s, s;
     url_Parse_ok := λ _, true;
     client_Do := λ _ _ r, serve r;
     int_unrepresentable := λ _, int_min;
     json_Unmarshal_nil := eq_refl |}.

(** A small installation: the cache directory [cache], the table
    [alerts.status] with three columns, and a remote service that answers
    catalog queries with four columns (type codes 0, 2, 1 and 99) and
    everything else with an empty rowset.  Byte strings are stand-ins for
    the JSON texts; the encoder writes the one text the demo ever encodes
    for a cache file, [<fetched>]. *)
Definition demo_schema : gmap string value :=
  {[ "Severity" := VString "integer"; "Summary" := VString "string";
     "LastOccurrence" := VString "utc" ]}.

Definition demo_column (cn : string) (dt : float) : value :=
  VMap {[ "ColumnName" := VString cn; "DataType" := VFloat64 dt ]}.

Definition demo_catalog : gmap string value :=
  {[ "rowset" := VMap {[ "rows" := VSlice [demo_column "Severity" 0;
                                           demo_column "Summary" 2;
                                           demo_column "LastOccurrence" 1;
                                           demo_column "Flags" 99] ]} ]}.

(** What the fetch makes of the catalog answer: its own entries and the
    four tags. *)
Definition demo_fetched : gmap string value :=
  <["Flags" := VString "integer"]>
    (<["LastOccurrence" := VString "utc"]>
       (<["Summary" := VString "string"]>
          (<["Severity" := VString "integer"]> demo_catalog))).

Definition demo_serve (r : http_Request) : string + string :=
  if String.eqb (rq_method r) "GET" then inl "<catalog>" else inl "<done>".

Definition demo_runtime : Runtime :=
  scripted [("<schema>", demo_schema); ("<catalog>", demo_catalog);
            ("<fetched>", demo_fetched); ("<done>", {[ "rowset" := VMap ∅ ]})]
           (λ _, "<fetched>") demo_serve.

Definition demo_omni : OMNiInterface :=
  {| URL := "http://omnihost:8080/objectserver/restapi"; User := "root";
     Password := "secret"; Timeout := 30; PayloadStructCacheDir := "cache" |}.

Definition demo_disk (entry : option fnode) : Machine :=
  {| omni := demo_omni;
     nodes := match entry with
              | Some n => {[ "cache" := Dir; "cache/alerts.status.json" := n ]}
              | None => {[ "cache" := Dir ]}
              end;
     sealed := ∅; wire := [] |}.

(** A machine on which the cache directory is missing and cannot be made. *)
Definition demo_sealed : Machine :=
  {| omni := demo_omni; nodes := ∅; sealed := {[ "cache" ]}; wire := [] |}.

(** The machine with the schema of [alerts.status] in the cache. *)
Definition demo_machine : Machine := demo_disk (Some (File "<schema>")).

Definition demo_write (method path : string) (cols : gmap string value) : Request :=
  {| Method := method; DBPath := path; Filter := ""; ColumnData := cols;
     Collist := []; Payload := ∅ |}.

(** More of the demo installation: a remote service out of reach, one that
    answers with an exception, one whose answers do not decode, and one
    that answers reads with two rows. *)
Definition demo_offline : Runtime :=
  scripted [] (λ _, "null") (λ _, inr "dial tcp: connection refused").

Definition demo_refusing : Runtime :=
  scripted [("<exception>",
             {[ "exception" := VMap {[ "message" := VString "bad filter" ]} ]})]
           (λ _, "null") (λ _, inl "<exception>").

Definition demo_garbled : Runtime := scripted [] (λ _, "null") (λ _, inl "<html>").

Definition demo_rows : list value :=
  [VMap {[ "Node" := VString "alpha" ]}; VMap {[ "Node" := VString "beta" ]}].

Definition demo_answering : Runtime :=
  scripted [("<rows>", {[ "rowset" := VMap {[ "rows" := VSlice demo_rows ]} ]})]
           (λ _, "null") (λ _, inl "<rows>").

(** A catalog that lists [Severity] twice, as a string and then as a
    number, and one that gives a type code as a string. *)
Definition demo_relisting : Runtime :=
  scripted [("<catalog>",
             {[ "rowset" := VMap {[ "rows" := VSlice [demo_column "Severity" 2;
                                                      demo_column "Severity" 0] ]} ]})]
           (λ _, "<fetched>") (λ _, inl "<catalog>").

Definition demo_untyped : Runtime :=
  scripted [("<catalog>",
             {[ "rowset" := VMap {[ "rows" := VSlice
                  [VMap {[ "ColumnName" := VString "Severity";
                           "DataType" := VString "0" ]}] ]} ]})]
           (λ _, "<fetched>") (λ _, inl "<catalog>").

(** A runtime whose URL parser refuses what starts with a colon (for
    [url.Parse], a missing protocol scheme). *)
Definition demo_strict : Runtime :=
  {| json_Unmarshal := scripted_Unmarshal [];
     json_Marshal := λ _, "null";
     url_QueryEscape := λ s, s;
     url_Parse_ok := λ u, negb (String.prefix ":" u);
     client_Do := λ _ _ _, inl "";
     int_unrepresentable := λ _, int_min;
     json_Unmarshal_nil := eq_refl |}.

(** A configuration with no cache directory set, on an empty disk. *)
Definition demo_unconfigured : Machine :=
  {| omni := set_PayloadStructCacheDir "" demo_omni; nodes := ∅; sealed := ∅;
     wire := [] |}.

(** The cache directory is configured beneath [blocker], which is a
    regular file. *)
Definition demo_blocked : Machine :=
  {| omni := set_PayloadStructCacheDir "blocker/cache" demo_omni;
     nodes := {[ "blocker" := File "x" ]}; sealed := ∅; wire := [] |}.

(** The path of the cache directory is taken by a regular file. *)
Definition demo_taken : Machine :=
  {| omni := demo_omni; nodes := {[ "cache" := File "x" ]}; sealed := ∅; wire := [] |}.

(** The cache directory is there and cannot be searched. *)
Definition demo_closed : Machine :=
  {| omni := demo_omni; nodes := {[ "cache" := Closed ]}; sealed := ∅; wire := [] |}.

(** No cache directory set, on an empty disk where [cache] can be made and
    nothing inside it. *)
Definition demo_halfway : Machine :=
  {| omni := set_PayloadStructCacheDir "" demo_omni; nodes := ∅;
     sealed := {[ "cache/omniinterface" ]}; wire := [] |}.

(** The cache directory is there and the cache file of [alerts.status]
    cannot be written. *)
Definition demo_readonly : Machine :=
  {| omni := demo_omni; nodes := {[ "cache" := Dir ]};
     sealed := {[ "cache/alerts.status.json" ]}; wire := [] |}.

(** A configuration whose URL does not parse. *)
Definition demo_misconfigured : Machine :=
  {| omni := {| URL := ":"; User := "root"; Password := "secret"; Timeout := 30;
                PayloadStructCacheDir := "cache" |};
     nodes := {[ "cache" := Dir ]}; sealed := ∅; wire := [] |}.

(** The demo configuration with half a second for a timeout. *)
Definition demo_hasty : OMNiInterface :=
  {| URL := URL demo_omni; User := "root"; Password := "secret"; Timeout := 0.5;
     PayloadStructCacheDir := "cache" |}.

Definition demo_read : Request :=
  {| Method := "GET"; DBPath := "alerts/status"; Filter := "Severity > 3";
     ColumnData := ∅; Collist := ["Node"; "Summary"]; Payload := ∅ |}.

(** ** Running the monads *)

Ltac run :=
  unfold mbind, mret, prog_bind, prog_ret, outcome_bind, outcome_ret,
         gets, modify, lift, fail, panic.

(** On a disk that is written out: [os.Stat] does not report the path as
    missing. *)
Ltac stat_finds := let H := fresh in intros H; vm_compute in H; discriminate H.

(** ** The library functions *)

Lemma strings_Split_length s sep :
  length (strings_Split s sep) = S (count_byte sep s).
Proof.
  induction s as [|c s IH]; [done|]. cbn.
  destruct (Ascii.eqb c sep); cbn; [by rewrite IH|].
  destruct (strings_Split s sep) as [|seg segs]; cbn in *; [done|]. by rewrite <- IH.
Qed.

(** Two segments: exactly one separator. *)
Lemma strings_Split_two s sep :
  length (strings_Split s sep) = 2%nat ↔ count_byte sep s = 1%nat.
Proof. rewrite strings_Split_length. lia. Qed.

Lemma strings_Split_segments s sep :
  Forall (λ seg, count_byte sep seg = 0%nat) (strings_Split s sep).
Proof.
  induction s as [|c s IH]; cbn; [by repeat constructor|].
  destruct (Ascii.eqb c sep) eqn:E; [by constructor|].
  destruct (strings_Split s sep) as [|seg segs]; [by repeat constructor; cbn; rewrite E|].
  inversion IH as [|? ? Hseg Hsegs]; subst.
  constructor; [|done]. cbn. by rewrite E.
Qed.

Lemma strings_Join_Split s sep :
  strings_Join (strings_Split s sep) (String sep EmptyString) = s.
Proof.
  induction s as [|c s IH]; [done|]. cbn.
  pose proof (strings_Split_length s sep) as Hlen.
  destruct (strings_Split s sep) as [|seg segs]; [done|].
  destruct (Ascii.eqb c sep) eqn:E.
  - apply Ascii.eqb_eq in E as ->. cbn in *. by rewrite IH.
  - destruct segs as [|seg' segs]; cbn in *; by rewrite <- IH.
Qed.

Lemma strconv_Atoi_range s n :
  strconv_Atoi s = Some n → (int_min ≤ n ≤ int_max)%Z.
Proof.
  unfold strconv_Atoi.
  destruct (match s with
            | String "-" r => (true, r)
            | String "+" r => (false, r)
            | _ => (false, s)
            end) as [neg body].
  destruct body as [|c body]; [done|].
  destruct (parse_digits (String c body) 0) as [d|]; [|done]. cbn zeta.
  destruct (_ && _) eqn:E; [|done]. intros [= <-]. lia.
Qed.

Example strconv_Atoi_runs :
  strconv_Atoi "42" = Some 42%Z ∧ strconv_Atoi "-7" = Some (-7)%Z ∧
  strconv_Atoi "+5" = Some 5%Z ∧ strconv_Atoi "007" = Some 7%Z ∧
  strconv_Atoi "" = None ∧ strconv_Atoi "-" = None ∧ strconv_Atoi "4x" = None ∧
  strconv_Atoi " 1" = None ∧ strconv_Atoi "3.9" = None ∧
  strconv_Atoi "9223372036854775807" = Some int_max ∧
  strconv_Atoi "9223372036854775808" = None ∧
  strconv_Atoi "-9223372036854775808" = Some int_min.
Proof. repeat split. Qed.

Example strings_Split_runs :
  strings_Split "alerts/status" "/" = ["alerts"; "status"] ∧
  strings_Split "alerts" "/" = ["alerts"] ∧
  strings_Split "" "/" = [""] ∧
  strings_Split "a/b/c" "/" = ["a"; "b"; "c"] ∧
  strings_Split "alerts/" "/" = ["alerts"; ""] ∧
  strings_Split "/" "/" = [""; ""].
Proof. repeat split. Qed.

(** The integer part of a finite number: the magnitude of mantissa times
    two to the exponent, rounded down, with the sign put back. *)
Lemma trunc_float64_finite f sign m e :
  Prim2SF f = S754_finite sign m e →
  trunc_float64 f =
    Some ((if sign then -1 else 1) *
          (if (0 <=? e)%Z then Z.pos m * 2 ^ e else Z.pos m `div` 2 ^ (- e)))%Z.
Proof.
  intros Hf. unfold trunc_float64. rewrite Hf. f_equal.
  destruct (Z.leb_spec 0 e) as [He|He].
  - rewrite Z.shiftl_mul_pow2 by done. destruct sign; lia.
  - rewrite Z.shiftl_div_pow2 by lia. destruct sign; lia.
Qed.

Lemma exact_int_range f z : exact_int f = Some z → (int_min ≤ z ≤ int_max)%Z.
Proof.
  unfold exact_int. destruct (trunc_float64 f) as [t|]; [|done].
  destruct (_ && _) eqn:E; [|done]. intros [= <-]. lia.
Qed.

(** The fraction is discarded, towards zero; what [int] cannot hold has no
    exact result. *)
Example exact_int_runs :
  exact_int 3.9 = Some 3%Z ∧ exact_int (-3.9) = Some (-3)%Z ∧
  exact_int 0.5 = Some 0%Z ∧ exact_int (-0.5) = Some 0%Z ∧
  exact_int 4 = Some 4%Z ∧ exact_int 1e300 = None ∧
  exact_int infinity = None ∧ exact_int nan = None ∧
  exact_int 9223372036854775808 = None ∧
  exact_int (-9223372036854775808) = Some int_min.
Proof. repeat split. Qed.

(** ** Paths and the directories above them *)

Lemma string_append_assoc (a b c : string) : (a +:+ b) +:+ c = a +:+ (b +:+ c).
Proof.
  induction a as [|ch a IH]; [done|].
  change (String ch ((a +:+ b) +:+ c) = String ch (a +:+ (b +:+ c))). by rewrite IH.
Qed.

Lemma string_append_nil (a : string) : a +:+ "" = a.
Proof.
  induction a as [|ch a IH]; [done|].
  change (String ch (a +:+ "") = String ch a). by rewrite IH.
Qed.

Lemma string_append_length (a b : string) :
  String.length (a +:+ b) = (String.length a + String.length b)%nat.
Proof.
  induction a as [|ch a IH]; [done|].
  change (S (String.length (a +:+ b)) = S (String.length a + String.length b)).
  by rewrite IH.
Qed.

Lemma count_byte_append sep (a b : string) :
  count_byte sep (a +:+ b) = (count_byte sep a + count_byte sep b)%nat.
Proof.
  induction a as [|ch a IH]; [done|].
  change ((if Ascii.eqb ch sep then 1 else 0) + count_byte sep (a +:+ b) =
          (if Ascii.eqb ch sep then 1 else 0) + count_byte sep a + count_byte sep b)%nat.
  rewrite IH. lia.
Qed.

Lemma dirs_from_append pre a b :
  dirs_from pre (a +:+ b) = dirs_from pre a ++ dirs_from (pre +:+ a) b.
Proof.
  revert pre. induction a as [|c a IH]; intros pre.
  - by rewrite string_append_nil.
  - change (String c a +:+ b) with (String c (a +:+ b)).
    change (dirs_from pre (String c (a +:+ b))) with
      ((if Ascii.eqb c "/" then [pre] else []) ++ dirs_from (pre +:+ String c "") (a +:+ b)).
    change (dirs_from pre (String c a)) with
      ((if Ascii.eqb c "/" then [pre] else []) ++ dirs_from (pre +:+ String c "") a).
    rewrite IH, <- app_assoc, string_append_assoc. done.
Qed.

Lemma dirs_from_plain pre s : count_byte "/" s = 0%nat → dirs_from pre s = [].
Proof.
  revert pre. induction s as [|c s IH]; intros pre; cbn; [done|].
  destruct (Ascii.eqb c "/"); [done|]. cbn. apply IH.
Qed.

(** What [dirs_from] lists is shorter than the path. *)
Lemma dirs_from_shorter pre p a :
  a ∈ dirs_from pre p → (String.length a < String.length pre + String.length p)%nat.
Proof.
  revert pre. induction p as [|c p IH]; intros pre; cbn; [by intros ?%elem_of_nil|].
  rewrite elem_of_app. intros [Ha|Ha].
  - destruct (Ascii.eqb c "/"); [|by apply elem_of_nil in Ha].
    apply list_elem_of_singleton in Ha as ->. lia.
  - apply IH in Ha. rewrite string_append_length in Ha. cbn in Ha. lia.
Qed.

Lemma dirs_above_shorter p a :
  a ∈ dirs_above p → (String.length a < String.length p)%nat.
Proof.
  unfold dirs_above. intros [_ Ha]%list_elem_of_filter.
  by apply dirs_from_shorter in Ha.
Qed.

(** A name put under a directory lies in that directory and in those the
    directory lies in. *)
Lemma dirs_above_under d name :
  d ≠ "" → count_byte "/" name = 0%nat →
  dirs_above (d +:+ "/" +:+ name) = dirs_above d ++ [d].
Proof.
  intros Hd Hname. unfold dirs_above.
  rewrite dirs_from_append, filter_app. f_equal.
  change (dirs_from ("" +:+ d) ("/" +:+ name)) with ([d] ++ dirs_from (d +:+ "/") name).
  rewrite (dirs_from_plain _ name Hname), app_nil_r.
  by rewrite filter_cons_True.
Qed.

Lemma cache_file_above path d db table :
  strings_Split path "/" = [db; table] → d ≠ "" →
  dirs_above (cache_file d db table) = dirs_above d ++ [d].
Proof.
  intros Hs Hd. unfold cache_file. apply dirs_above_under; [done|].
  pose proof (strings_Split_segments path "/") as Hseg. rewrite Hs in Hseg.
  inversion Hseg as [|? ? Hdb Hrest]; subst.
  inversion Hrest as [|? ? Htable _]; subst.
  rewrite !count_byte_append, Hdb, Htable. done.
Qed.

Lemma cache_file_longer d db table :
  (String.length d < String.length (cache_file d db table))%nat.
Proof.
  unfold cache_file. rewrite string_append_length, (string_append_length "/").
  change (String.length "/") with 1%nat. lia.
Qed.

(** The cache file is neither the cache directory nor a directory above it. *)
Lemma cache_file_not_above d db table :
  cache_file d db table ∉ dirs_above d ++ [d].
Proof.
  pose proof (cache_file_longer d db table) as Hlen.
  rewrite elem_of_app, list_elem_of_singleton. intros [Ha%dirs_above_shorter|Ha].
  - lia.
  - rewrite Ha in Hlen at 1. lia.
Qed.

(** ** [os.Stat] and [os.MkdirAll] *)

Lemma os_Stat_node m p n : nodes m !! p = Some n → os_Stat p m = Found n.
Proof. intros Hn. unfold os_Stat. by rewrite Hn. Qed.

Lemma os_Stat_absent m p : os_Stat p m = NotExist → nodes m !! p = None.
Proof. unfold os_Stat. by destruct (nodes m !! p). Qed.

Lemma os_Stat_nodes m m' p : nodes m' = nodes m → os_Stat p m' = os_Stat p m.
Proof. intros Hn. unfold os_Stat. by rewrite Hn. Qed.

(** A path [os.Stat] cannot get to for a reason of its own stays so for
    whatever lies beneath. *)
Lemma descend_app t l1 l2 :
  descend t (l1 ++ l2) = match descend t l1 with Some r => Some r | None => descend t l2 end.
Proof.
  induction l1 as [|a l1 IH]; cbn; [done|].
  destruct (t !! a) as [[| | |dat]|]; auto.
Qed.

Lemma descend_clear t l :
  Forall (λ a, t !! a = None ∨ t !! a = Some Dir) l →
  descend t l = None ∨ descend t l = Some NotExist.
Proof.
  induction 1 as [|a l [Ha|Ha] _ IH]; cbn; [by left|rewrite Ha..]; auto.
Qed.

Lemma descend_dirs t l :
  Forall (λ a, t !! a = Some Dir) l → descend t l = None.
Proof. induction 1 as [|a l Ha _ IH]; cbn; [done|]. by rewrite Ha. Qed.

(** [mkdirs] keeps what is there, adds only directories, and only along
    the chain. *)
Lemma mkdirs_keeps chain closed s t p n :
  t !! p = Some n → (mkdirs chain closed s t).1 !! p = Some n.
Proof.
  revert closed t. induction chain as [|a chain IH]; intros closed t Hp; cbn; [done|].
  destruct (t !! a) as [[| | |dat]|] eqn:Ha; cbn; auto.
  destruct (closed || bool_decide (a ∈ s)); cbn; [done|].
  apply IH. rewrite lookup_insert_ne; [done|]. intros ->. congruence.
Qed.

Lemma mkdirs_adds chain closed s t p n :
  (mkdirs chain closed s t).1 !! p = Some n →
  t !! p = Some n ∨ (t !! p = None ∧ n = Dir ∧ p ∈ chain).
Proof.
  revert closed t. induction chain as [|a chain IH]; intros closed t; cbn; [auto|].
  destruct (t !! a) as [[| | |dat]|] eqn:Ha; cbn; auto.
  - intros [?|(? & ? & ?)]%IH; [auto|]. right. split_and!; [done..|by right].
  - intros [?|(? & ? & ?)]%IH; [auto|]. right. split_and!; [done..|by right].
  - destruct (closed || bool_decide (a ∈ s)); cbn; [auto|].
    intros [Hp|(Hp & ? & ?)]%IH.
    + destruct (decide (a = p)) as [->|Hne].
      * rewrite lookup_insert_eq in Hp. injection Hp as <-.
        right. split_and!; [done..|by left].
      * rewrite lookup_insert_ne in Hp by done. auto.
    + destruct (decide (a = p)) as [->|Hne]; [by rewrite lookup_insert_eq in Hp|].
      rewrite lookup_insert_ne in Hp by done.
      right. split_and!; [done..|by right].
Qed.

(** Where [mkdirs] succeeds, the chain is directories all the way. *)
Lemma mkdirs_made chain closed s t a :
  (mkdirs chain closed s t).2 = false → a ∈ chain →
  (mkdirs chain closed s t).1 !! a = Some Dir ∨ t !! a = Some Closed.
Proof.
  revert closed t. induction chain as [|b chain IH]; intros closed t; cbn;
    [by intros _ ?%elem_of_nil|].
  intros Hok Ha. apply elem_of_cons in Ha.
  destruct (t !! b) as [[| | |dat]|] eqn:Hb; cbn in *; try done.
  - destruct Ha as [->|Ha]; [|by apply IH].
    left. by apply mkdirs_keeps.
  - destruct Ha as [->|Ha]; [by right|by apply IH].
  - destruct (closed || bool_decide (b ∈ s)); cbn in *; [done|].
    destruct Ha as [->|Ha].
    + left. apply mkdirs_keeps. by rewrite lookup_insert_eq.
    + destruct (IH false _ Hok Ha) as [?|Hc]; [by left|].
      destruct (decide (b = a)) as [->|Hne]; [by rewrite lookup_insert_eq in Hc|].
      rewrite lookup_insert_ne in Hc by done. by right.
Qed.

Lemma descend_insert t l p x : p ∉ l → descend (<[p := x]> t) l = descend t l.
Proof.
  induction l as [|a l IH]; cbn; [done|]. intros [Hne Hl]%not_elem_of_cons.
  rewrite lookup_insert_ne by done. rewrite (IH Hl). done.
Qed.

(** What is written at a path changes nothing to what [os.Stat] reports
    at another path that does not lie beneath it. *)
Lemma os_Stat_insert_other m m' p q x :
  nodes m' = <[p := x]> (nodes m) → p ∉ dirs_above q ++ [q] →
  os_Stat q m' = os_Stat q m.
Proof.
  intros Hn [Hab Hq%not_elem_of_cons]%not_elem_of_app. destruct Hq as [Hq _].
  unfold os_Stat. rewrite Hn, lookup_insert_ne by done.
  by rewrite descend_insert.
Qed.

Lemma os_MkdirAll_outcome d m :
  (os_MkdirAll d m).2 = Ok (mkdirs (dirs_above d ++ [d]) false (sealed m) (nodes m)).2.
Proof. unfold os_MkdirAll. by destruct (mkdirs _ _ _ _). Qed.

Section Store.
Context `{Runtime}.

Lemma settled_nodes m : nodes (settled m) = nodes m.
Proof. unfold settled. by destruct (String.eqb _ _). Qed.

Lemma settled_sealed m : sealed (settled m) = sealed m.
Proof. unfold settled. by destruct (String.eqb _ _). Qed.

Lemma settled_wire m : wire (settled m) = wire m.
Proof. unfold settled. by destruct (String.eqb _ _). Qed.

Lemma settled_dir m : PayloadStructCacheDir (omni (settled m)) = effective_dir (omni m).
Proof. unfold settled, effective_dir. by destruct (String.eqb _ _). Qed.

(** What [createCacheDir] does, case by case. *)
Lemma createCacheDir_spec m :
  createCacheDir m =
    let d := effective_dir (omni m) in
    match os_Stat d m with
    | NotExist =>
        let '(t, failed) := mkdirs (dirs_above d ++ [d]) false (sealed m) (nodes m) in
        (set_nodes t (settled m),
         if failed : bool
         then Err (errors_New "Couldn't create payload structure cache directory")
         else Ok tt)
    | _ => (settled m, Ok tt)
    end.
Proof.
  unfold createCacheDir, os_Stat_IsNotExist, os_MkdirAll, settled, effective_dir. run.
  destruct (String.eqb (PayloadStructCacheDir (omni m)) "") eqn:Hd; cbn.
  - change (os_Stat default_cache_dir (set_omni _ m)) with (os_Stat default_cache_dir m).
    destruct (os_Stat default_cache_dir m); cbn; [done| |done].
    by destruct (mkdirs _ _ _ _) as [t []].
  - destruct (os_Stat (PayloadStructCacheDir (omni m)) m); cbn; [done| |done].
    by destruct (mkdirs _ _ _ _) as [t []].
Qed.

(** A cache directory that [os.Stat] does not report as missing is left
    as it is. *)
Lemma createCacheDir_found m :
  ¬ absent m (effective_dir (omni m)) →
  createCacheDir m = (settled m, Ok tt).
Proof.
  unfold absent. intros Hd. rewrite createCacheDir_spec. cbn zeta.
  by destruct (os_Stat _ m).
Qed.

Lemma present_not_absent m p : is_Some (nodes m !! p) → ¬ absent m p.
Proof. intros [n Hn]. unfold absent. by rewrite (os_Stat_node m p n Hn). Qed.

Lemma createCacheDir_exists m :
  is_Some (nodes m !! effective_dir (omni m)) →
  createCacheDir m = (settled m, Ok tt).
Proof. intros Hn. by apply createCacheDir_found, present_not_absent. Qed.

(** [createCacheDir] adds directories, and only on the way to the cache
    directory. *)
Lemma createCacheDir_adds m p n :
  nodes (createCacheDir m).1 !! p = Some n →
  nodes m !! p = Some n ∨
  (nodes m !! p = None ∧ n = Dir ∧
   p ∈ dirs_above (effective_dir (omni m)) ++ [effective_dir (omni m)]).
Proof.
  rewrite createCacheDir_spec. cbn zeta.
  destruct (os_Stat (effective_dir (omni m)) m); cbn; rewrite ?settled_nodes; auto.
  pose proof (mkdirs_adds (dirs_above (effective_dir (omni m)) ++ [effective_dir (omni m)])
                false (sealed m) (nodes m) p n) as Ha.
  by destruct (mkdirs _ _ _ _) as [t failed].
Qed.

Lemma absent_settled m p : absent (settled m) p ↔ absent m p.
Proof. unfold absent. by rewrite (os_Stat_nodes m (settled m) p (settled_nodes m)). Qed.

End Store.

Section Lookup.
Context `{Runtime}.

(** With an entry in the Schema Store, [getPayloadStructure] only settles
    the cache directory's name: nothing is sent, nothing is written. *)
Lemma getPayloadStructure_entry m req db table :
  has_entry m req db table →
  getPayloadStructure req m = (settled m, Ok tt).
Proof.
  intros (Hsplit & Hdir & Hfile).
  unfold getPayloadStructure. run.
  rewrite (createCacheDir_found m Hdir), Hsplit. cbn.
  unfold os_Stat_IsNotExist. run. cbn.
  rewrite settled_dir.
  apply (not_iff_compat (absent_settled m _)) in Hfile. unfold absent in Hfile.
  by destruct (os_Stat _ (settled m)).
Qed.

(** With a cached schema, [generatePayload] is the loop over the columns on
    fresh slices. *)
Lemma generatePayload_cached m req types order :
  schema_cached m req types →
  generatePayload order (m, req) =
    let '(b, r) := rangeColumns types order 0 (initial_bufs req) in
    ((settled m, set_Payload (payload_of b) req), r).
Proof.
  intros (db & table & dat & Hs & Hd & Hf & Ht).
  unfold generatePayload, on_machine, on_payload. run. cbn.
  rewrite (getPayloadStructure_entry m req db table);
    [|split_and!; [done|by apply present_not_absent..]].
  rewrite Hs. cbn. unfold ioutil_ReadFile. run. cbn.
  rewrite settled_dir, settled_nodes, Hf. cbn. rewrite Ht. done.
Qed.

(** A table path that does not split in two stops [getPayloadStructure]
    right after the cache directory. *)
Lemma getPayloadStructure_bad_path m req :
  length (strings_Split (DBPath req) "/") ≠ 2%nat →
  getPayloadStructure req m =
    match createCacheDir m with
    | (m', Ok _) => (m', Err (errors_New "DBPath is not a path: Format db/table"))
    | r => r
    end.
Proof.
  intros Hlen. unfold getPayloadStructure. run.
  destruct (createCacheDir m) as [m' [[]|e|]]; [|done..].
  apply Nat.eqb_neq in Hlen. by rewrite Hlen.
Qed.

End Lookup.

Section Loop.
Context `{Runtime}.
Implicit Types (types : gmap string value) (b : bufs) (k : string) (v : value).

Lemma set_index_lt {A} (l : list A) i x :
  (i < length l)%nat → set_index l i x = Ok (<[i := x]> l).
Proof. intros Hi. unfold set_index. by destruct (decide (i < length l)%nat). Qed.

Lemma set_coldesc_ready i m b :
  (i < length (b_coldesc b))%nat →
  set_coldesc i m b = ({| b_coldesc := <[i := m]> (b_coldesc b); b_rows := b_rows b |}, Ok tt).
Proof. intros Hi. unfold set_coldesc. run. cbn. by rewrite set_index_lt. Qed.

Lemma put_coldesc_ready i key x m b :
  b_coldesc b !! i = Some m →
  put_coldesc i key x b =
    ({| b_coldesc := <[i := <[key := x]> m]> (b_coldesc b); b_rows := b_rows b |}, Ok tt).
Proof.
  intros Hm. unfold put_coldesc, at_index. run. cbn. rewrite Hm.
  apply set_coldesc_ready. by eapply lookup_lt_Some.
Qed.

Lemma describe_ready types i k b :
  ready i b →
  (set_coldesc i ∅ ;; put_coldesc i "type" (index types k) ;;
   put_coldesc i "name" (VString k)) b = (described types i k b, Ok tt).
Proof.
  intros [Hi _]. unfold mbind, prog_bind.
  rewrite set_coldesc_ready by done.
  erewrite put_coldesc_ready by (cbn; by apply list_lookup_insert_eq).
  erewrite put_coldesc_ready
    by (cbn; apply list_lookup_insert_eq; by rewrite length_insert).
  cbn. unfold described, descriptor. by rewrite !list_insert_insert_eq.
Qed.

Lemma put_rows_ready i k x b :
  ready i b →
  put_rows 0 k x b =
    ({| b_coldesc := b_coldesc b; b_rows := alter (<[k := x]>) 0%nat (b_rows b) |}, Ok tt).
Proof.
  intros [_ [row Hrow]]. unfold put_rows, set_index, at_index. run. cbn.
  rewrite Hrow. cbn. done.
Qed.

Lemma described_ready types i j k b : ready i b → ready i (described types j k b).
Proof. intros [Hi Hr]. split; [|done]. cbn. by rewrite length_insert. Qed.

(** The loop body on a column the schema knows. *)
Lemma columnStep_spec types i k v b :
  ready i b →
  is_nil (index types k) = false →
  columnStep types i k v b =
    match columnValue types k v with
    | Ok x => (stored types i k x b, Ok tt)
    | Err e => (described types i k b, Err e)
    | Panic => (described types i k b, Panic)
    end.
Proof.
  intros Hready Hnn. unfold columnStep. rewrite Hnn.
  pose proof (describe_ready types i k b Hready) as Hd.
  pose proof (described_ready types i i k b Hready) as Hready'.
  unfold mbind, prog_bind in Hd |- *. 
  destruct ((set_coldesc i ∅) b) as [b1 [[]| |]]; try done.
  destruct (put_coldesc i "type" (index types k) b1) as [b2 [[]| |]]; try done.
  rewrite Hd. unfold columnValue, numeric.
  destruct (eq_string (index types k) "integer" || eq_string (index types k) "utc");
    [|by rewrite (put_rows_ready i) by done].
  destruct (reflect_TypeOf v) as [ty|]; [|done].
  destruct (String.eqb ty "string").
  { destruct v; try done. cbn. 
    destruct (strconv_Atoi s); [by rewrite (put_rows_ready i) by done|].
    by destruct (index types k). }
  destruct (String.eqb ty "int64").
  { destruct v; try done. cbn. by rewrite (put_rows_ready i) by done. }
  destruct (String.eqb ty "float64").
  { destruct v; try done. cbn. by rewrite (put_rows_ready i) by done. }
  destruct (String.eqb ty "int"); [by rewrite (put_rows_ready i) by done|done].
Qed.

Lemma columnStep_absent types i k v b :
  is_nil (index types k) = true →
  columnStep types i k v b = (b, Err (errors_New ("Column not found: " +:+ k))).
Proof. intros Hn. unfold columnStep. by rewrite Hn. Qed.

Lemma rangeColumns_app types pre post i b :
  rangeColumns types (pre ++ post) i b =
    match rangeColumns types pre i b with
    | (b1, Ok _) => rangeColumns types post (i + length pre) b1
    | r => r
    end.
Proof.
  revert i b. induction pre as [|[k v] pre IH]; intros i b; cbn.
  - by rewrite Nat.add_0_r.
  - unfold mbind, prog_bind.
    destruct (columnStep types i k v b) as [b1 [[]|e|]]; [|done..].
    rewrite IH. by rewrite Nat.add_succ_r.
Qed.

(** One accepted round of the loop. *)
Lemma columnStep_Ok_inv types i k v b b' :
  ready i b →
  columnStep types i k v b = (b', Ok tt) →
  is_nil (index types k) = false ∧
  ∃ x, columnValue types k v = Ok x ∧ b' = stored types i k x b.
Proof.
  intros Hready Hstep.
  destruct (is_nil (index types k)) eqn:Hn.
  { by rewrite columnStep_absent in Hstep. }
  split; [done|]. rewrite columnStep_spec in Hstep by done.
  destruct (columnValue types k v) as [x|e|]; [|done..].
  exists x. split; [done|]. by inversion Hstep.
Qed.

(** What a run of the loop that ends without an error leaves behind. *)
Lemma rangeColumns_Ok types order i b b' :
  (i + length order ≤ length (b_coldesc b))%nat →
  (∃ row, b_rows b = [row]) →
  rangeColumns types order i b = (b', Ok tt) →
  length (b_coldesc b') = length (b_coldesc b) ∧
  (∃ row', b_rows b' = [row']) ∧
  (∀ j, (j < i)%nat → b_coldesc b' !! j = b_coldesc b !! j) ∧
  (∀ j k v, order !! j = Some (k, v) →
            b_coldesc b' !! (i + j)%nat = Some (descriptor types k)) ∧
  (∀ k, k ∉ order.*1 → the_row b' !! k = the_row b !! k) ∧
  (∀ k v, (k, v) ∈ order → is_nil (index types k) = false) ∧
  (NoDup order.*1 → ∀ k v, (k, v) ∈ order →
     ∃ x, columnValue types k v = Ok x ∧ the_row b' !! k = Some x).
Proof.
  revert i b. induction order as [|[k v] rest IH]; intros i b Hlen Hrows Hrun.
  { cbn in Hrun. inversion Hrun; subst b'.
    repeat split; try done; intros;
      repeat match goal with
             | Hin : _ ∈ [] |- _ => by apply elem_of_nil in Hin
             | Hj : [] !! _ = Some _ |- _ => by rewrite lookup_nil in Hj
             end. }
  cbn in Hrun, Hlen. unfold mbind, prog_bind in Hrun.
  assert (Hready : ready i b) by (split; [lia|done]).
  destruct (columnStep types i k v b) as [b1 [[]|e|]] eqn:Hstep; [|done..].
  destruct (columnStep_Ok_inv _ _ _ _ _ _ Hready Hstep) as (Hnn & x & Hx & ->).
  destruct Hrows as [row Hrow].
  destruct (IH (S i) (stored types i k x b)) as (L & R & Before & Desc & Frame & Known & Vals);
    [cbn; rewrite length_insert; lia | cbn; rewrite Hrow; by eexists | done |].
  cbn in L. rewrite length_insert in L.
  assert (Hrow1 : the_row (stored types i k x b) = <[k := x]> (the_row b)).
  { unfold the_row. cbn. by rewrite Hrow. }
  repeat split.
  - done.
  - done.
  - intros j Hj. rewrite Before by lia. cbn. apply list_lookup_insert_ne. lia.
  - intros [|j] k' v' Hj; cbn in Hj.
    + inversion Hj; subst k' v'. rewrite Nat.add_0_r, Before by lia. cbn.
      apply list_lookup_insert_eq. lia.
    + rewrite Nat.add_succ_r. by apply (Desc j k' v').
  - intros k' Hk'. cbn in Hk'. apply not_elem_of_cons in Hk' as [Hne Hk'].
    rewrite Frame, Hrow1 by done. by apply lookup_insert_ne.
  - intros k' v' Hin. apply elem_of_cons in Hin as [Heq|Hin].
    + by inversion Heq; subst.
    + by eapply Known.
  - intros Hnd k' v' Hin. cbn in Hnd. apply NoDup_cons in Hnd as [Hk Hnd].
    apply elem_of_cons in Hin as [Heq|Hin].
    + inversion Heq; subst k' v'. exists x. split; [done|].
      rewrite Frame, Hrow1 by done. apply lookup_insert_eq.
    + by apply Vals.
Qed.

End Loop.

Section Synthesis.
Context `{Runtime}.
Implicit Types (types : gmap string value) (b : bufs) (k : string) (v : value).

Lemma range_order_length (cd : gmap string value) order :
  range_order cd order → length order = size cd.
Proof.
  intros Hp. unfold range_order in Hp. rewrite Hp. apply length_map_to_list.
Qed.

Lemma range_order_NoDup (cd : gmap string value) order :
  range_order cd order → NoDup order.*1.
Proof.
  intros Hp. unfold range_order in Hp. rewrite Hp. apply NoDup_fst_map_to_list.
Qed.

Lemma range_order_elem (cd : gmap string value) order k v :
  range_order cd order → (k, v) ∈ order ↔ cd !! k = Some v.
Proof.
  intros Hp. unfold range_order in Hp. rewrite Hp. apply elem_of_map_to_list.
Qed.

Lemma range_order_keys (cd : gmap string value) order k :
  range_order cd order → k ∈ order.*1 ↔ is_Some (cd !! k).
Proof.
  intros Hp. rewrite list_elem_of_fmap. split.
  - intros [[k' v] [-> Hin]]. exists v. by apply (range_order_elem cd order).
  - intros [v Hv]. exists (k, v). split; [done|]. by apply (range_order_elem cd order).
Qed.

Lemma initial_ready req order :
  range_order (ColumnData req) order →
  (0 + length order ≤ length (b_coldesc (initial_bufs req)))%nat ∧
  ∃ row, b_rows (initial_bufs req) = [row].
Proof.
  intros Hp. cbn. rewrite length_replicate, (range_order_length _ _ Hp).
  split; [done|by eexists].
Qed.

(** When the loop gets to an entry, its slot and the row are there. *)
Lemma reaches_ready types req order k v i b post :
  range_order (ColumnData req) order →
  reaches types req order k v i b post →
  ready i b ∧ (S i + length post ≤ length (b_coldesc b))%nat.
Proof.
  intros Hp (pre & -> & -> & Hpre).
  pose proof (range_order_length _ _ Hp) as Hlen.
  rewrite length_app in Hlen. cbn in Hlen.
  destruct (rangeColumns_Ok types pre 0 (initial_bufs req) b) as (L & R & _);
    [cbn; rewrite length_replicate; lia | by eexists | done |].
  cbn in L. rewrite length_replicate in L.
  repeat split; [lia | done | lia].
Qed.

Lemma rangeColumns_reaches types req order k v i b post :
  reaches types req order k v i b post →
  rangeColumns types order 0 (initial_bufs req) =
    (columnStep types i k v ;; rangeColumns types post (S i)) b.
Proof.
  intros (pre & -> & -> & Hpre). rewrite rangeColumns_app, Hpre. done.
Qed.

(** A step that fails fails the synthesis, with the step's error. *)
Lemma generatePayload_stops m req order types k v i b post r :
  schema_cached m req types →
  reaches types req order k v i b post →
  (columnStep types i k v b).2 = r →
  r ≠ Ok tt →
  (generatePayload order (m, req)).2 = r.
Proof.
  intros Hc Hr Hstep Hne.
  rewrite (generatePayload_cached m req types order Hc).
  rewrite (rangeColumns_reaches _ _ _ _ _ _ _ _ Hr). unfold mbind, prog_bind.
  destruct (columnStep types i k v b) as [b1 [[]|e|]]; cbn in *; by subst.
Qed.

(** What a finished synthesis leaves in the request. *)
Lemma generatePayload_Ok_inv m req order types st :
  schema_cached m req types →
  generatePayload order (m, req) = (st, Ok tt) →
  ∃ b, rangeColumns types order 0 (initial_bufs req) = (b, Ok tt) ∧
       st = (settled m, set_Payload (payload_of b) req).
Proof.
  intros Hc. rewrite (generatePayload_cached m req types order Hc).
  destruct (rangeColumns types order 0 (initial_bufs req)) as [b r].
  intros [= <- ->]. by exists b.
Qed.

Lemma payload_rows_of b : payload_rows (payload_of b) = b_rows b.
Proof. done. Qed.

Lemma payload_coldesc_of b : payload_coldesc (payload_of b) = b_coldesc b.
Proof. done. Qed.

End Synthesis.

(** ** Payload synthesis, column by column *)

Section Columns.
Context `{Runtime}.
Implicit Types (types : gmap string value) (b : bufs) (k : string) (v : value).





(** C5, as the code has it.  With a cached schema for the table, a column
    of the request that the schema does not have makes [generatePayload]
    fail: the synthesis never succeeds, and when the loop gets to that
    column it returns the error [Column not found: ] followed by the
    column's name.  A synthesis that succeeds has found every column of
    the request in the schema. *)
Theorem unknown_column_rejected m req order types :
  schema_cached m req types →
  range_order (ColumnData req) order →
  (∀ k, is_Some (ColumnData req !! k) → types !! k = None →
     ∀ st, generatePayload order (m, req) ≠ (st, Ok tt)) ∧
  (∀ k v i b post, reaches types req order k v i b post → types !! k = None →
     columnStep types i k v b = (b, Err (errors_New ("Column not found: " +:+ k))) ∧
     (generatePayload order (m, req)).2 = Err (errors_New ("Column not found: " +:+ k))) ∧
  (∀ st, generatePayload order (m, req) = (st, Ok tt) →
     ∀ k, is_Some (ColumnData req !! k) → is_Some (types !! k)).
Proof.
  intros Hc Hp.
  assert (Hall : ∀ st, generatePayload order (m, req) = (st, Ok tt) →
                 ∀ k, is_Some (ColumnData req !! k) → is_Some (types !! k)).
  { intros st Hgen k Hk.
    destruct (generatePayload_Ok_inv _ _ _ _ _ Hc Hgen) as (b' & Hrun & _).
    destruct (initial_ready req order Hp) as [Hlen0 Hrow0].
    destruct (rangeColumns_Ok _ _ _ _ _ Hlen0 Hrow0 Hrun)
      as (_ & _ & _ & _ & _ & Known & _).
    destruct Hk as [v Hv]. apply (range_order_elem _ _ _ _ Hp) in Hv.
    specialize (Known k v Hv). unfold index in Known.
    destruct (types !! k) as [x|]; [by exists x|done]. }
  split; [|split; [|done]].
  - intros k Hk Hnone st Hgen. destruct (Hall st Hgen k Hk) as [x Hx]. congruence.
  - intros k v i b post Hr Hnone.
    assert (Hnil : is_nil (index types k) = true) by (unfold index; by rewrite Hnone).
    split; [by apply columnStep_absent|].
    eapply generatePayload_stops; [done..| |done].
    by rewrite columnStep_absent.
Qed.


End Columns.

(** ** The Schema Store and the catalog *)

Section Catalog.
Context `{Runtime}.

Lemma keeps_trans m1 m2 m3 : keeps m1 m2 → keeps m2 m3 → keeps m1 m3.
Proof. intros H12 H23 p n Hp. by apply H23, H12. Qed.

Lemma keeps_same_nodes m m' : nodes m' = nodes m → keeps m m'.
Proof. intros Hn p n. by rewrite Hn. Qed.

Lemma keeps_fresh m m' p x :
  nodes m !! p = None → nodes m' = <[p := x]> (nodes m) → keeps m m'.
Proof.
  intros Hnone Hn q n Hq. rewrite Hn, lookup_insert_ne; [done|]. intros ->. congruence.
Qed.

Lemma createCacheDir_frame m :
  keeps m (createCacheDir m).1 ∧
  wire (createCacheDir m).1 = wire m ∧
  sealed (createCacheDir m).1 = sealed m ∧
  omni (createCacheDir m).1 = omni (settled m) ∧
  ((createCacheDir m).2 = Ok tt →
   ¬ absent (createCacheDir m).1 (effective_dir (omni m))).
Proof.
  rewrite createCacheDir_spec. cbn zeta.
  destruct (os_Stat (effective_dir (omni m)) m) as [n| |] eqn:E.
  - cbn. rewrite settled_wire, settled_sealed.
    split_and!; [apply keeps_same_nodes, settled_nodes|done..|].
    intros _. rewrite absent_settled. unfold absent. by rewrite E.
  - pose proof (mkdirs_keeps (dirs_above (effective_dir (omni m)) ++ [effective_dir (omni m)])
                  false (sealed m) (nodes m)) as Hk.
    pose proof (mkdirs_made (dirs_above (effective_dir (omni m)) ++ [effective_dir (omni m)])
                  false (sealed m) (nodes m) (effective_dir (omni m))) as Hm.
    destruct (mkdirs _ _ _ _) as [t failed]. cbn in *.
    rewrite settled_wire, settled_sealed. split_and!; [exact Hk|done..|].
    destruct failed; [done|]. intros _. apply present_not_absent. cbn.
    destruct Hm as [Hd|Hd]; [done|apply elem_of_app; right; by left|by eexists|].
    apply os_Stat_absent in E. congruence.
  - cbn. rewrite settled_wire, settled_sealed.
    split_and!; [apply keeps_same_nodes, settled_nodes|done..|].
    intros _. rewrite absent_settled. unfold absent. by rewrite E.
Qed.

(** What the fetch may do to the machine: send the one catalog request,
    and create or replace the table's cache file. *)
Lemma fetchStructure_frame o db table m :
  let m' := (fetchStructure o db table m).1 in
  let file := cache_file (PayloadStructCacheDir o) db table in
  omni m' = omni m ∧ sealed m' = sealed m ∧
  (wire m' = wire m ∨ wire m' = wire m ++ [catalog_request o db table]) ∧
  (nodes m' = nodes m ∨ ∃ dat, nodes m' = <[file := File dat]> (nodes m)).
Proof.
  cbn zeta. unfold fetchStructure, http_NewRequest, http_Do, ioutil_WriteFile. run.
  destruct (url_Parse_ok (catalog_url o db table)); cbn; [|by auto].
  destruct (client_Do _ _ _) as [body|err]; cbn; [|by auto].
  destruct (generateRetval _) as [res|e|]; cbn; [|by auto..].
  destruct (catalogRows _ res) as [types|e|]; cbn; [|by auto..].
  destruct (bool_decide _); cbn; [by auto|].
  destruct (nodes m !! _) as [[]|]; cbn; eauto 10.
Qed.

(** [getPayloadStructure], unfolded after the cache directory. *)
Lemma getPayloadStructure_split m req db table :
  strings_Split (DBPath req) "/" = [db; table] →
  getPayloadStructure req m =
    match createCacheDir m with
    | (m1, Ok _) =>
        let file := cache_file (PayloadStructCacheDir (omni m1)) db table in
        match os_Stat file m1 with
        | NotExist => fetchStructure (omni m1) db table m1
        | _ => (m1, Ok tt)
        end
    | r => r
    end.
Proof.
  intros Hsplit. unfold getPayloadStructure, os_Stat_IsNotExist. run.
  destruct (createCacheDir m) as [m1 [[]|e|]]; [|done..].
  rewrite Hsplit. cbn. by destruct (os_Stat _ m1).
Qed.

Lemma split_two_cases (s : string) :
  (∃ db table, strings_Split s "/" = [db; table]) ∨
  length (strings_Split s "/") ≠ 2%nat.
Proof.
  destruct (strings_Split s "/") as [|db [|table [|x l]]]; cbn; eauto.
Qed.

(** Schema resolution never touches what is on disk already, and sends at
    most the catalog request, and that only when the table has no cache
    file. *)
Lemma getPayloadStructure_frame m req :
  let m' := (getPayloadStructure req m).1 in
  keeps m m' ∧
  (wire m' = wire m ∨
   ∃ db table,
     strings_Split (DBPath req) "/" = [db; table] ∧
     nodes m !! cache_file (effective_dir (omni m)) db table = None ∧
     wire m' = wire m ++ [catalog_request (omni (settled m)) db table]).
Proof.
  cbn zeta.
  destruct (createCacheDir_frame m) as (Hk & Hw & Hs & Ho & Hdir).
  destruct (split_two_cases (DBPath req)) as [(db & table & Hsplit)|Hbad].
  - rewrite (getPayloadStructure_split m req db table Hsplit).
    destruct (createCacheDir m) as [m1 [[]|e|]]; cbn in *; [|by auto..].
    cbn zeta. destruct (os_Stat _ m1) eqn:Hfile; cbn; [by auto| |by auto].
    apply os_Stat_absent in Hfile.
    destruct (fetchStructure_frame (omni m1) db table m1) as (_ & _ & Hwire & Hnodes).
    cbn zeta in Hwire, Hnodes. split.
    + eapply keeps_trans; [exact Hk|].
      destruct Hnodes as [Hn|[dat Hn]]; [by apply keeps_same_nodes|].
      by eapply keeps_fresh.
    + destruct Hwire as [Hw'|Hw']; [left; congruence|].
      right. exists db, table. split; [done|]. split.
      * rewrite Ho, settled_dir in Hfile.
        destruct (nodes m !! _) as [n|] eqn:E; [|done].
        apply Hk in E. congruence.
      * rewrite Hw', Hw, Ho. done.
  - rewrite (getPayloadStructure_bad_path m req Hbad).
    destruct (createCacheDir m) as [m1 [[]|e|]]; cbn in *; auto.
Qed.

(** All that [generatePayload] does to the machine is what
    [getPayloadStructure] does to it. *)
Lemma generatePayload_machine m req order :
  (generatePayload order (m, req)).1.1 = (getPayloadStructure req m).1.
Proof.
  unfold generatePayload, on_machine, on_payload, ioutil_ReadFile. run. cbn.
  destruct (getPayloadStructure req m) as [m1 [[]|e|]]; cbn; [|done..].
  destruct (at_index _ 0) as [db|e|]; cbn; [|done..].
  destruct (at_index _ 1) as [table|e|]; cbn; [|done..].
  by destruct (rangeColumns _ _ _ _).
Qed.

(** Sending a request writes nothing to disk. *)
Lemma sendOMNIbus_nodes req m : nodes (sendOMNIbus req m).1 = nodes m.
Proof.
  unfold sendOMNIbus, unwrap, http_NewRequest, http_Do. run. cbn.
  repeat match goal with
         | |- context [String.eqb ?a ?b] => destruct (String.eqb a b); cbn
         | |- context [url_Parse_ok ?u] => destruct (url_Parse_ok u); cbn
         | |- context [client_Do ?a ?b ?c] => destruct (client_Do a b c); cbn
         | |- context [generateRetval ?r] => destruct (generateRetval r); cbn
         end; done.
Qed.

(** Sending a request puts at most one request on the wire, with the
    request's own method. *)
Lemma sendOMNIbus_wire req m :
  wire (sendOMNIbus req m).1 = wire m ∨
  ∃ r, wire (sendOMNIbus req m).1 = wire m ++ [r] ∧ rq_method r = Method req.
Proof.
  unfold sendOMNIbus, unwrap, http_NewRequest, http_Do. run. cbn.
  destruct (String.eqb (Method req) "GET") eqn:E1;
    [apply String.eqb_eq in E1|
     destruct (String.eqb (Method req) "DELETE") eqn:E2;
       [apply String.eqb_eq in E2|
        destruct (String.eqb (Method req) "PATCH") eqn:E3;
          [apply String.eqb_eq in E3|
           destruct (String.eqb (Method req) "POST") eqn:E4;
             [apply String.eqb_eq in E4|by left]]]];
    cbn;
    (destruct (url_Parse_ok _); cbn; [|by left]);
    repeat match goal with
           | |- context [client_Do ?a ?b ?c] => destruct (client_Do a b c); cbn
           | |- context [generateRetval ?r] => destruct (generateRetval r); cbn
           end;
    right; eexists; (split; [reflexivity|done]).
Qed.

Lemma SendRequest_keeps m req order : keeps m (SendRequest order req m).1.
Proof.
  unfold SendRequest.
  destruct (String.eqb (Method req) "POST" || String.eqb (Method req) "PATCH").
  - pose proof (generatePayload_machine m req order) as Hm.
    destruct (getPayloadStructure_frame m req) as [Hk _]. cbn zeta in Hk.
    rewrite <- Hm in Hk.
    destruct (generatePayload order (m, req)) as [[m1 req1] [[]|e|]]; cbn in *; [|done..].
    eapply keeps_trans; [exact Hk|]. apply keeps_same_nodes, sendOMNIbus_nodes.
  - apply keeps_same_nodes, sendOMNIbus_nodes.
Qed.

End Catalog.

(** ** Schema resolution *)

Section Resolution.
Context `{Runtime}.

Lemma generatePayload_bad_path m req order :
  length (strings_Split (DBPath req) "/") ≠ 2%nat →
  generatePayload order (m, req) =
    match createCacheDir m with
    | (m', Ok _) => ((m', req), Err (errors_New "DBPath is not a path: Format db/table"))
    | (m', Err e) => ((m', req), Err e)
    | (m', Panic) => ((m', req), Panic)
    end.
Proof.
  intros Hbad. unfold generatePayload, on_machine. run. cbn.
  rewrite (getPayloadStructure_bad_path m req Hbad).
  by destruct (createCacheDir m) as [m' [[]|e|]].
Qed.

Lemma createCacheDir_available m :
  cache_dir_available m → (createCacheDir m).2 = Ok tt.
Proof.
  unfold cache_dir_available, absent. cbn zeta.
  rewrite createCacheDir_spec, os_MkdirAll_outcome. cbn zeta.
  destruct (os_Stat (effective_dir (omni m)) m); [done| |done].
  intros Hmade. specialize (Hmade eq_refl).
  destruct (mkdirs _ _ _ _) as [t failed]. cbn in *. by injection Hmade as ->.
Qed.

Lemma createCacheDir_unavailable m :
  ¬ cache_dir_available m →
  (createCacheDir m).2 = Err (errors_New "Couldn't create payload structure cache directory").
Proof.
  unfold cache_dir_available, absent. cbn zeta.
  rewrite createCacheDir_spec, os_MkdirAll_outcome. cbn zeta.
  destruct (os_Stat (effective_dir (omni m)) m); [by intros []| |by intros []].
  destruct (mkdirs _ _ _ _) as [t [|]]; cbn; [done|]. by intros [].
Qed.

(** With an entry for the table, [generatePayload] is the loop over the
    columns, on the mapping the entry yields with all errors dropped. *)
Lemma generatePayload_entry m req db table order :
  has_entry m req db table →
  generatePayload order (m, req) =
    let types := entry_types m (cache_file (effective_dir (omni m)) db table) in
    let '(b, r) := rangeColumns types order 0 (initial_bufs req) in
    ((settled m, set_Payload (payload_of b) req), r).
Proof.
  intros Hentry. pose proof Hentry as (Hsplit & Hdir & Hfile).
  unfold generatePayload, on_machine, on_payload. run. cbn.
  rewrite (getPayloadStructure_entry m req db table Hentry).
  rewrite Hsplit. cbn. unfold ioutil_ReadFile, entry_types. run. cbn.
  rewrite settled_dir, settled_nodes.
  destruct (nodes m !! cache_file (effective_dir (omni m)) db table) as [[| | |dat]|];
    cbn; by rewrite ?json_Unmarshal_nil.
Qed.

(** C7, as the code has it.  A table path that does not split on [/] into
    exactly two segments makes the payload synthesis of an insert or
    update fail, before anything is sent.  [getPayloadStructure] looks at
    the path after [createCacheDir], so the error depends on what
    [createCacheDir] returns.  It is the path-format error [DBPath is not a
    path: Format db/table] when [os.Stat] does not report the cache
    directory as missing (it found something there, or failed for another
    reason, as beneath a regular file) and when [os.MkdirAll] makes the
    directory.  It is the error of [createCacheDir] when [os.Stat] reports
    the directory as missing and [os.MkdirAll] fails.  [SendRequest] passes
    the error on. *)
Theorem bad_table_path_rejected m req order :
  length (strings_Split (DBPath req) "/") ≠ 2%nat →
  wire (generatePayload order (m, req)).1.1 = wire m ∧
  (cache_dir_available m →
     (generatePayload order (m, req)).2 =
       Err (errors_New "DBPath is not a path: Format db/table")) ∧
  (¬ cache_dir_available m →
     (generatePayload order (m, req)).2 =
       Err (errors_New "Couldn't create payload structure cache directory")) ∧
  (¬ absent m (effective_dir (omni m)) → cache_dir_available m) ∧
  (¬ cache_dir_available m →
     absent m (effective_dir (omni m)) ∧
     (os_MkdirAll (effective_dir (omni m)) m).2 = Ok true) ∧
  (Method req = "POST" ∨ Method req = "PATCH" →
     wire (SendRequest order req m).1 = wire m ∧
     (cache_dir_available m →
        (SendRequest order req m).2 =
          Err (errors_New "DBPath is not a path: Format db/table")) ∧
     (¬ cache_dir_available m →
        (SendRequest order req m).2 =
          Err (errors_New "Couldn't create payload structure cache directory"))).
Proof.
  intros Hbad.
  pose proof (generatePayload_bad_path m req order Hbad) as Hgen.
  destruct (createCacheDir_frame m) as (_ & Hw & _).
  pose proof (createCacheDir_available m) as Hav.
  pose proof (createCacheDir_unavailable m) as Hun.
  assert (Hsend : Method req = "POST" ∨ Method req = "PATCH" →
            SendRequest order req m =
              match createCacheDir m with
              | (m', Ok _) =>
                  (m', Err (errors_New "DBPath is not a path: Format db/table"))
              | (m', Err e) => (m', Err e)
              | (m', Panic) => (m', Panic)
              end).
  { intros Hmethod. unfold SendRequest.
    assert (String.eqb (Method req) "POST" || String.eqb (Method req) "PATCH" = true)
      as -> by (destruct Hmethod as [-> | ->]; done).
    rewrite Hgen. by destruct (createCacheDir m) as [m' [[]|e|]]. }
  assert (Hfound : ¬ absent m (effective_dir (omni m)) → cache_dir_available m).
  { intros Hpres Habs. by destruct Hpres. }
  assert (Hfailed : ¬ cache_dir_available m →
            absent m (effective_dir (omni m)) ∧
            (os_MkdirAll (effective_dir (omni m)) m).2 = Ok true).
  { intros Hna. unfold cache_dir_available, absent in *. cbn zeta in Hna.
    rewrite os_MkdirAll_outcome in Hna |- *.
    destruct (os_Stat (effective_dir (omni m)) m); [by destruct Hna| |by destruct Hna].
    split; [done|]. destruct (mkdirs _ _ _ _) as [t [|]]; [done|]. by destruct Hna. }
  rewrite Hgen.
  destruct (createCacheDir m) as [m' [[]|e|]]; cbn in *.
  - split; [exact Hw|]. split; [reflexivity|].
    split; [intros Hna; by specialize (Hun Hna)|]. split; [exact Hfound|].
    split; [exact Hfailed|].
    intros Hmethod. rewrite (Hsend Hmethod). cbn.
    split; [exact Hw|]. split; [reflexivity|]. intros Hna. by specialize (Hun Hna).
  - split; [exact Hw|]. split; [intros Ha; by specialize (Hav Ha)|].
    split; [intros Hna; exact (Hun Hna)|]. split; [exact Hfound|].
    split; [exact Hfailed|].
    intros Hmethod. rewrite (Hsend Hmethod). cbn.
    split; [exact Hw|]. split; [intros Ha; by specialize (Hav Ha)|].
    intros Hna. specialize (Hun Hna). by inversion Hun.
  - split; [exact Hw|]. split; [intros Ha; by specialize (Hav Ha)|].
    split; [intros Hna; by specialize (Hun Hna)|]. split; [exact Hfound|].
    split; [exact Hfailed|].
    intros Hmethod. rewrite (Hsend Hmethod). cbn.
    split; [exact Hw|]. split; [intros Ha; by specialize (Hav Ha)|].
    intros Hna. by specialize (Hun Hna).
Qed.

(** C9.  A cache entry, once it exists, stays: [SendRequest] leaves every
    file and directory on disk as it found it, whatever the request.  With
    an entry for the request's table, the schema resolution inside
    [generatePayload] sends nothing and writes nothing, and the whole
    operation sends at most its own request.  Schema resolution sends a
    request (the catalog query, and only that) only if the table had no
    cache file. *)
Theorem cache_entry_is_permanent m req order :
  keeps m (SendRequest order req m).1 ∧
  (∀ db table, has_entry m req db table →
     nodes (generatePayload order (m, req)).1.1 = nodes m ∧
     wire (generatePayload order (m, req)).1.1 = wire m ∧
     (wire (SendRequest order req m).1 = wire m ∨
      ∃ r, wire (SendRequest order req m).1 = wire m ++ [r] ∧
           rq_method r = Method req)) ∧
  (wire (generatePayload order (m, req)).1.1 ≠ wire m →
     ∃ db table,
       strings_Split (DBPath req) "/" = [db; table] ∧
       nodes m !! cache_file (effective_dir (omni m)) db table = None ∧
       wire (generatePayload order (m, req)).1.1 =
         wire m ++ [catalog_request (omni (settled m)) db table]).
Proof.
  split; [apply SendRequest_keeps|]. split.
  - intros db table Hentry.
    rewrite generatePayload_machine, (getPayloadStructure_entry m req db table Hentry).
    cbn. rewrite settled_nodes, settled_wire. split; [done|]. split; [done|].
    unfold SendRequest.
    destruct (String.eqb (Method req) "POST" || String.eqb (Method req) "PATCH").
    + rewrite (generatePayload_entry m req db table order Hentry). cbn zeta.
      destruct (rangeColumns _ order 0 (initial_bufs req)) as [b [[]|e|]];
        [|left; apply settled_wire..].
      pose proof (sendOMNIbus_wire (set_Payload (payload_of b) req) (settled m)) as Hw.
      by rewrite settled_wire in Hw.
    + apply sendOMNIbus_wire.
  - rewrite generatePayload_machine. intros Hsent.
    destruct (getPayloadStructure_frame m req) as [_ [Hsame|Hfetch]]; done.
Qed.

(** C2, as the code has it.  When the cache file of the table exists, also
    when reading or decoding it fails, the lookup neither fails nor
    fetches the schema again: [getPayloadStructure] returns nil with
    nothing sent and nothing written, [generatePayload] drops the read and
    decode errors and runs its loop on whatever mapping the decoder left
    (none at all when the file could not be read), so that a first column
    missing from that mapping ends the synthesis with [Column not found]. *)
Theorem failed_cache_read_is_not_refetched m req order db table :
  has_entry m req db table →
  getPayloadStructure req m = (settled m, Ok tt) ∧
  wire (settled m) = wire m ∧ nodes (settled m) = nodes m ∧
  generatePayload order (m, req) =
    (let types := entry_types m (cache_file (effective_dir (omni m)) db table) in
     let '(b, r) := rangeColumns types order 0 (initial_bufs req) in
     ((settled m, set_Payload (payload_of b) req), r)) ∧
  ((∀ dat, nodes m !! cache_file (effective_dir (omni m)) db table ≠ Some (File dat)) →
     entry_types m (cache_file (effective_dir (omni m)) db table) = ∅) ∧
  (∀ k v rest, order = (k, v) :: rest →
     entry_types m (cache_file (effective_dir (omni m)) db table) !! k = None →
     (generatePayload order (m, req)).2 = Err (errors_New ("Column not found: " +:+ k))).
Proof.
  intros Hentry.
  pose proof (generatePayload_entry m req db table order Hentry) as Hgen.
  split; [by apply (getPayloadStructure_entry m req db table)|].
  split; [apply settled_wire|]. split; [apply settled_nodes|].
  split; [done|]. split.
  - intros Hnot. unfold entry_types.
    destruct (nodes m !! _) as [[| | |dat]|]; try done. by destruct (Hnot dat).
  - intros k v rest -> Hnone. rewrite Hgen. cbn.
    unfold mbind, prog_bind. rewrite columnStep_absent; [done|].
    unfold index. by rewrite Hnone.
Qed.

End Resolution.

(** ** The catalog's type codes *)

Section TypeCodes.
Context `{Runtime}.

Lemma catalogRows_spec (types : gmap string value) res cols :
  catalog_lists res cols →
  ∃ types', catalogRows types res = Ok types' ∧
    (∀ k, k ∉ cols.*1 → types' !! k = types !! k) ∧
    (NoDup cols.*1 → ∀ cn dt, (cn, dt) ∈ cols →
       types' !! cn = Some (VString (typeTag dt))).
Proof.
  intros Hl. revert types.
  induction Hl as [|v [cn dt] res cols (r & -> & Hdt & Hcn) Hl IH]; intros types.
  { exists types. split; [done|]. split; [done|].
    intros _ cn dt Hin. by apply elem_of_nil in Hin. }
  cbn in Hdt, Hcn.
  destruct (IH (<[cn := VString (typeTag dt)]> types)) as (types' & Hrun & Hframe & Hvals).
  exists types'. split; [|split].
  - cbn. unfold catalogRow, index. rewrite Hdt, Hcn. cbn. done.
  - intros k Hk. cbn in Hk. apply not_elem_of_cons in Hk as [Hne Hk].
    rewrite (Hframe k Hk). by apply lookup_insert_ne.
  - intros Hnd cn' dt' Hin. cbn in Hnd. apply NoDup_cons in Hnd as [Hfresh Hnd].
    apply elem_of_cons in Hin as [Heq|Hin].
    + inversion Heq; subst cn' dt'. rewrite (Hframe cn Hfresh). apply lookup_insert_eq.
    + by apply Hvals.
Qed.

(** C6.  Schema fetching tags every numeric type code of the catalog:
    code 1 as [utc] (the timestamp tag), codes 2 and 10 as [string], and
    every other code, 99 for one, as [integer].  A fetch whose catalog
    answer lists the columns [cols] ends with a cache file that encodes a
    mapping holding that tag for each of them. *)
Theorem catalog_type_tags :
  (∀ dt, typeTag dt =
         if PrimFloat.eqb dt 1 then "utc"
         else if PrimFloat.eqb dt 2 || PrimFloat.eqb dt 10 then "string"
         else "integer") ∧
  typeTag 1 = "utc" ∧ typeTag 2 = "string" ∧ typeTag 10 = "string" ∧
  typeTag 99 = "integer" ∧ typeTag 0 = "integer" ∧
  ∀ m o db table body res cols,
    url_Parse_ok (catalog_url o db table) = true →
    client_Do (wire m) (client_Timeout o) (catalog_request o db table) = inl body →
    generateRetval (json_Unmarshal body).1 = Ok res →
    catalog_lists res cols →
    NoDup cols.*1 →
    nodes m !! cache_file (PayloadStructCacheDir o) db table = None →
    cache_file (PayloadStructCacheDir o) db table ∉ sealed m →
    ∃ m' types,
      fetchStructure o db table m = (m', Ok tt) ∧
      nodes m' !! cache_file (PayloadStructCacheDir o) db table
        = Some (File (json_Marshal types)) ∧
      ∀ cn dt, (cn, dt) ∈ cols → types !! cn = Some (VString (typeTag dt)).
Proof.
  split.
  { intros dt. unfold typeTag.
    destruct (PrimFloat.eqb dt 1); [done|]. by destruct (PrimFloat.eqb dt 2). }
  repeat split.
  intros m o db table body res cols Hurl Hdo Hres Hcols Hnd Hnone Hfree.
  destruct (catalogRows_spec (json_Unmarshal body).1 res cols Hcols)
    as (types & Hrun & _ & Hvals).
  eexists _, types.
  unfold fetchStructure, http_NewRequest, http_Do, ioutil_WriteFile. run.
  rewrite Hurl. cbn.
  change {| rq_method := "GET"; rq_url := catalog_url o db table; rq_body := None;
            rq_auth := Some (User o, Password o); rq_close := false;
            rq_content_type := None |} with (catalog_request o db table).
  rewrite Hdo. cbn. rewrite Hres. cbn. rewrite Hrun. cbn.
  rewrite bool_decide_eq_false_2 by done. rewrite Hnone. cbn.
  split; [reflexivity|]. split; [cbn; by rewrite lookup_insert_eq|].
  by apply Hvals.
Qed.

End TypeCodes.

(** ** Unwrapping the remote response *)

(** C4, as the code has it.  [generateRetval] on a response object: with
    an [exception] field that is an object with a textual [message], it
    fails with the remote error that carries the message; otherwise, with
    a [rowset] object that has no [rows] field, it returns the empty Result
    and no error; otherwise, with a [rowset] object whose [rows] field is
    a list, it returns that list. *)
Theorem response_unwrapping (res : gmap string value) :
  (∀ exc msg, res !! "exception" = Some (VMap exc) →
     exc !! "message" = Some (VString msg) →
     generateRetval res = Err (errors_New ("OMNIbus: " +:+ msg))) ∧
  (∀ rs, res !! "exception" = None → res !! "rowset" = Some (VMap rs) →
     rs !! "rows" = None →
     generateRetval res = Ok []) ∧
  (∀ rs rows, res !! "exception" = None → res !! "rowset" = Some (VMap rs) →
     rs !! "rows" = Some (VSlice rows) →
     generateRetval res = Ok rows).
Proof.
  unfold generateRetval, index. repeat split.
  - intros exc msg -> Hmsg. cbn. by rewrite Hmsg.
  - intros rs -> -> Hrows. cbn. by rewrite Hrows.
  - intros rs rows -> -> Hrows. cbn. by rewrite Hrows.
Qed.

(** C3, as the code has it.  A response object with neither an
    [exception] nor a [rowset] field unwraps to the empty Result and no
    error, and so does one without [exception] whose [rowset] is an object
    without [rows]; the nil map that a body which does not decode leaves
    behind is such a response, whichever request it answers. *)
Theorem lenient_default_without_fields `{Runtime} (res : gmap string value) :
  (res !! "exception" = None → res !! "rowset" = None →
     generateRetval res = Ok []) ∧
  (∀ rs, res !! "exception" = None → res !! "rowset" = Some (VMap rs) →
     rs !! "rows" = None → generateRetval res = Ok []) ∧
  (∀ body m, (json_Unmarshal body).1 = ∅ → unwrap (inl body) m = (m, Ok [])).
Proof.
  unfold unwrap, generateRetval, lift. repeat split.
  - by intros -> ->.
  - intros rs -> -> Hrows. cbn. by rewrite Hrows.
  - intros body m ->. by rewrite !lookup_empty.
Qed.

(** C3 fails on the code.  Responses of other shapes than the exception
    envelope and the well-formed rowset on which [generateRetval] does not
    return: a [rowset] that is not an object, a [rows] that is not a list
    and an [exception] without a textual message make its unchecked type
    assertions panic. *)
Lemma malformed_response_panics :
  generateRetval {[ "rowset" := VFloat64 5 ]} = Panic ∧
  generateRetval {[ "rowset" := VMap {[ "rows" := VString "none" ]} ]} = Panic ∧
  generateRetval {[ "exception" := VMap ∅ ]} = Panic ∧
  generateRetval {[ "exception" := VMap {[ "message" := VFloat64 404 ]} ]} = Panic.
Proof. repeat split. Qed.

(** ** More about the cache directory and the schema lookup *)

Section MoreStore.
Context `{Runtime}.

Lemma effective_dir_nonempty o : String.eqb (effective_dir o) "" = false.
Proof.
  unfold effective_dir. by destruct (String.eqb (PayloadStructCacheDir o) "") eqn:E.
Qed.

Lemma settled_fixed m :
  String.eqb (PayloadStructCacheDir (omni m)) "" = false → settled m = m.
Proof. intros E. unfold settled. by rewrite E. Qed.

Lemma effective_dir_fixed o :
  String.eqb (PayloadStructCacheDir o) "" = false → effective_dir o = PayloadStructCacheDir o.
Proof. intros E. unfold effective_dir. by rewrite E. Qed.

Lemma settled_config m :
  URL (omni (settled m)) = URL (omni m) ∧ User (omni (settled m)) = User (omni m) ∧
  Password (omni (settled m)) = Password (omni m) ∧
  Timeout (omni (settled m)) = Timeout (omni m).
Proof. unfold settled. by destruct (String.eqb _ _). Qed.

Lemma catalog_request_settled m db table :
  catalog_request (omni (settled m)) db table = catalog_request (omni m) db table.
Proof.
  destruct (settled_config m) as (HU & Hu & Hp & _).
  unfold catalog_request, catalog_url. by rewrite HU, Hu, Hp.
Qed.

Lemma client_Timeout_settled m :
  client_Timeout (omni (settled m)) = client_Timeout (omni m).
Proof.
  destruct (settled_config m) as (_ & _ & _ & Ht). unfold client_Timeout. by rewrite Ht.
Qed.

(** A path with nothing in the way and nothing at it is reported missing. *)
Lemma way_clear_absent m p :
  way_clear m p → nodes m !! p = None → absent m p.
Proof.
  intros Hw Hn. unfold absent, os_Stat. rewrite Hn.
  by destruct (descend_clear _ _ Hw) as [-> | ->].
Qed.

Lemma way_clear_check m p :
  forallb (λ a, match nodes m !! a with None | Some Dir => true | Some _ => false end)
          (dirs_above p) = true →
  way_clear m p.
Proof.
  unfold way_clear. induction (dirs_above p) as [|a l IH]; cbn; [by constructor|].
  intros [Ha Hl]%andb_prop. constructor; [|by apply IH].
  destruct (nodes m !! a) as [[| | |dat]|]; auto; done.
Qed.

(** A miss, checked on the nodes. *)
Lemma cache_miss_check m req db table :
  strings_Split (DBPath req) "/" = [db; table] →
  cache_dir_available m →
  nodes m !! cache_file (effective_dir (omni m)) db table = None →
  forallb (λ a, match nodes m !! a with None | Some Dir => true | Some _ => false end)
          (dirs_above (cache_file (effective_dir (omni m)) db table)) = true →
  cache_miss m req db table.
Proof. intros Hs Ha Hn Hw. split_and!; [done..|]. by apply way_clear_check. Qed.

Lemma way_clear_nodes m m' p : nodes m' = nodes m → way_clear m p → way_clear m' p.
Proof. unfold way_clear. by intros ->. Qed.

Lemma way_clear_createCacheDir m p :
  way_clear m p → way_clear (createCacheDir m).1 p.
Proof.
  unfold way_clear. rewrite !Forall_forall. intros Hw a Ha.
  destruct (nodes (createCacheDir m).1 !! a) as [n|] eqn:E; [|by left].
  apply createCacheDir_adds in E as [E|(_ & -> & _)]; [|by right].
  destruct (Hw a Ha) as [Hn|Hn]; rewrite Hn in E; [done|]. right. by rewrite E.
Qed.

Lemma absent_nodes m m' p : nodes m' = nodes m → absent m' p ↔ absent m p.
Proof. intros Hn. unfold absent. by rewrite (os_Stat_nodes m m' p Hn). Qed.

(** The machine [createCacheDir] leaves when it has nothing to complain
    about. *)
Lemma createCacheDir_Ok m :
  cache_dir_available m →
  ∃ m1, createCacheDir m = (m1, Ok tt) ∧
    omni m1 = omni (settled m) ∧ wire m1 = wire m ∧ sealed m1 = sealed m ∧
    ¬ absent m1 (effective_dir (omni m)) ∧ keeps m m1.
Proof.
  intros Hav. pose proof (createCacheDir_available m Hav) as Hok.
  destruct (createCacheDir_frame m) as (Hk & Hw & Hs & Ho & Hd).
  destruct (createCacheDir m) as [m1 r]. cbn in *. subst r.
  exists m1. split_and!; auto.
Qed.

End MoreStore.

Section Fetch.
Context `{Runtime}.

(** [generateRetval] has one kind of error: the remote exception. *)
Lemma generateRetval_Err res e :
  generateRetval res = Err e →
  ∃ exc msg, res !! "exception" = Some (VMap exc) ∧ index exc "message" = VString msg ∧
             e = errors_New ("OMNIbus: " +:+ msg).
Proof.
  unfold generateRetval.
  destruct (res !! "exception") as [exc|].
  - destruct exc as [| | | | | | |e'| |]; try done. cbn.
    destruct (index e' "message") eqn:Hm; try done. cbn. intros [= <-]. by eexists _, _.
  - destruct (res !! "rowset") as [rs|]; [|done].
    destruct rs as [| | | | | | |rs'| |]; try done. cbn.
    destruct (rs' !! "rows") as [rows|]; [|done]. by destruct rows.
Qed.

Lemma catalogRows_not_Err types res e : catalogRows types res ≠ Err e.
Proof.
  revert types. induction res as [|v res IH]; intros types; [done|]. cbn.
  unfold catalogRow.
  destruct v as [| | | | | | |r| |]; try done. cbn.
  destruct (index r "DataType"); try done. cbn.
  destruct (index r "ColumnName"); try done. cbn. apply IH.
Qed.

(** The fetch, step by step. *)
Lemma fetchStructure_spec o db table m :
  fetchStructure o db table m =
    if url_Parse_ok (catalog_url o db table) then
      let m1 := set_wire (wire m ++ [catalog_request o db table]) m in
      match client_Do (wire m) (client_Timeout o) (catalog_request o db table) with
      | inr err => (m1, Err (url_Error err))
      | inl body =>
          match generateRetval (json_Unmarshal body).1 with
          | Ok res =>
              match catalogRows (json_Unmarshal body).1 res with
              | Ok types =>
                  ((ioutil_WriteFile (cache_file (PayloadStructCacheDir o) db table)
                      (json_Marshal types) m1).1, Ok tt)
              | Err e => (m1, Err e)
              | Panic => (m1, Panic)
              end
          | Err e => (m1, Err e)
          | Panic => (m1, Panic)
          end
      end
    else (m, Panic).
Proof.
  unfold fetchStructure, http_NewRequest, http_Do, catalog_request. run.
  destruct (url_Parse_ok (catalog_url o db table)); cbn; [|done].
  destruct (client_Do _ _ _) as [body|err]; cbn; [|done].
  destruct (generateRetval _) as [res|e|]; cbn; [|done..].
  destruct (catalogRows _ res) as [types|e|]; cbn; [|done..].
  unfold ioutil_WriteFile. cbn.
  destruct (bool_decide _); [done|]. by destruct (nodes m !! _) as [[]|].
Qed.

(** Writing a file that is not there yet. *)
Lemma ioutil_WriteFile_fresh p dat m :
  nodes m !! p = None →
  (ioutil_WriteFile p dat m).1 =
    if bool_decide (p ∈ sealed m) then m else set_nodes (<[p := File dat]> (nodes m)) m.
Proof.
  intros Hnone. unfold ioutil_WriteFile. destruct (bool_decide _); [done|]. by rewrite Hnone.
Qed.

Lemma effective_dir_settled m : effective_dir (omni (settled m)) = effective_dir (omni m).
Proof.
  rewrite <- (settled_dir m). apply effective_dir_fixed.
  rewrite settled_dir. apply effective_dir_nonempty.
Qed.

Lemma catalog_url_settled m db table :
  catalog_url (omni (settled m)) db table = catalog_url (omni m) db table.
Proof.
  destruct (settled_config m) as (HU & _). unfold catalog_url. by rewrite HU.
Qed.

(** On a miss, [getPayloadStructure] is the fetch on the machine [m1] that
    [createCacheDir] leaves: the catalog query, the answer unwrapped, the
    tags, the cache file. *)
Lemma getPayloadStructure_miss m req db table :
  cache_miss m req db table →
  let file := cache_file (effective_dir (omni m)) db table in
  ∃ m1, createCacheDir m = (m1, Ok tt) ∧
    omni m1 = omni (settled m) ∧ wire m1 = wire m ∧ sealed m1 = sealed m ∧
    ¬ absent m1 (effective_dir (omni m)) ∧
    nodes m1 !! file = None ∧ way_clear m1 file ∧
    getPayloadStructure req m =
      if url_Parse_ok (catalog_url (omni m) db table) then
        let m2 := set_wire (wire m ++ [catalog_request (omni m) db table]) m1 in
        match catalog_answer m db table with
        | inr err => (m2, Err (url_Error err))
        | inl body =>
            match generateRetval (json_Unmarshal body).1 with
            | Ok res =>
                match catalogRows (json_Unmarshal body).1 res with
                | Ok types =>
                    (if bool_decide (file ∈ sealed m) then m2
                     else set_nodes (<[file := File (json_Marshal types)]> (nodes m1)) m2,
                     Ok tt)
                | Err e => (m2, Err e)
                | Panic => (m2, Panic)
                end
            | Err e => (m2, Err e)
            | Panic => (m2, Panic)
            end
        end
      else (m1, Panic).
Proof.
  intros (Hsplit & Hav & Hnone & Hclear) file.
  pose proof (createCacheDir_adds m file) as Hadds.
  pose proof (way_clear_createCacheDir m file Hclear) as Hclear1.
  destruct (createCacheDir_Ok m Hav) as (m1 & Hc & Ho & Hw & Hs & Hd & Hk).
  rewrite Hc in Hadds, Hclear1. cbn in Hadds, Hclear1.
  assert (Hnone1 : nodes m1 !! file = None).
  { destruct (nodes m1 !! file) as [n|] eqn:E; [|done].
    destruct (Hadds n eq_refl) as [Hn|(_ & _ & Hin)]; [unfold file in Hn; congruence|].
    by apply cache_file_not_above in Hin. }
  exists m1. split_and!; try done.
  rewrite (getPayloadStructure_split m req db table Hsplit), Hc. cbn zeta.
  rewrite Ho, settled_dir. fold file.
  rewrite (way_clear_absent m1 file Hclear1 Hnone1).
  rewrite fetchStructure_spec.
  rewrite catalog_url_settled, catalog_request_settled, client_Timeout_settled, Hw, settled_dir.
  fold file. unfold catalog_answer.
  destruct (url_Parse_ok _); [|done]. cbn zeta.
  destruct (client_Do _ _ _) as [body|err]; [|done].
  destruct (generateRetval _) as [res|e|]; [|done..].
  destruct (catalogRows _ res) as [types|e|]; [|done..].
  rewrite ioutil_WriteFile_fresh by done. cbn. by rewrite Hs.
Qed.

(** [generatePayload] once [getPayloadStructure] has returned nil: the
    loop, on the mapping read from the table's cache file. *)
Lemma generatePayload_after m req order m1 db table :
  strings_Split (DBPath req) "/" = [db; table] →
  getPayloadStructure req m = (m1, Ok tt) →
  generatePayload order (m, req) =
    let types := entry_types m1 (cache_file (PayloadStructCacheDir (omni m1)) db table) in
    let '(b, r) := rangeColumns types order 0 (initial_bufs req) in
    ((m1, set_Payload (payload_of b) req), r).
Proof.
  intros Hsplit Hget.
  unfold generatePayload, on_machine, on_payload. run. cbn.
  rewrite Hget, Hsplit. cbn. unfold ioutil_ReadFile, entry_types. run. cbn.
  destruct (nodes m1 !! _) as [[| | |dat]|]; cbn; by rewrite ?json_Unmarshal_nil.
Qed.

(** When [getPayloadStructure] fails, so does [generatePayload], on the
    spot. *)
Lemma generatePayload_lookup_fails m req order :
  (getPayloadStructure req m).2 ≠ Ok tt →
  generatePayload order (m, req) =
    (((getPayloadStructure req m).1, req),
     match (getPayloadStructure req m).2 with
     | Ok _ => Ok tt
     | Err e => Err e
     | Panic => Panic
     end).
Proof.
  intros Hne. unfold generatePayload, on_machine. run. cbn.
  by destruct (getPayloadStructure req m) as [m1 [[]|e|]].
Qed.

(** A write whose payload cannot be generated ends there. *)
Lemma SendRequest_rejected m req order :
  writes (Method req) = true →
  (generatePayload order (m, req)).2 ≠ Ok tt →
  SendRequest order req m =
    ((generatePayload order (m, req)).1.1,
     match (generatePayload order (m, req)).2 with
     | Ok _ => Ok []
     | Err e => Err e
     | Panic => Panic
     end).
Proof.
  unfold writes. intros Hw Hne. unfold SendRequest. rewrite Hw.
  by destruct (generatePayload order (m, req)) as [[m1 req1] [[]|e|]].
Qed.

(** Away from the cache directory and the directories above it,
    [createCacheDir] leaves the disk as it is. *)
Lemma createCacheDir_nodes m p :
  p ∉ dirs_above (effective_dir (omni m)) ++ [effective_dir (omni m)] →
  nodes (createCacheDir m).1 !! p = nodes m !! p.
Proof.
  intros Hp. destruct (createCacheDir_frame m) as (Hk & _).
  destruct (nodes m !! p) as [n|] eqn:E; [by apply Hk|].
  destruct (nodes (createCacheDir m).1 !! p) as [n|] eqn:E'; [|done].
  apply createCacheDir_adds in E' as [?|(_ & _ & ?)]; [congruence|done].
Qed.

(** Once the cache directory is settled, [createCacheDir] leaves it at that. *)
Lemma createCacheDir_again m m1 :
  omni m1 = omni (settled m) →
  ¬ absent m1 (effective_dir (omni m)) →
  settled m1 = m1 ∧ effective_dir (omni m1) = effective_dir (omni m) ∧
  createCacheDir m1 = (m1, Ok tt).
Proof.
  intros Ho Hd.
  assert (Hs : settled m1 = m1).
  { apply settled_fixed. rewrite Ho, settled_dir. apply effective_dir_nonempty. }
  assert (He : effective_dir (omni m1) = effective_dir (omni m)).
  { rewrite Ho. apply effective_dir_settled. }
  split_and!; [done..|]. rewrite createCacheDir_found by (by rewrite He). by rewrite Hs.
Qed.

End Fetch.

Section CacheDirectory.
Context `{Runtime}.

Lemma cache_dir_available_dec m : cache_dir_available m ∨ ¬ cache_dir_available m.
Proof.
  unfold cache_dir_available, absent. cbn zeta. rewrite os_MkdirAll_outcome.
  destruct (os_Stat (effective_dir (omni m)) m); [by left| |by left].
  destruct (mkdirs _ _ _ _) as [t [|]]; cbn; [right|by left].
  intros Hmade. by specialize (Hmade eq_refl).
Qed.

(** X1.  [createCacheDir] settles: once it has returned nil, calling it again
    returns nil and changes nothing; the configured directory is then the
    one it settled on (the default when none was configured), and
    [os.Stat] does not report that path as missing.  Where [os.Stat] had
    reported it missing, the directory has been made; where it had not
    (something is at the path, or the path cannot be got to), the disk is
    as it was. *)
Theorem createCacheDir_settles m m1 :
  createCacheDir m = (m1, Ok tt) →
  createCacheDir m1 = (m1, Ok tt) ∧
  PayloadStructCacheDir (omni m1) = effective_dir (omni m) ∧
  PayloadStructCacheDir (omni m1) ≠ "" ∧
  ¬ absent m1 (PayloadStructCacheDir (omni m1)) ∧
  (absent m (effective_dir (omni m)) →
     nodes m1 !! PayloadStructCacheDir (omni m1) = Some Dir) ∧
  (¬ absent m (effective_dir (omni m)) → nodes m1 = nodes m).
Proof.
  intros Hc.
  destruct (createCacheDir_frame m) as (_ & _ & _ & Ho & Hd).
  rewrite Hc in Ho, Hd. cbn in Ho, Hd. specialize (Hd eq_refl).
  destruct (createCacheDir_again m m1 Ho Hd) as (_ & _ & Hagain).
  assert (Hdir : PayloadStructCacheDir (omni m1) = effective_dir (omni m))
    by (by rewrite Ho, settled_dir).
  split_and!; [done..| |by rewrite Hdir| |].
  - rewrite Hdir. intros Heq. pose proof (effective_dir_nonempty (omni m)) as Hne.
    by rewrite Heq in Hne.
  - intros Habs. rewrite Hdir. pose proof Habs as Hnone%os_Stat_absent.
    rewrite createCacheDir_spec in Hc. cbn zeta in Hc.
    unfold absent in Habs. rewrite Habs in Hc.
    pose proof (mkdirs_made (dirs_above (effective_dir (omni m)) ++ [effective_dir (omni m)])
                  false (sealed m) (nodes m) (effective_dir (omni m))) as Hm.
    destruct (mkdirs _ _ _ _) as [t [|]]; [done|]. injection Hc as <-. cbn in *.
    destruct Hm as [Hm|Hm]; [done|apply elem_of_app; right; by left|done|congruence].
  - intros Hpres. rewrite (createCacheDir_found m Hpres) in Hc. injection Hc as <-.
    apply settled_nodes.
Qed.

(** X2.  How [createCacheDir] ends.  It returns nil exactly when [os.Stat]
    does not report the directory path as missing or [os.MkdirAll] makes
    the directory, and its one error otherwise; it never panics.  Whatever
    [os.Stat] finds at the path counts as the directory, a regular file
    included, and so does a path [os.Stat] cannot get to: both are left as
    they are, and nothing is made.  The default directory name is filled
    in whatever the outcome.  Nothing that was on disk is touched; what is
    new is directories, the cache directory or directories above it, and
    those made before [os.MkdirAll] failed stay behind. *)
Theorem createCacheDir_outcome m :
  ((createCacheDir m).2 = Ok tt ↔ cache_dir_available m) ∧
  ((createCacheDir m).2 = Ok tt ∨
   (createCacheDir m).2 =
     Err (errors_New "Couldn't create payload structure cache directory")) ∧
  PayloadStructCacheDir (omni (createCacheDir m).1) = effective_dir (omni m) ∧
  (¬ absent m (effective_dir (omni m)) → createCacheDir m = (settled m, Ok tt)) ∧
  (∀ n, nodes m !! effective_dir (omni m) = Some n →
     createCacheDir m = (settled m, Ok tt) ∧
     nodes (settled m) !! effective_dir (omni m) = Some n) ∧
  (os_Stat (effective_dir (omni m)) m = StatFails →
     createCacheDir m = (settled m, Ok tt) ∧
     nodes (settled m) !! effective_dir (omni m) = None) ∧
  keeps m (createCacheDir m).1 ∧
  (∀ p n, nodes (createCacheDir m).1 !! p = Some n →
     nodes m !! p = Some n ∨
     (n = Dir ∧ p ∈ dirs_above (effective_dir (omni m)) ++ [effective_dir (omni m)])).
Proof.
  pose proof (createCacheDir_available m) as Hav.
  pose proof (createCacheDir_unavailable m) as Hun.
  destruct (createCacheDir_frame m) as (Hk & _ & _ & Ho & _).
  split_and!.
  - split; [|done]. intros Hok.
    destruct (cache_dir_available_dec m) as [|Hna]; [done|].
    specialize (Hun Hna). congruence.
  - destruct (cache_dir_available_dec m) as [Ha|Hna]; auto.
  - by rewrite Ho, settled_dir.
  - apply createCacheDir_found.
  - intros n Hn. split; [apply createCacheDir_exists; by eexists|].
    by rewrite settled_nodes.
  - intros Hf. split.
    + apply createCacheDir_found. unfold absent. by rewrite Hf.
    + rewrite settled_nodes. unfold os_Stat in Hf.
      by destruct (nodes m !! effective_dir (omni m)).
  - exact Hk.
  - intros p n Hp. apply createCacheDir_adds in Hp as [?|(_ & ? & ?)]; auto.
Qed.

End CacheDirectory.

Section SchemaLookup.
Context `{Runtime}.

(** X3.  With the cache directory in place, [getPayloadStructure] returns the
    path-format error exactly when [DBPath] does not hold exactly one
    [/]; what is on either side of it, nothing included, is not looked
    at. *)
Theorem path_format_error_iff m req :
  cache_dir_available m →
  (getPayloadStructure req m).2 = Err (errors_New "DBPath is not a path: Format db/table")
  ↔ count_byte "/" (DBPath req) ≠ 1%nat.
Proof.
  intros Hav. rewrite <- strings_Split_two.
  destruct (createCacheDir_Ok m Hav) as (m1 & Hc & _).
  split.
  - intros Herr Hlen.
    destruct (strings_Split (DBPath req) "/") as [|db [|table [|x l]]] eqn:Hsplit;
      try done.
    rewrite (getPayloadStructure_split m req db table Hsplit), Hc in Herr.
    cbn zeta in Herr. destruct (os_Stat _ m1); [done| |done].
    rewrite fetchStructure_spec in Herr.
    destruct (url_Parse_ok _); [|done]. cbn zeta in Herr.
    destruct (client_Do _ _ _) as [body|err]; [|done].
    destruct (generateRetval _) as [res|e|] eqn:Hres; [| |done].
    + destruct (catalogRows _ res) as [types|e|] eqn:Hrows; [done| |done].
      by apply catalogRows_not_Err in Hrows.
    + apply generateRetval_Err in Hres as (exc & msg & _ & _ & ->). done.
  - intros Hbad. by rewrite (getPayloadStructure_bad_path m req Hbad), Hc.
Qed.

(** A lookup that does not return nil leaves the disk as [createCacheDir]
    left it. *)
Lemma failed_lookup_nodes m req :
  (getPayloadStructure req m).2 ≠ Ok tt →
  nodes (getPayloadStructure req m).1 = nodes (createCacheDir m).1.
Proof.
  intros Hne.
  destruct (split_two_cases (DBPath req)) as [(db & table & Hsplit)|Hbad].
  - rewrite (getPayloadStructure_split m req db table Hsplit) in Hne |- *.
    destruct (createCacheDir m) as [m1 [[]|e|]]; [|done..].
    cbn zeta in Hne |- *.
    destruct (os_Stat _ m1); [done| |done].
    rewrite fetchStructure_spec in Hne |- *.
    destruct (url_Parse_ok _); [|done]. cbn zeta in Hne |- *.
    destruct (client_Do _ _ _) as [body|err]; [|done].
    destruct (generateRetval _) as [res|e|]; [|done..].
    by destruct (catalogRows _ res) as [types|e|].
  - rewrite (getPayloadStructure_bad_path m req Hbad).
    by destruct (createCacheDir m) as [m1 [[]|e|]].
Qed.

(** X4.  A lookup that does not return nil has written no cache file: away
    from the cache directory and the directories above it the disk is as
    it was, and what is new on disk is directories. *)
Theorem failed_lookup_writes_nothing m req p :
  (getPayloadStructure req m).2 ≠ Ok tt →
  (p ∉ dirs_above (effective_dir (omni m)) ++ [effective_dir (omni m)] →
     nodes (getPayloadStructure req m).1 !! p = nodes m !! p) ∧
  (∀ n, nodes (getPayloadStructure req m).1 !! p = Some n →
     nodes m !! p = Some n ∨ n = Dir).
Proof.
  intros Hne. rewrite (failed_lookup_nodes m req Hne). split.
  - apply createCacheDir_nodes.
  - intros n Hn. apply createCacheDir_adds in Hn as [?|(_ & ? & _)]; auto.
Qed.

(** X5.  The schema is fetched once.  After a lookup that returned nil, with a
    cache file that could be written, the table has its entry in the Schema
    Store, and looking it up again returns nil and changes nothing:
    nothing is sent, nothing is written. *)
Theorem schema_fetched_once m req m1 db table :
  strings_Split (DBPath req) "/" = [db; table] →
  cache_file (effective_dir (omni m)) db table ∉ sealed m →
  getPayloadStructure req m = (m1, Ok tt) →
  has_entry m1 req db table ∧ getPayloadStructure req m1 = (m1, Ok tt).
Proof.
  intros Hsplit Hfree Hget.
  assert (Hentry : omni m1 = omni (settled m) ∧
                   ¬ absent m1 (effective_dir (omni m)) ∧
                   ¬ absent m1 (cache_file (effective_dir (omni m)) db table)).
  { destruct (createCacheDir_frame m) as (_ & Hw & Hs & Ho & Hd).
    rewrite (getPayloadStructure_split m req db table Hsplit) in Hget.
    destruct (createCacheDir m) as [m0 [[]|e|]]; [|done..].
    cbn in Hw, Hs, Ho, Hd. specialize (Hd eq_refl). cbn zeta in Hget.
    rewrite Ho, settled_dir in Hget.
    destruct (os_Stat _ m0) eqn:Hmiss.
    - inversion Hget; subst m1. split_and!; [done..|]. unfold absent. by rewrite Hmiss.
    - apply os_Stat_absent in Hmiss.
      rewrite fetchStructure_spec in Hget.
      destruct (url_Parse_ok _); [|done]. cbn zeta in Hget.
      destruct (client_Do _ _ _) as [body|err]; [|done].
      destruct (generateRetval _) as [res|e|]; [|done..].
      destruct (catalogRows _ res) as [types|e|]; [|done..].
      rewrite settled_dir, ioutil_WriteFile_fresh in Hget by done.
      cbn in Hget. rewrite Hs, bool_decide_eq_false_2 in Hget by done.
      inversion Hget; subst m1. cbn. split_and!; [done| |].
      + unfold absent.
        rewrite (os_Stat_insert_other m0 _ (cache_file (effective_dir (omni m)) db table)
                   (effective_dir (omni m)) (File (json_Marshal types)));
          [done|done|apply cache_file_not_above].
      + apply present_not_absent. cbn. rewrite lookup_insert_eq. by eexists.
    - inversion Hget; subst m1. split_and!; [done..|]. unfold absent. by rewrite Hmiss. }
  destruct Hentry as (Ho & Hd & Hf).
  destruct (createCacheDir_again m m1 Ho Hd) as (Hs & He & _).
  assert (Hhas : has_entry m1 req db table).
  { split_and!; [done|by rewrite He..]. }
  split; [done|]. rewrite (getPayloadStructure_entry m1 req db table Hhas). by rewrite Hs.
Qed.

(** X27.  A cache file that [os.Stat] cannot get to passes for an entry.
    When the cache directory lies beneath a regular file or a directory
    that cannot be searched, or is itself a regular file or cannot be
    searched, [os.Stat] fails on the table's cache file with an error that
    [os.IsNotExist] does not recognise.  The lookup then returns nil
    without asking the catalog and without making anything, and the
    synthesis, which reads no schema, rejects the first column it
    visits. *)
Theorem unreachable_cache_skips_fetch m req order db table :
  strings_Split (DBPath req) "/" = [db; table] →
  nodes m !! cache_file (effective_dir (omni m)) db table = None →
  os_Stat (effective_dir (omni m)) m = StatFails ∨
  (Forall (λ a, nodes m !! a = Some Dir) (dirs_above (effective_dir (omni m))) ∧
   ∃ n, nodes m !! effective_dir (omni m) = Some n ∧ n ≠ Dir) →
  os_Stat (cache_file (effective_dir (omni m)) db table) m = StatFails ∧
  getPayloadStructure req m = (settled m, Ok tt) ∧
  wire (settled m) = wire m ∧ nodes (settled m) = nodes m ∧
  (∀ k v rest, order = (k, v) :: rest →
     (generatePayload order (m, req)).2 = Err (errors_New ("Column not found: " +:+ k))).
Proof.
  intros Hsplit Hnone Hcase.
  assert (Hne : effective_dir (omni m) ≠ "").
  { intros Heq. pose proof (effective_dir_nonempty (omni m)) as E. by rewrite Heq in E. }
  assert (Hfile : os_Stat (cache_file (effective_dir (omni m)) db table) m = StatFails).
  { unfold os_Stat. rewrite Hnone.
    rewrite (cache_file_above (DBPath req) _ db table Hsplit Hne), descend_app.
    destruct Hcase as [Hfails|(Hdirs & n & Hn & Hnd)].
    - unfold os_Stat in Hfails.
      destruct (nodes m !! effective_dir (omni m)); [done|].
      by destruct (descend _ _) as [[| |]|].
    - rewrite (descend_dirs _ _ Hdirs). cbn. rewrite Hn. by destruct n. }
  assert (Hentry : has_entry m req db table).
  { split_and!; [done| |]; unfold absent; [|by rewrite Hfile].
    destruct Hcase as [->|(_ & n & Hn & _)]; [done|].
    by rewrite (os_Stat_node m _ n Hn). }
  split_and!; [done|by apply (getPayloadStructure_entry m req db table)|
               apply settled_wire|apply settled_nodes|].
  intros k v rest ->.
  rewrite (generatePayload_entry m req db table _ Hentry). cbn.
  unfold entry_types. rewrite Hnone.
  unfold mbind, prog_bind. by rewrite columnStep_absent.
Qed.

End SchemaLookup.

Section CacheKey.
Context `{Runtime}.

(** X25.  The name of a cache file does not tell database and table apart
    when a name holds a dot: the table [z] of the database [x.y] and the
    table [y.z] of the database [x] have the same cache file.  Once one of
    them has its entry, the lookup for the other finds it, asks the catalog
    nothing, and the synthesis works from the other table's schema. *)
Theorem cache_key_collision m req1 req2 x y z :
  strings_Split (DBPath req1) "/" = [x +:+ "." +:+ y; z] →
  strings_Split (DBPath req2) "/" = [x; y +:+ "." +:+ z] →
  has_entry m req1 (x +:+ "." +:+ y) z →
  (∀ d, cache_file d (x +:+ "." +:+ y) z = cache_file d x (y +:+ "." +:+ z)) ∧
  has_entry m req2 x (y +:+ "." +:+ z) ∧
  getPayloadStructure req2 m = (settled m, Ok tt) ∧
  (∀ order,
     generatePayload order (m, req2) =
       let types := entry_types m (cache_file (effective_dir (omni m)) (x +:+ "." +:+ y) z) in
       let '(b, r) := rangeColumns types order 0 (initial_bufs req2) in
       ((settled m, set_Payload (payload_of b) req2), r)).
Proof.
  intros Hs1 Hs2 (_ & Hdir & Hfile).
  assert (Hsame : ∀ d, cache_file d (x +:+ "." +:+ y) z
                       = cache_file d x (y +:+ "." +:+ z)).
  { intros d. unfold cache_file. by rewrite !string_append_assoc. }
  assert (Hentry : has_entry m req2 x (y +:+ "." +:+ z)).
  { split_and!; [done..|]. by rewrite <- Hsame. }
  split_and!; [done..| |].
  - by apply (getPayloadStructure_entry m req2 x (y +:+ "." +:+ z)).
  - intros order. rewrite (generatePayload_entry m req2 _ _ order Hentry).
    by rewrite <- Hsame.
Qed.

End CacheKey.

(** ** More about the schema fetch *)

Section SchemaFetch.
Context `{Runtime}.

(** X6.  A write into a table whose cache file is missing, with nothing in
    the way to it, when the catalog query fails: [SendRequest] returns the
    transport error of the query, or the remote error [OMNIbus: ] with the
    message of the exception the catalog answered with.  In both cases the
    catalog query is the only request sent, the write itself never goes
    out, and no cache file is written. *)
Theorem failed_fetch_aborts_write m req order db table :
  cache_miss m req db table →
  writes (Method req) = true →
  url_Parse_ok (catalog_url (omni m) db table) = true →
  let m' := (SendRequest order req m).1 in
  (∀ err, catalog_answer m db table = inr err →
     (SendRequest order req m).2 = Err (url_Error err) ∧
     wire m' = wire m ++ [catalog_request (omni m) db table] ∧
     nodes m' !! cache_file (effective_dir (omni m)) db table = None) ∧
  (∀ body exc msg, catalog_answer m db table = inl body →
     (json_Unmarshal body).1 !! "exception" = Some (VMap exc) →
     exc !! "message" = Some (VString msg) →
     (SendRequest order req m).2 = Err (errors_New ("OMNIbus: " +:+ msg)) ∧
     wire m' = wire m ++ [catalog_request (omni m) db table] ∧
     nodes m' !! cache_file (effective_dir (omni m)) db table = None).
Proof.
  intros Hmiss Hw Hurl. cbn zeta.
  destruct (getPayloadStructure_miss m req db table Hmiss)
    as (m1 & _ & _ & Hw1 & _ & _ & Hn & _ & Hget).
  cbn zeta in Hget. rewrite Hurl in Hget.
  assert (Hfails : ∀ e,
    getPayloadStructure req m =
      (set_wire (wire m ++ [catalog_request (omni m) db table]) m1, Err e) →
    (SendRequest order req m).2 = Err e ∧
    wire (SendRequest order req m).1 = wire m ++ [catalog_request (omni m) db table] ∧
    nodes (SendRequest order req m).1 !! cache_file (effective_dir (omni m)) db table = None).
  { intros e He.
    assert (Hgen : generatePayload order (m, req) =
                     ((set_wire (wire m ++ [catalog_request (omni m) db table]) m1, req),
                      Err e)).
    { rewrite generatePayload_lookup_fails; by rewrite He. }
    rewrite (SendRequest_rejected m req order Hw) by (by rewrite Hgen).
    rewrite Hgen. by cbn. }
  split.
  - intros err Hans. apply Hfails. by rewrite Hget, Hans.
  - intros body exc msg Hans Hexc Hmsg. apply Hfails. rewrite Hget, Hans.
    unfold generateRetval, index. rewrite Hexc. cbn. by rewrite Hmsg.
Qed.

(** X7.  A cache file that cannot be written is not reported.  When the
    table's cache file is missing, with nothing in the way to it (so that
    [os.Stat] reports it as missing), the catalog answers the query with a
    list of columns and the file cannot be made, [getPayloadStructure]
    returns nil as if it had been; the table still has no entry, so the
    next lookup asks the catalog again, and [generatePayload], reading no
    schema, rejects the first column it visits as not found. *)
Theorem cache_write_failure_is_silent m req order db table body res cols :
  cache_miss m req db table →
  cache_file (effective_dir (omni m)) db table ∈ sealed m →
  url_Parse_ok (catalog_url (omni m) db table) = true →
  catalog_answer m db table = inl body →
  generateRetval (json_Unmarshal body).1 = Ok res →
  catalog_lists res cols →
  let m' := (getPayloadStructure req m).1 in
  (getPayloadStructure req m).2 = Ok tt ∧
  wire m' = wire m ++ [catalog_request (omni m) db table] ∧
  nodes m' !! cache_file (effective_dir (omni m)) db table = None ∧
  cache_miss m' req db table ∧
  (∀ k v rest, order = (k, v) :: rest →
     (generatePayload order (m, req)).2 = Err (errors_New ("Column not found: " +:+ k))).
Proof.
  intros Hmiss Hsealed Hurl Hans Hres Hcols. cbn zeta.
  pose proof Hmiss as (Hsplit & _).
  destruct (getPayloadStructure_miss m req db table Hmiss)
    as (m1 & _ & Ho & Hw1 & Hs & Hd & Hfile & Hclear & Hget).
  cbn zeta in Hget. rewrite Hurl, Hans, Hres in Hget.
  destruct (catalogRows_spec (json_Unmarshal body).1 res cols Hcols) as (types & Hrows & _).
  rewrite Hrows, bool_decide_eq_true_2 in Hget by done.
  rewrite Hget. cbn. split_and!; [done..| |].
  - split_and!; [done| | |].
    + unfold cache_dir_available. cbn. rewrite Ho, effective_dir_settled.
      intros Habs. by apply (absent_nodes m1) in Habs.
    + cbn. by rewrite Ho, effective_dir_settled.
    + cbn. rewrite Ho, effective_dir_settled. by eapply way_clear_nodes.
  - intros k v rest ->.
    rewrite (generatePayload_after m req _ _ db table Hsplit Hget). cbn.
    rewrite Ho, settled_dir. unfold entry_types. cbn. rewrite Hfile.
    unfold mbind, prog_bind. by rewrite columnStep_absent.
Qed.

(** X8.  A catalog answer that lists nothing is cached all the same.  When the
    body of the answer does not decode to anything, or decodes to an answer
    without rows, the fetch returns nil and writes the encoding of what was
    decoded as the table's schema; the table then has its entry. *)
Theorem empty_catalog_answer_is_cached m req db table body :
  cache_miss m req db table →
  cache_file (effective_dir (omni m)) db table ∉ sealed m →
  url_Parse_ok (catalog_url (omni m) db table) = true →
  catalog_answer m db table = inl body →
  (json_Unmarshal body).1 = ∅ ∨ generateRetval (json_Unmarshal body).1 = Ok [] →
  ∃ m', getPayloadStructure req m = (m', Ok tt) ∧
    wire m' = wire m ++ [catalog_request (omni m) db table] ∧
    nodes m' !! cache_file (effective_dir (omni m)) db table
      = Some (File (json_Marshal (json_Unmarshal body).1)) ∧
    has_entry m' req db table.
Proof.
  intros Hmiss Hfree Hurl Hans Hempty.
  pose proof Hmiss as (Hsplit & _).
  destruct (getPayloadStructure_miss m req db table Hmiss)
    as (m1 & _ & Ho & Hw1 & Hs & Hd & Hn & _ & Hget).
  cbn zeta in Hget. rewrite Hurl, Hans in Hget.
  assert (Hres : generateRetval (json_Unmarshal body).1 = Ok []).
  { destruct Hempty as [-> | ?]; done. }
  rewrite Hres in Hget. cbn in Hget. rewrite bool_decide_eq_false_2 in Hget by done.
  eexists. split; [exact Hget|]. cbn. split_and!; [done| |].
  - by rewrite lookup_insert_eq.
  - split_and!; [done| |]; cbn; rewrite Ho, effective_dir_settled.
    + unfold absent.
      rewrite (os_Stat_insert_other m1 _ (cache_file (effective_dir (omni m)) db table)
                 (effective_dir (omni m)) (File (json_Marshal (json_Unmarshal body).1)));
        [done|done|apply cache_file_not_above].
    + apply present_not_absent. cbn. rewrite lookup_insert_eq. by eexists.
Qed.

End SchemaFetch.

Section CatalogRows.
Context `{Runtime}.

(** The rows of a catalog answer, taken one after the other. *)
Lemma catalogRows_listing (types : gmap string value) res cols :
  catalog_lists res cols →
  ∃ types', catalogRows types res = Ok types' ∧
    (∀ k, k ∉ cols.*1 → types' !! k = types !! k) ∧
    (∀ pre cn dt post, cols = pre ++ (cn, dt) :: post → cn ∉ post.*1 →
       types' !! cn = Some (VString (typeTag dt))) ∧
    dom types' = dom types ∪ list_to_set cols.*1.
Proof.
  intros Hl. revert types.
  induction Hl as [|v [cn dt] res cols (r & -> & Hdt & Hcn) Hl IH]; intros types.
  { exists types. split_and!; [done..| |cbn; by rewrite union_empty_r_L].
    intros pre cn dt post Heq. by destruct pre. }
  cbn in Hdt, Hcn.
  destruct (IH (<[cn := VString (typeTag dt)]> types)) as (types' & Hrun & Hframe & Hlast & Hdom).
  exists types'. split_and!.
  - cbn. unfold catalogRow, index. rewrite Hdt, Hcn. cbn. done.
  - intros k Hk. cbn in Hk. apply not_elem_of_cons in Hk as [Hne Hk].
    rewrite (Hframe k Hk). by apply lookup_insert_ne.
  - intros [|c pre] cn' dt' post Heq Hpost; cbn in Heq; inversion Heq; subst.
    + rewrite (Hframe cn' Hpost). apply lookup_insert_eq.
    + by eapply Hlast.
  - rewrite Hdom, dom_insert_L. cbn.
    by rewrite (assoc_L (∪)), (comm_L (∪) (dom types)).
Qed.

Lemma catalogRows_malformed (types : gmap string value) res :
  (¬ ∃ cols, catalog_lists res cols) → catalogRows types res = Panic.
Proof.
  revert types. induction res as [|v res IH]; intros types Hno.
  { destruct Hno. exists []. constructor. }
  cbn. unfold catalogRow.
  destruct v as [| | | | | | |r| |]; try done. cbn. unfold index.
  destruct (r !! "DataType") as [[| | | | |dt| | | |]|] eqn:Hdt; try done. cbn.
  destruct (r !! "ColumnName") as [[| |cn| | | | | | |]|] eqn:Hcn; try done. cbn.
  apply IH. intros [cols Hl]. apply Hno. exists ((cn, dt) :: cols).
  constructor; [|done]. by exists r.
Qed.

(** X9.  What the fetch caches.  The tags go into the decoded catalog answer
    itself, one listed column after the other, and the encoding of the
    result is the cache file: whatever the answer holds under a key that is
    no listed column (its [rowset], for one) is cached along with the tags,
    and a column listed more than once has the tag of its last listing. *)
Theorem catalog_tags_in_listing_order m req db table body res cols :
  cache_miss m req db table →
  cache_file (effective_dir (omni m)) db table ∉ sealed m →
  url_Parse_ok (catalog_url (omni m) db table) = true →
  catalog_answer m db table = inl body →
  generateRetval (json_Unmarshal body).1 = Ok res →
  catalog_lists res cols →
  ∃ m' types',
    getPayloadStructure req m = (m', Ok tt) ∧
    nodes m' !! cache_file (effective_dir (omni m)) db table
      = Some (File (json_Marshal types')) ∧
    (∀ k, k ∉ cols.*1 → types' !! k = (json_Unmarshal body).1 !! k) ∧
    (∀ pre cn dt post, cols = pre ++ (cn, dt) :: post → cn ∉ post.*1 →
       types' !! cn = Some (VString (typeTag dt))) ∧
    dom types' = dom (json_Unmarshal body).1 ∪ list_to_set cols.*1.
Proof.
  intros Hmiss Hfree Hurl Hans Hres Hcols.
  destruct (getPayloadStructure_miss m req db table Hmiss)
    as (m1 & _ & _ & _ & _ & _ & _ & _ & Hget).
  cbn zeta in Hget. rewrite Hurl, Hans, Hres in Hget.
  destruct (catalogRows_listing (json_Unmarshal body).1 res cols Hcols)
    as (types' & Hrows & Hframe & Hlast & Hdom).
  rewrite Hrows, bool_decide_eq_false_2 in Hget by done.
  eexists _, types'. split; [exact Hget|]. cbn. by rewrite lookup_insert_eq.
Qed.

(** X10.  The rows of a catalog answer are taken on trust.  When the table's
    cache file is missing, with nothing in the way to it, and some row of
    the catalog's answer is not an object with a numeric [DataType] and a
    textual [ColumnName], the lookup panics: the catalog query has been
    sent, and no cache file is written. *)
Theorem malformed_catalog_row_panics m req db table body res :
  cache_miss m req db table →
  url_Parse_ok (catalog_url (omni m) db table) = true →
  catalog_answer m db table = inl body →
  generateRetval (json_Unmarshal body).1 = Ok res →
  (¬ ∃ cols, catalog_lists res cols) →
  (getPayloadStructure req m).2 = Panic ∧
  wire (getPayloadStructure req m).1 = wire m ++ [catalog_request (omni m) db table] ∧
  nodes (getPayloadStructure req m).1 !! cache_file (effective_dir (omni m)) db table = None.
Proof.
  intros Hmiss Hurl Hans Hres Hbad.
  destruct (getPayloadStructure_miss m req db table Hmiss)
    as (m1 & _ & _ & _ & _ & _ & Hn & _ & Hget).
  cbn zeta in Hget. rewrite Hurl, Hans, Hres in Hget.
  rewrite (catalogRows_malformed _ res Hbad) in Hget. rewrite Hget. by cbn.
Qed.

End CatalogRows.

(** ** More about the payload synthesis *)

Section MoreSynthesis.
Context `{Runtime}.
Implicit Types (types : gmap string value) (b : bufs) (k : string) (v : value).

(** X11.  A write without columns.  With an entry for the table, whatever it
    holds, [generatePayload] returns nil and leaves the payload with no
    column descriptor and the one row, empty. *)
Theorem empty_column_data m req order db table :
  has_entry m req db table →
  ColumnData req = ∅ →
  range_order (ColumnData req) order →
  generatePayload order (m, req) =
    ((settled m, set_Payload (payload_of {| b_coldesc := []; b_rows := [∅] |}) req), Ok tt).
Proof.
  intros Hentry Hcd Hp. unfold range_order in Hp.
  rewrite Hcd, map_to_list_empty in Hp. apply Permutation_nil_r in Hp as ->.
  rewrite (generatePayload_entry m req db table [] Hentry). cbn.
  unfold initial_bufs. by rewrite Hcd.
Qed.

Lemma eq_string_false (x : value) lit : x ≠ VString lit → eq_string x lit = false.
Proof.
  intros Hne. destruct x; try done. cbn. apply String.eqb_neq. congruence.
Qed.

(** X12.  Only the tags [integer] and [utc] coerce.  When the loop gets to a
    column, the schema's value for it decides: nil (no such key, or the
    key with null) rejects the column as not found; any other value that
    is not one of the two tags, be it [string], another text or no text at
    all, goes into the descriptor as it is, and the raw value into the row
    unchanged. *)
Theorem only_integer_and_utc_coerce types req order k v i b post :
  range_order (ColumnData req) order →
  reaches types req order k v i b post →
  (index types k = VNil →
     columnStep types i k v b = (b, Err (errors_New ("Column not found: " +:+ k)))) ∧
  (index types k ≠ VNil → index types k ≠ VString "integer" →
   index types k ≠ VString "utc" →
     columnStep types i k v b = (stored types i k v b, Ok tt) ∧
     b_coldesc (stored types i k v b) !! i
       = Some {[ "type" := index types k; "name" := VString k ]}).
Proof.
  intros Hp Hr. destruct (reaches_ready _ _ _ _ _ _ _ _ Hp Hr) as [Hready _].
  split.
  - intros Hnil. apply columnStep_absent. by rewrite Hnil.
  - intros Hnn Hi Hu.
    assert (is_nil (index types k) = false) by (by destruct (index types k)).
    rewrite columnStep_spec by done. unfold columnValue, numeric.
    rewrite (eq_string_false _ "integer"), (eq_string_false _ "utc") by done.
    cbn. split; [reflexivity|].
    destruct Hready as [Hlt _]. by rewrite list_lookup_insert_eq by done.
Qed.

(** One column, as a string and as the int the string parses to. *)
Lemma columnStep_string_int types i k s n b :
  numeric types k = true →
  strconv_Atoi s = Some n →
  columnStep types i k (VString s) b = columnStep types i k (VInt n) b.
Proof.
  unfold numeric. intros Hnum Hs. unfold columnStep. rewrite Hnum.
  destruct (is_nil (index types k)); [done|].
  unfold mbind, prog_bind, lift.
  destruct (set_coldesc i ∅ b) as [b1 [[]|e|]]; [|done..].
  destruct (put_coldesc i "type" _ b1) as [b2 [[]|e|]]; [|done..].
  destruct (put_coldesc i "name" _ b2) as [b3 [[]|e|]]; [|done..].
  cbn. by rewrite Hs.
Qed.

Lemma rangeColumns_as_int types k s n order i b :
  numeric types k = true →
  strconv_Atoi s = Some n →
  (∀ v, (k, v) ∈ order → v = VString s) →
  rangeColumns types (as_int k n order) i b = rangeColumns types order i b.
Proof.
  intros Hnum Hs. revert i b.
  induction order as [|[k' v'] rest IH]; intros i b Hval; [done|].
  assert (Hrest : ∀ v, (k, v) ∈ rest → v = VString s).
  { intros v Hin. apply Hval. by right. }
  cbn. destruct (decide (k' = k)) as [->|Hne]; cbn.
  - rewrite (Hval v') by left. unfold mbind, prog_bind.
    rewrite (columnStep_string_int types i k s n b) by done.
    destruct (columnStep _ _ _ _ _) as [b1 [[]|e|]]; [|done..].
    by apply IH.
  - unfold mbind, prog_bind. destruct (columnStep _ _ _ _ _) as [b1 [[]|e|]]; [|done..].
    by apply IH.
Qed.

Lemma range_order_as_int (cd : gmap string value) k s n order :
  cd !! k = Some (VString s) →
  range_order cd order →
  range_order (<[k := VInt n]> cd) (as_int k n order).
Proof.
  intros Hk Hp. unfold range_order in *.
  rewrite <- (insert_delete_eq cd k (VInt n)).
  rewrite map_to_list_insert by apply lookup_delete_eq.
  rewrite <- (insert_delete_id cd k (VString s)) in Hp by done.
  rewrite map_to_list_insert in Hp by apply lookup_delete_eq.
  unfold as_int. rewrite Hp. cbn. rewrite decide_True by done.
  constructor. erewrite list_fmap_ext; [by rewrite list_fmap_id|].
  intros j [k' v'] Hj. cbn. rewrite decide_False; [done|].
  intros ->. apply list_elem_of_lookup_2, elem_of_map_to_list in Hj.
  by rewrite lookup_delete_eq in Hj.
Qed.

(** X13.  The string form and the int form of a number agree.  In a column
    declared [integer] or [utc], a string that [strconv.Atoi] parses is
    stored as the very int it parses to: the loop body does to the string
    what it does to that int, and a request with the string synthesizes
    the payload, or fails, as the request with the int in its place
    does. *)
Theorem string_and_int_forms_agree m req order types k s n :
  schema_cached m req types →
  range_order (ColumnData req) order →
  ColumnData req !! k = Some (VString s) →
  numeric types k = true →
  strconv_Atoi s = Some n →
  let req' := set_ColumnData (<[k := VInt n]> (ColumnData req)) req in
  (∀ i b, columnStep types i k (VString s) b = columnStep types i k (VInt n) b) ∧
  range_order (ColumnData req') (as_int k n order) ∧
  (generatePayload (as_int k n order) (m, req')).2 = (generatePayload order (m, req)).2 ∧
  Payload (generatePayload (as_int k n order) (m, req')).1.2
    = Payload (generatePayload order (m, req)).1.2.
Proof.
  intros Hc Hp Hk Hnum Hs req'.
  assert (Hc' : schema_cached m req' types) by done.
  assert (Hinit : initial_bufs req' = initial_bufs req).
  { unfold initial_bufs. cbn.
    rewrite <- !size_dom, dom_insert_lookup_L; [done|by eexists]. }
  split; [intros i b; by apply columnStep_string_int|].
  split; [by apply (range_order_as_int _ _ s)|].
  rewrite (generatePayload_cached m req' types _ Hc'),
          (generatePayload_cached m req types _ Hc), Hinit.
  rewrite (rangeColumns_as_int types k s n order) by
    (try done; intros v Hin; apply (range_order_elem _ _ _ _ Hp) in Hin; congruence).
  by destruct (rangeColumns types order 0 (initial_bufs req)) as [b1 r].
Qed.

End MoreSynthesis.

Section Order.
Context `{Runtime}.
Implicit Types (types : gmap string value) (b : bufs) (k : string) (v : value).

(** The loop accepts an entry when the schema knows the column and the
    value can be stored. *)
Lemma rangeColumns_accepts types order i b :
  (i + length order ≤ length (b_coldesc b))%nat →
  (∃ row, b_rows b = [row]) →
  (∀ k v, (k, v) ∈ order →
     is_nil (index types k) = false ∧ ∃ x, columnValue types k v = Ok x) →
  ∃ b', rangeColumns types order i b = (b', Ok tt).
Proof.
  revert i b. induction order as [|[k v] rest IH]; intros i b Hlen Hrows Hall.
  { by exists b. }
  cbn in Hlen. destruct (Hall k v) as (Hnn & x & Hx); [by left|].
  assert (Hready : ready i b) by (split; [lia|done]).
  cbn. unfold mbind, prog_bind. rewrite columnStep_spec, Hx by done.
  destruct Hrows as [row Hrow].
  apply IH.
  - cbn. rewrite length_insert. lia.
  - cbn. rewrite Hrow. by eexists.
  - intros k' v' Hin. apply Hall. by right.
Qed.

(** The descriptors and the row that a finished loop leaves, from fresh
    slices. *)
Lemma rangeColumns_result types req order b :
  range_order (ColumnData req) order →
  rangeColumns types order 0 (initial_bufs req) = (b, Ok tt) →
  b_coldesc b = descriptor types <$> order.*1 ∧
  (∃ row, b_rows b = [row] ∧
     ∀ k, row !! k = match ColumnData req !! k with
                     | Some v => match columnValue types k v with
                                 | Ok x => Some x
                                 | _ => None
                                 end
                     | None => None
                     end) ∧
  (∀ k v, (k, v) ∈ order →
     is_nil (index types k) = false ∧ ∃ x, columnValue types k v = Ok x).
Proof.
  intros Hp Hrun.
  destruct (initial_ready req order Hp) as [Hlen0 Hrow0].
  destruct (rangeColumns_Ok _ _ _ _ _ Hlen0 Hrow0 Hrun)
    as (L & [row' Hrow'] & _ & Desc & Frame & Known & Vals).
  cbn in L. rewrite length_replicate in L.
  pose proof (range_order_length _ _ Hp) as Hlen.
  pose proof (range_order_NoDup _ _ Hp) as Hnd.
  assert (Hrow : the_row b = row') by (unfold the_row; by rewrite Hrow').
  split_and!.
  - apply list_eq. intros j. rewrite !list_lookup_fmap.
    destruct (order !! j) as [[k v]|] eqn:Hj; cbn.
    + by apply (Desc j k v).
    + apply lookup_ge_None. apply lookup_ge_None in Hj. lia.
  - exists row'. split; [done|]. intros k.
    destruct (ColumnData req !! k) as [v|] eqn:Hk.
    + apply (range_order_elem _ _ _ _ Hp) in Hk.
      destruct (Vals Hnd k v Hk) as (x & -> & Hx). by rewrite <- Hrow.
    + rewrite <- Hrow, Frame; [done|].
      rewrite (range_order_keys _ _ _ Hp), Hk. by intros [? ?].
  - intros k v Hin. split; [by eapply Known|].
    destruct (Vals Hnd k v Hin) as (x & Hx & _). by exists x.
Qed.

(** X14.  The order in which [range] visits the columns decides the order of
    the descriptors and which error a rejected request gets, and nothing
    else: for two orders over the same columns, the synthesis succeeds for
    both or for neither, and when it does the two payloads hold the same
    row and the same descriptors, up to their order. *)
Theorem synthesis_is_order_independent m req types order1 order2 :
  schema_cached m req types →
  range_order (ColumnData req) order1 →
  range_order (ColumnData req) order2 →
  let r1 := generatePayload order1 (m, req) in
  let r2 := generatePayload order2 (m, req) in
  (r1.2 = Ok tt ↔ r2.2 = Ok tt) ∧
  (r1.2 = Ok tt →
     payload_rows (Payload r1.1.2) = payload_rows (Payload r2.1.2) ∧
     payload_coldesc (Payload r1.1.2) ≡ₚ payload_coldesc (Payload r2.1.2)).
Proof.
  intros Hc Hp1 Hp2. cbn zeta.
  assert (Hp12 : order1 ≡ₚ order2) by (unfold range_order in *; by rewrite Hp1, Hp2).
  assert (Hto : ∀ o o', range_order (ColumnData req) o → range_order (ColumnData req) o' →
            o ≡ₚ o' →
            ∀ b, rangeColumns types o 0 (initial_bufs req) = (b, Ok tt) →
            ∃ b', rangeColumns types o' 0 (initial_bufs req) = (b', Ok tt)).
  { intros o o' Ho Ho' Hperm b Hrun.
    destruct (rangeColumns_result types req o b Ho Hrun) as (_ & _ & Hall).
    destruct (initial_ready req o' Ho') as [Hlen Hrow].
    apply rangeColumns_accepts; [done..|].
    intros k v Hin. apply Hall. by rewrite Hperm. }
  rewrite !(generatePayload_cached m req types _ Hc).
  destruct (rangeColumns types order1 0 (initial_bufs req)) as [b1 [[]|e1|]] eqn:H1;
    destruct (rangeColumns types order2 0 (initial_bufs req)) as [b2 [[]|e2|]] eqn:H2;
    cbn;
    try (destruct (Hto order1 order2 Hp1 Hp2 Hp12 b1 H1) as [b' Hb']; congruence);
    try (destruct (Hto order2 order1 Hp2 Hp1 (symmetry Hp12) b2 H2) as [b' Hb']; congruence);
    try (split; [split; intros; done|intros; done]).
  split; [done|]. intros _.
  destruct (rangeColumns_result types req order1 b1 Hp1 H1) as (Hd1 & (row1 & Hr1 & Hv1) & _).
  destruct (rangeColumns_result types req order2 b2 Hp2 H2) as (Hd2 & (row2 & Hr2 & Hv2) & _).
  rewrite !payload_rows_of, !payload_coldesc_of. split.
  - rewrite Hr1, Hr2. f_equal. apply map_eq. intros k. by rewrite Hv1, Hv2.
  - rewrite Hd1, Hd2. by rewrite Hp12.
Qed.

End Order.

Section Failures.
Context `{Runtime}.
Implicit Types (types : gmap string value) (b : bufs) (k : string) (v : value).

(** How the loop body can fail on a column the schema knows. *)
Lemma columnValue_fails types k v :
  genuine v →
  match columnValue types k v with
  | Ok _ => True
  | Err e =>
      numeric types k = true ∧
      ((∃ s t, v = VString s ∧ strconv_Atoi s = None ∧ index types k = VString t ∧
               e = errors_New ("Couldn't convert column value to integer: "
                               +:+ s +:+ " (" +:+ t +:+ ")")) ∨
       (∃ ty, reflect_TypeOf v = Some ty ∧
              (ty ∉ ["string"; "int64"; "float64"; "int"]) ∧
              e = errors_New ("Couldn't convert given parameter: " +:+ k
                              +:+ " which is of type " +:+ ty)))
  | Panic => numeric types k = true ∧ v = VNil
  end.
Proof.
  intros Hg. unfold columnValue. destruct (numeric types k) eqn:Hnum; [|done].
  assert (Htag : ∃ t, index types k = VString t).
  { unfold numeric in Hnum. destruct (index types k); try done. by eexists. }
  destruct Htag as [t Ht].
  destruct v as [|x|s|n|n|f|l|mp|l|ty repr]; cbn; try done.
  - split; [done|]. right. eexists. split; [done|]. split; [|done].
    rewrite !elem_of_cons, elem_of_nil. intros [?|[?|[?|[?|[]]]]]; done.
  - destruct (strconv_Atoi s) eqn:Hs; [done|]. rewrite Ht. cbn.
    split; [done|]. left. by exists s, t.
  - split; [done|]. right. eexists. split; [done|]. split; [|done].
    rewrite !elem_of_cons, elem_of_nil. intros [?|[?|[?|[?|[]]]]]; done.
  - split; [done|]. right. eexists. split; [done|]. split; [|done].
    rewrite !elem_of_cons, elem_of_nil. intros [?|[?|[?|[?|[]]]]]; done.
  - split; [done|]. right. eexists. split; [done|]. split; [|done].
    rewrite !elem_of_cons, elem_of_nil. intros [?|[?|[?|[?|[]]]]]; done.
  - cbn in Hg. unfold embedded_types in Hg.
    assert (String.eqb ty "string" = false ∧ String.eqb ty "int64" = false ∧
            String.eqb ty "float64" = false ∧ String.eqb ty "int" = false)
      as (E1 & E2 & E3 & E4).
    { split_and!; apply String.eqb_neq; intros ->; apply Hg;
        rewrite !elem_of_cons; auto 10. }
    rewrite E1, E2, E3, E4. split; [done|]. right. exists ty. split; [done|].
    split; [|done]. intros Hin. apply Hg. revert Hin.
    rewrite !elem_of_cons, !elem_of_nil. intros [->|[->|[->|[->|[]]]]]; auto 10.
Qed.

(** A loop that does not finish stopped at one of its entries. *)
Lemma rangeColumns_stops types order i b b' r :
  (i + length order ≤ length (b_coldesc b))%nat →
  (∃ row, b_rows b = [row]) →
  rangeColumns types order i b = (b', r) →
  r ≠ Ok tt →
  ∃ k v, (k, v) ∈ order ∧
    ((is_nil (index types k) = true ∧ r = Err (errors_New ("Column not found: " +:+ k))) ∨
     (is_nil (index types k) = false ∧
      match columnValue types k v with
      | Ok _ => False
      | Err e => r = Err e
      | Panic => r = Panic
      end)).
Proof.
  revert i b. induction order as [|[k v] rest IH]; intros i b Hlen Hrows Hrun Hne.
  { cbn in Hrun. inversion Hrun; by subst. }
  cbn in Hrun, Hlen. unfold mbind, prog_bind in Hrun.
  assert (Hready : ready i b) by (split; [lia|done]).
  destruct (is_nil (index types k)) eqn:Hn.
  { rewrite columnStep_absent in Hrun by done. inversion Hrun; subst.
    exists k, v. split; [by left|]. by left. }
  rewrite columnStep_spec in Hrun by done.
  destruct (columnValue types k v) as [x|e|] eqn:Hx.
  - destruct Hrows as [row Hrow].
    destruct (IH (S i) (stored types i k x b)) as (k' & v' & Hin & Hwhy);
      [cbn; rewrite length_insert; lia | cbn; rewrite Hrow; by eexists | done | done |].
    exists k', v'. split; [by right|done].
  - inversion Hrun; subst. exists k, v. split; [by left|]. right. by rewrite Hx.
  - inversion Hrun; subst. exists k, v. split; [by left|]. right. by rewrite Hx.
Qed.

(** X26.  Why a synthesis from a cached schema fails.  Every error of
    [generatePayload] is about one column of the request: the column is
    not in the schema, or it is numeric and its string does not parse, or
    it is numeric and its value is of a type the switch has no case for.
    And it panics for one reason only, a nil value in a numeric column:
    no index is out of range and no type assertion fails. *)
Theorem cached_synthesis_failures m req order types :
  schema_cached m req types →
  range_order (ColumnData req) order →
  (∀ k v, ColumnData req !! k = Some v → genuine v) →
  (∀ e, (generatePayload order (m, req)).2 = Err e →
     ∃ k v, ColumnData req !! k = Some v ∧
       ((index types k = VNil ∧ e = errors_New ("Column not found: " +:+ k)) ∨
        (numeric types k = true ∧
         ∃ s t, v = VString s ∧ strconv_Atoi s = None ∧ index types k = VString t ∧
                e = errors_New ("Couldn't convert column value to integer: "
                                +:+ s +:+ " (" +:+ t +:+ ")")) ∨
        (numeric types k = true ∧
         ∃ ty, reflect_TypeOf v = Some ty ∧
               (ty ∉ ["string"; "int64"; "float64"; "int"]) ∧
               e = errors_New ("Couldn't convert given parameter: " +:+ k
                               +:+ " which is of type " +:+ ty)))) ∧
  ((generatePayload order (m, req)).2 = Panic →
     ∃ k, ColumnData req !! k = Some VNil ∧ numeric types k = true).
Proof.
  intros Hc Hp Hg.
  rewrite (generatePayload_cached m req types order Hc).
  destruct (rangeColumns types order 0 (initial_bufs req)) as [b' r] eqn:Hrun. cbn.
  destruct (initial_ready req order Hp) as [Hlen0 Hrow0].
  pose proof (rangeColumns_stops types order 0 (initial_bufs req) b' r Hlen0 Hrow0 Hrun)
    as Hstops.
  split.
  - intros e ->. destruct Hstops as (k & v & Hin & Hwhy); [done|].
    apply (range_order_elem _ _ _ _ Hp) in Hin.
    exists k, v. split; [done|].
    destruct Hwhy as [[Hn [= <-]]|[Hn Hval]].
    + left. split; [|done]. by destruct (index types k).
    + pose proof (columnValue_fails types k v (Hg k v Hin)) as Hf.
      destruct (columnValue types k v) as [x|e'|]; [done| |done].
      inversion Hval; subst e'. destruct Hf as [Hnum [Hs|Ht]]; auto.
  - intros ->. destruct Hstops as (k & v & Hin & Hwhy); [done|].
    apply (range_order_elem _ _ _ _ Hp) in Hin.
    destruct Hwhy as [[Hn [=]]|[Hn Hval]].
    pose proof (columnValue_fails types k v (Hg k v Hin)) as Hf.
    destruct (columnValue types k v) as [x|e'|]; [done|done|].
    destruct Hf as [Hnum ->]. by exists k.
Qed.

End Failures.

(** ** The dispatch *)

Section Dispatch.
Context `{Runtime}.

(** [sendOMNIbus], case by case. *)
Lemma sendOMNIbus_spec req m :
  sendOMNIbus req m =
    if supported (Method req) then
      if url_Parse_ok (table_url (omni m) req) then
        (set_wire (wire m ++ [table_request (omni m) req]) m,
         match client_Do (wire m) (client_Timeout (omni m)) (table_request (omni m) req) with
         | inr err => Err (url_Error err)
         | inl body => generateRetval (json_Unmarshal body).1
         end)
      else (m, Panic)
    else (m, Ok []).
Proof.
  unfold sendOMNIbus, unwrap, http_NewRequest, http_Do, supported, table_request,
         table_url, writes.
  run. cbn.
  destruct (String.eqb (Method req) "GET") eqn:E1;
    [apply String.eqb_eq in E1|
     destruct (String.eqb (Method req) "DELETE") eqn:E2;
       [apply String.eqb_eq in E2|
        destruct (String.eqb (Method req) "PATCH") eqn:E3;
          [apply String.eqb_eq in E3|
           destruct (String.eqb (Method req) "POST") eqn:E4;
             [apply String.eqb_eq in E4|done]]]];
    cbn;
    (destruct (url_Parse_ok _); cbn; [|done]);
    repeat match goal with
           | E : Method req = _ |- _ => rewrite E; clear E
           end; cbn;
    by destruct (client_Do _ _ _).
Qed.

Lemma writes_supported method : writes method = true → supported method = true.
Proof.
  unfold writes, supported. destruct (String.eqb method "POST"); [by rewrite !orb_true_r|].
  cbn. intros ->. by rewrite !orb_true_r.
Qed.

Lemma SendRequest_read m req order :
  writes (Method req) = false → SendRequest order req m = sendOMNIbus req m.
Proof. unfold writes, SendRequest. by intros ->. Qed.

Lemma table_request_settled m req :
  table_request (omni (settled m)) req = table_request (omni m) req.
Proof.
  destruct (settled_config m) as (HU & Hu & Hp & _).
  unfold table_request, table_url. by rewrite HU, Hu, Hp.
Qed.

Lemma table_url_settled m req p :
  table_url (omni (settled m)) (set_Payload p req) = table_url (omni m) req.
Proof.
  destruct (settled_config m) as (HU & _). unfold table_url. cbn. by rewrite HU.
Qed.

(** X15.  A method [sendOMNIbus] has no case for is passed over in silence:
    [SendRequest] sends nothing, touches nothing and returns the empty
    Result with no error.  The comparison is exact: [get] is no [GET]. *)
Theorem unsupported_method_is_ignored m req order :
  supported (Method req) = false →
  SendRequest order req m = (m, Ok []).
Proof.
  intros Hs.
  assert (Hw : writes (Method req) = false).
  { destruct (writes (Method req)) eqn:Hw; [|done].
    apply writes_supported in Hw. congruence. }
  by rewrite (SendRequest_read m req order Hw), sendOMNIbus_spec, Hs.
Qed.

(** X16.  Reads and deletes stay away from the cache.  For any method but
    [POST] and [PATCH], [SendRequest] leaves the disk and the
    configuration as they are (the cache directory is neither looked for
    nor created, and no default is filled in) and sends at most its own
    request. *)
Theorem reads_leave_cache_alone m req order :
  writes (Method req) = false →
  let m' := (SendRequest order req m).1 in
  nodes m' = nodes m ∧ omni m' = omni m ∧ sealed m' = sealed m ∧
  (wire m' = wire m ∨ wire m' = wire m ++ [table_request (omni m) req]).
Proof.
  intros Hw. cbn zeta. rewrite (SendRequest_read m req order Hw), sendOMNIbus_spec.
  destruct (supported _); [|by auto].
  destruct (url_Parse_ok _); cbn; by auto.
Qed.

(** X17.  What [sendOMNIbus] puts on the wire.  A request it sends carries the
    method of the [Request], the basic-auth credentials of the
    configuration and [Close]; for [GET] and [DELETE] no body and no
    content type, for [POST] and [PATCH] the encoding of [req.Payload] as
    body, with content type [application/json].  The URL is the
    configured one followed by the table path and, except for [POST], the
    escaped filter; [GET] adds the comma-joined column list. *)
Theorem sent_request_shape req m r :
  wire (sendOMNIbus req m).1 = wire m ++ [r] →
  rq_method r = Method req ∧ supported (Method req) = true ∧
  rq_auth r = Some (User (omni m), Password (omni m)) ∧
  rq_close r = true ∧
  (writes (Method req) = true →
     rq_body r = Some (json_Marshal (Payload req)) ∧
     rq_content_type r = Some "application/json") ∧
  (writes (Method req) = false → rq_body r = None ∧ rq_content_type r = None) ∧
  (Method req = "GET" →
     rq_url r = URL (omni m) +:+ "/" +:+ DBPath req +:+ "/?collist="
                +:+ strings_Join (Collist req) "," +:+ "&filter="
                +:+ url_QueryEscape (Filter req)) ∧
  (Method req = "DELETE" →
     rq_url r = URL (omni m) +:+ "/" +:+ DBPath req +:+ "/?filter="
                +:+ url_QueryEscape (Filter req)) ∧
  (Method req = "PATCH" →
     rq_url r = URL (omni m) +:+ "/" +:+ DBPath req +:+ "?filter="
                +:+ url_QueryEscape (Filter req)) ∧
  (Method req = "POST" → rq_url r = URL (omni m) +:+ "/" +:+ DBPath req).
Proof.
  rewrite sendOMNIbus_spec. intros Hsent.
  assert (Hr : supported (Method req) = true ∧ r = table_request (omni m) req).
  { destruct (supported _); [|cbn in Hsent].
    - destruct (url_Parse_ok _); cbn in Hsent.
      + apply app_inv_head in Hsent. by inversion Hsent.
      + rewrite <- (app_nil_r (wire m)) in Hsent at 1. by apply app_inv_head in Hsent.
    - rewrite <- (app_nil_r (wire m)) in Hsent at 1. by apply app_inv_head in Hsent. }
  destruct Hr as [Hs ->]. unfold table_request, table_url. cbn.
  split_and!; try done.
  - by intros ->.
  - by intros ->.
  - by intros ->.
  - by intros ->.
  - by intros ->.
  - by intros ->.
Qed.

(** X18.  A URL that does not parse is not noticed in time.  The error of
    [http.NewRequest] is dropped, the request is nil, and the first use of
    it panics: in [sendOMNIbus] for each of the four methods, and in the
    catalog query of [getPayloadStructure], which is made when the table's
    cache file is missing with nothing in the way to it.  Nothing has been
    sent, and no cache file written, by then. *)
Theorem unparseable_url_panics req m :
  (supported (Method req) = true →
   url_Parse_ok (table_url (omni m) req) = false →
     sendOMNIbus req m = (m, Panic)) ∧
  (∀ db table, cache_miss m req db table →
   url_Parse_ok (catalog_url (omni m) db table) = false →
     (getPayloadStructure req m).2 = Panic ∧
     wire (getPayloadStructure req m).1 = wire m ∧
     nodes (getPayloadStructure req m).1 !! cache_file (effective_dir (omni m)) db table
       = None).
Proof.
  split.
  - intros Hs Hurl. by rewrite sendOMNIbus_spec, Hs, Hurl.
  - intros db table Hmiss Hurl.
    destruct (getPayloadStructure_miss m req db table Hmiss)
      as (m1 & _ & _ & Hw1 & _ & _ & Hn & _ & Hget).
    cbn zeta in Hget. rewrite Hurl in Hget. by rewrite Hget.
Qed.

(** X19.  From the columns to the wire.  A write into a table with a cached
    schema, all of whose columns the loop accepts, sends exactly one
    request: its body is the encoding of the payload the loop has
    synthesized, and what [SendRequest] returns is the remote answer
    unwrapped, or the transport error. *)
Theorem write_sends_synthesized_payload m req order types b :
  schema_cached m req types →
  writes (Method req) = true →
  rangeColumns types order 0 (initial_bufs req) = (b, Ok tt) →
  url_Parse_ok (table_url (omni m) req) = true →
  let sent := table_request (omni m) (set_Payload (payload_of b) req) in
  rq_method sent = Method req ∧
  rq_body sent = Some (json_Marshal (payload_of b)) ∧
  payload_coldesc (payload_of b) = b_coldesc b ∧ payload_rows (payload_of b) = b_rows b ∧
  wire (SendRequest order req m).1 = wire m ++ [sent] ∧
  (SendRequest order req m).2 =
    match client_Do (wire m) (client_Timeout (omni m)) sent with
    | inr err => Err (url_Error err)
    | inl body => generateRetval (json_Unmarshal body).1
    end.
Proof.
  intros Hc Hw Hrun Hurl. cbn zeta.
  split; [done|]. split; [unfold table_request; cbn; by rewrite Hw|].
  split; [done|]. split; [done|].
  pose proof (generatePayload_cached m req types order Hc) as Hgen.
  rewrite Hrun in Hgen. cbn zeta in Hgen.
  unfold SendRequest. pose proof Hw as Hw'. unfold writes in Hw'. rewrite Hw', Hgen.
  rewrite sendOMNIbus_spec. cbn [Method set_Payload].
  rewrite (writes_supported _ Hw), table_url_settled, Hurl, table_request_settled.
  by rewrite !settled_wire, client_Timeout_settled.
Qed.

(** X20.  A write that is rejected is not sent.  When [generatePayload] fails,
    [SendRequest] returns its error (or panics as it did) and leaves the
    machine as the schema lookup left it: on the wire there is at most the
    catalog query, and no request to the table. *)
Theorem rejected_write_is_not_sent m req order :
  writes (Method req) = true →
  (generatePayload order (m, req)).2 ≠ Ok tt →
  let m' := (SendRequest order req m).1 in
  m' = (getPayloadStructure req m).1 ∧
  (∀ e, (generatePayload order (m, req)).2 = Err e → (SendRequest order req m).2 = Err e) ∧
  ((generatePayload order (m, req)).2 = Panic → (SendRequest order req m).2 = Panic) ∧
  (wire m' = wire m ∨
   ∃ db table, strings_Split (DBPath req) "/" = [db; table] ∧
               wire m' = wire m ++ [catalog_request (omni m) db table]).
Proof.
  intros Hw Hne. cbn zeta.
  rewrite (SendRequest_rejected m req order Hw Hne). cbn.
  rewrite generatePayload_machine.
  split_and!; [done| | |].
  - by intros e ->.
  - by intros ->.
  - destruct (getPayloadStructure_frame m req) as [_ [Hsame|(db & table & Hs & _ & Hsent)]];
      [by left|].
    right. exists db, table. by rewrite <- catalog_request_settled.
Qed.

(** X21.  [SendRequest] sends at most two requests, and in this order: the
    catalog query, for a write into a table without a cache file, and the
    request to the table.  The table request asks for the connection to be
    closed; the catalog query does not. *)
Theorem at_most_two_requests m req order :
  let m' := (SendRequest order req m).1 in
  wire m' = wire m ∨
  (∃ t, wire m' = wire m ++ [t] ∧ rq_method t = Method req ∧ rq_close t = true) ∨
  (∃ db table c,
     c = catalog_request (omni m) db table ∧
     strings_Split (DBPath req) "/" = [db; table] ∧
     writes (Method req) = true ∧
     nodes m !! cache_file (effective_dir (omni m)) db table = None ∧
     rq_method c = "GET" ∧ rq_close c = false ∧
     (wire m' = wire m ++ [c] ∨
      ∃ t, wire m' = wire m ++ [c; t] ∧ rq_method t = Method req ∧ rq_close t = true)).
Proof.
  cbn zeta.
  assert (Hsend : ∀ r m0, wire (sendOMNIbus r m0).1 = wire m0 ∨
            ∃ t, wire (sendOMNIbus r m0).1 = wire m0 ++ [t] ∧
                 rq_method t = Method r ∧ rq_close t = true).
  { intros r m0. rewrite sendOMNIbus_spec.
    destruct (supported _); [|by left]. destruct (url_Parse_ok _); [|by left].
    right. by eexists. }
  destruct (writes (Method req)) eqn:Hw.
  - pose proof (generatePayload_machine m req order) as Hm.
    destruct (getPayloadStructure_frame m req) as [_ Hlook]. cbn zeta in Hlook.
    rewrite <- Hm in Hlook. unfold SendRequest. pose proof Hw as Hw'.
    unfold writes in Hw'. rewrite Hw'.
    destruct (generatePayload order (m, req)) as [[m1 req1] [[]|e|]] eqn:Hgen; cbn in *.
    + assert (Hmeth : Method req1 = Method req).
      { unfold generatePayload, on_machine, on_payload, ioutil_ReadFile in Hgen.
        revert Hgen. run. cbn.
        destruct (getPayloadStructure req m) as [m2 [[]|e|]]; cbn; [|done..].
        destruct (at_index _ 0) as [db|e|]; cbn; [|done..].
        destruct (at_index _ 1) as [table|e|]; cbn; [|done..].
        destruct (rangeColumns _ _ _ _) as [b [[]|e|]]; [|done..].
        by intros [= _ <-]. }
      destruct (Hsend req1 m1) as [Hs|(t & Hs & Ht & Hcl)]; rewrite Hs, ?Hmeth in *.
      * destruct Hlook as [->|(db & table & Hsplit & Hnone & ->)]; [by left|].
        right. right. exists db, table, (catalog_request (omni m) db table).
        rewrite <- catalog_request_settled. split_and!; try done. by left.
      * destruct Hlook as [->|(db & table & Hsplit & Hnone & ->)].
        { right. left. by exists t. }
        right. right. exists db, table, (catalog_request (omni m) db table).
        rewrite <- catalog_request_settled. split_and!; try done.
        right. exists t. by rewrite <- app_assoc.
    + destruct Hlook as [->|(db & table & Hsplit & Hnone & ->)]; [by left|].
      right. right. exists db, table, (catalog_request (omni m) db table).
      rewrite <- catalog_request_settled. split_and!; try done. by left.
    + destruct Hlook as [->|(db & table & Hsplit & Hnone & ->)]; [by left|].
      right. right. exists db, table, (catalog_request (omni m) db table).
      rewrite <- catalog_request_settled. split_and!; try done. by left.
  - rewrite (SendRequest_read m req order Hw).
    destruct (Hsend req m) as [Hs|Hs]; auto.
Qed.

End Dispatch.

Section Fields.
Context `{Runtime}.

(** X22.  A read or a delete, from the request to the result: exactly one
    request goes out, also when it fails (nothing is tried twice), and
    [SendRequest] returns the transport error, the remote error of an
    exception, or the rows of the answer as they came. *)
Theorem read_returns_remote_rows m req order :
  supported (Method req) = true →
  writes (Method req) = false →
  url_Parse_ok (table_url (omni m) req) = true →
  let sent := table_request (omni m) req in
  let answer := client_Do (wire m) (client_Timeout (omni m)) sent in
  wire (SendRequest order req m).1 = wire m ++ [sent] ∧
  (∀ err, answer = inr err → (SendRequest order req m).2 = Err (url_Error err)) ∧
  (∀ body exc msg, answer = inl body →
     (json_Unmarshal body).1 !! "exception" = Some (VMap exc) →
     exc !! "message" = Some (VString msg) →
     (SendRequest order req m).2 = Err (errors_New ("OMNIbus: " +:+ msg))) ∧
  (∀ body rs rows, answer = inl body →
     (json_Unmarshal body).1 !! "exception" = None →
     (json_Unmarshal body).1 !! "rowset" = Some (VMap rs) →
     rs !! "rows" = Some (VSlice rows) →
     (SendRequest order req m).2 = Ok rows).
Proof.
  intros Hs Hw Hurl. cbn zeta.
  rewrite (SendRequest_read m req order Hw), sendOMNIbus_spec, Hs, Hurl. cbn.
  split_and!; [done| | |].
  - by intros err ->.
  - intros body exc msg -> Hexc Hmsg. unfold generateRetval, index.
    rewrite Hexc. cbn. by rewrite Hmsg.
  - intros body rs rows -> Hexc Hrs Hrows. unfold generateRetval.
    rewrite Hexc, Hrs. cbn. by rewrite Hrows.
Qed.

(** What [generatePayload] does depends on the table path and the column
    data of the request alone; the request it leaves is the one it got,
    with the payload put in once the schema was resolved. *)
Lemma generatePayload_fields m req req' order :
  DBPath req' = DBPath req →
  ColumnData req' = ColumnData req →
  (generatePayload order (m, req')).1.1 = (generatePayload order (m, req)).1.1 ∧
  (generatePayload order (m, req')).2 = (generatePayload order (m, req)).2 ∧
  ((generatePayload order (m, req)).2 = Ok tt →
     ∃ b, (generatePayload order (m, req)).1.2 = set_Payload (payload_of b) req ∧
          (generatePayload order (m, req')).1.2 = set_Payload (payload_of b) req').
Proof.
  intros Hpath Hcd.
  assert (Hget : getPayloadStructure req' m = getPayloadStructure req m).
  { unfold getPayloadStructure. by rewrite Hpath. }
  unfold generatePayload, on_machine, on_payload, ioutil_ReadFile. run. cbn.
  rewrite Hget, Hpath, Hcd.
  destruct (getPayloadStructure req m) as [m1 [[]|e|]]; cbn; [|done..].
  destruct (at_index _ 0) as [db|e|]; cbn; [|done..].
  destruct (at_index _ 1) as [table|e|]; cbn; [|done..].
  destruct (rangeColumns _ _ _ _) as [b [[]|e|]]; cbn; [|done..].
  split_and!; [done..|]. intros _. by exists b.
Qed.

Lemma sendOMNIbus_Payload r m p :
  writes (Method r) = false → sendOMNIbus (set_Payload p r) m = sendOMNIbus r m.
Proof.
  intros Hw. rewrite !sendOMNIbus_spec. unfold table_request, table_url.
  cbn [Method set_Payload DBPath Filter Collist]. by rewrite Hw.
Qed.

Lemma sendOMNIbus_ColumnData r m cd :
  sendOMNIbus (set_ColumnData cd r) m = sendOMNIbus r m.
Proof. by rewrite !sendOMNIbus_spec. Qed.

Lemma sendOMNIbus_Collist r m cl :
  Method r ≠ "GET" → sendOMNIbus (set_Collist cl r) m = sendOMNIbus r m.
Proof.
  intros Hget. apply String.eqb_neq in Hget.
  rewrite !sendOMNIbus_spec. unfold table_request, table_url.
  cbn [Method set_Collist DBPath Filter Payload]. by rewrite Hget.
Qed.

Lemma sendOMNIbus_Filter r m f :
  Method r = "POST" → sendOMNIbus (set_Filter f r) m = sendOMNIbus r m.
Proof.
  intros Hpost. rewrite !sendOMNIbus_spec. unfold table_request, table_url.
  cbn [Method set_Filter DBPath Collist Payload]. by rewrite Hpost.
Qed.

(** [SendRequest] on two requests that differ in a field which neither
    the payload synthesis nor the dispatch of their method reads. *)
Lemma SendRequest_fields m req req' order :
  Method req' = Method req →
  DBPath req' = DBPath req →
  ColumnData req' = ColumnData req →
  (∀ p m1, sendOMNIbus (set_Payload p req') m1 = sendOMNIbus (set_Payload p req) m1) →
  (writes (Method req) = false → sendOMNIbus req' m = sendOMNIbus req m) →
  SendRequest order req' m = SendRequest order req m.
Proof.
  intros Hmeth Hpath Hcd Hsent Hread. unfold SendRequest. rewrite Hmeth.
  destruct (String.eqb (Method req) "POST" || String.eqb (Method req) "PATCH") eqn:Hw;
    [|by apply Hread].
  destruct (generatePayload_fields m req req' order Hpath Hcd) as (Hm & Ho & Hb).
  destruct (generatePayload order (m, req)) as [[m1 r1] o1].
  destruct (generatePayload order (m, req')) as [[m2 r2] o2].
  cbn in Hm, Ho, Hb. subst m2 o2.
  destruct o1 as [[]|e|]; [|done..].
  destruct (Hb eq_refl) as (b & -> & ->). apply Hsent.
Qed.

(** X23.  The fields a method has no use for are not looked at.  Whatever the
    caller has put in [Payload] is ignored: a read does not send it and a
    write replaces it.  A read or a delete ignores the column data, every
    method but [GET] the column list, and [POST] the filter. *)
Theorem unused_fields_are_ignored m req order :
  (∀ p, SendRequest order (set_Payload p req) m = SendRequest order req m) ∧
  (writes (Method req) = false →
     ∀ cd order', SendRequest order' (set_ColumnData cd req) m = SendRequest order req m) ∧
  (Method req ≠ "GET" →
     ∀ cl, SendRequest order (set_Collist cl req) m = SendRequest order req m) ∧
  (Method req = "POST" →
     ∀ f, SendRequest order (set_Filter f req) m = SendRequest order req m).
Proof.
  split_and!.
  - intros p. apply SendRequest_fields; [done..| |].
    + done.
    + intros Hw. by apply sendOMNIbus_Payload.
  - intros Hw cd order'.
    rewrite (SendRequest_read m (set_ColumnData cd req) order' Hw),
            (SendRequest_read m req order Hw).
    apply sendOMNIbus_ColumnData.
  - intros Hget cl. apply SendRequest_fields; [done..| |].
    + intros p m1. by apply (sendOMNIbus_Collist (set_Payload p req)).
    + intros _. by apply sendOMNIbus_Collist.
  - intros Hpost f. apply SendRequest_fields; [done..| |].
    + intros p m1. by apply (sendOMNIbus_Filter (set_Payload p req)).
    + intros _. by apply sendOMNIbus_Filter.
Qed.

End Fields.

(** ** The timeout *)

Lemma digits2_pos_bound (m : positive) : (Z.pos m < 2 ^ Z.pos (digits2_pos m))%Z.
Proof.
  induction m as [m IH|m IH|]; cbn [digits2_pos]; [| |done].
  - rewrite Pos2Z.inj_succ, Z.pow_succ_r by lia. lia.
  - rewrite Pos2Z.inj_succ, Z.pow_succ_r by lia. lia.
Qed.

(** The mantissa of a binary64 number has at most 53 bits. *)
Lemma Prim2SF_mantissa f s m e : Prim2SF f = S754_finite s m e → (Z.pos m < 2 ^ 53)%Z.
Proof.
  intros Hf. pose proof (Prim2SF_valid f) as Hv. rewrite Hf in Hv.
  cbn in Hv. unfold bounded, canonical_mantissa, fexp in Hv.
  apply andb_true_iff in Hv as [Hc _]. apply Z.eqb_eq in Hc.
  pose proof (digits2_pos_bound m) as Hd.
  assert (Z.pos (digits2_pos m) ≤ 53)%Z by (unfold FloatOps.prec in Hc; lia).
  eapply Z.lt_le_trans; [exact Hd|]. apply Z.pow_le_mono_r; lia.
Qed.

(** A number strictly between -1 and 1 has integer part 0. *)
Lemma trunc_float64_small f :
  PrimFloat.ltb (-1) f = true → PrimFloat.ltb f 1 = true → trunc_float64 f = Some 0%Z.
Proof.
  intros Hlo Hhi.
  rewrite ltb_spec in Hlo. rewrite ltb_spec in Hhi. unfold SFltb in Hlo, Hhi.
  replace (Prim2SF 1) with (S754_finite false 4503599627370496 (-52)) in Hhi
    by (by vm_compute).
  replace (Prim2SF (-1)) with (S754_finite true 4503599627370496 (-52)) in Hlo
    by (by vm_compute).
  unfold trunc_float64.
  destruct (Prim2SF f) as [s|s| |s m e] eqn:Hf.
  - reflexivity.
  - destruct s; [cbn in Hhi|cbn in Hlo]; discriminate.
  - cbn in Hlo. discriminate.
  - pose proof (Prim2SF_mantissa f s m e Hf) as Hm.
    assert (Hpow : (2 ^ 52 = 4503599627370496)%Z) by (by vm_compute).
    remember 4503599627370496%positive as c eqn:Hc.
    assert (Hcases : (e < -52 ∨ e = -52 ∧ Z.pos m < 2 ^ 52)%Z).
    { unfold SFcompare in Hlo, Hhi. destruct s; cbv beta iota in Hlo, Hhi.
      - destruct (Z.compare_spec (-52) e) as [<-|Hlt|Hgt].
        + change (PosDef.Pos.compare_cont Eq c m) with (Pos.compare c m) in Hlo.
          destruct (Pos.compare_spec c m) as [Heq|Hl|Hg];
            [discriminate Hlo|discriminate Hlo|].
          right. split; [done|]. rewrite Hpow. exact (Pos2Z.pos_lt_pos _ _ Hg).
        + discriminate Hlo.
        + left. clear - Hgt. lia.
      - destruct (Z.compare_spec e (-52)) as [->|Hlt|Hgt].
        + change (PosDef.Pos.compare_cont Eq m c) with (Pos.compare m c) in Hhi.
          destruct (Pos.compare_spec m c) as [Heq|Hl|Hg];
            [discriminate Hhi| |discriminate Hhi].
          right. split; [done|]. rewrite Hpow. exact (Pos2Z.pos_lt_pos _ _ Hl).
        + by left.
        + discriminate Hhi. }
    clear Hlo Hhi Hpow Hf Hc c.
    assert (Hsmall : (e < 0 ∧ Z.pos m < 2 ^ (- e))%Z).
    { destruct Hcases as [He|[-> Hlt]]; [|done].
      split; [lia|]. eapply Z.lt_le_trans; [exact Hm|].
      apply Z.pow_le_mono_r; lia. }
    destruct Hsmall as [He Hlt]. f_equal.
    rewrite Z.shiftl_div_pow2 by lia. rewrite Z.div_small by lia. by destruct s.
Qed.

Section ClientTimeout.
Context `{Runtime}.

(** X24.  The timeout counts whole seconds.  [time.Duration(omni.Timeout) *
    time.Second] converts the float to an integer before it multiplies:
    the fraction of the configured seconds is lost, and a timeout
    strictly between -1 and 1 second, 0.5 for one, ends as 0, which the
    HTTP client takes as no timeout at all. *)
Theorem timeout_counts_whole_seconds o :
  (∀ z, exact_int (Timeout o) = Some z → (- 9223372036 ≤ z ≤ 9223372036)%Z →
     client_Timeout o = (z * 1000000000)%Z) ∧
  (PrimFloat.ltb (-1) (Timeout o) = true → PrimFloat.ltb (Timeout o) 1 = true →
     client_Timeout o = 0%Z).
Proof.
  assert (Hwhole : ∀ z, exact_int (Timeout o) = Some z →
            (- 9223372036 ≤ z ≤ 9223372036)%Z →
            client_Timeout o = (z * 1000000000)%Z).
  { intros z Hz Hr. unfold client_Timeout, int_of_float64, wrap64. rewrite Hz.
    rewrite Z.mod_small by lia. lia. }
  split; [done|]. intros Hlo Hhi. rewrite (Hwhole 0%Z); [done| |lia].
  unfold exact_int. by rewrite trunc_float64_small.
Qed.

End ClientTimeout.

(** ** Concrete runs *)

(** The schema of the demo installation is cached. *)
Lemma demo_cached (method : string) (cols : gmap string value) :
  @schema_cached demo_runtime demo_machine (demo_write method "alerts/status" cols)
    demo_schema.
Proof.
  exists "alerts", "status", "<schema>". repeat split; by eexists.
Defined.

Lemma range_order_singleton k v : range_order {[ k := v ]} [(k, v)].
Proof. unfold range_order. by rewrite map_to_list_singleton. Defined.

Lemma reaches_first `{Runtime} types req k v post :
  reaches types req ((k, v) :: post) k v 0 (initial_bufs req) post.
Proof. by exists []. Defined.





(** C5 fails on the code.  The column [Bogus] is not in the schema, yet the
    error names no such column: the loop got to [Severity] first, whose
    value does not parse. *)
Lemma unknown_column_counterexample :
  let cols : gmap string value :=
    {[ "Severity" := VString "high"; "Bogus" := VInt 1 ]} in
  let req := demo_write "POST" "alerts/status" cols in
  let order := [("Severity", VString "high"); ("Bogus", VInt 1)] in
  range_order cols order ∧
  demo_schema !! "Bogus" = None ∧
  (@generatePayload demo_runtime order (demo_machine, req)).2
    = Err (errors_New "Couldn't convert column value to integer: high (integer)").
Proof.
  intros cols req order. split; [|by vm_compute].
  unfold range_order. vm_compute. first [reflexivity | apply perm_swap].
Qed.

(** A column the schema does not have is rejected by name. *)
Lemma unknown_column_rejected_witness :
  let req := demo_write "PATCH" "alerts/status" {[ "Bogus" := VInt 1 ]} in
  (@generatePayload demo_runtime [("Bogus", VInt 1)] (demo_machine, req)).2
    = Err (errors_New "Column not found: Bogus").
Proof.
  intros req.
  destruct (@unknown_column_rejected demo_runtime demo_machine req [("Bogus", VInt 1)]
              demo_schema (demo_cached _ _) (range_order_singleton _ _))
    as (_ & Hnamed & _).
  exact (proj2 (Hnamed "Bogus" (VInt 1) 0%nat (initial_bufs req) []
                  (reaches_first _ _ _ _ _) eq_refl)).
Defined.


(** The path [alerts] has one segment: the path-format error, also when
    the cache directory is configured beneath a regular file, where
    [os.Stat] fails and [createCacheDir] lets it pass. *)
Lemma bad_table_path_rejected_witness :
  let req := demo_write "POST" "alerts" {[ "Severity" := VInt 4 ]} in
  (@SendRequest demo_runtime [("Severity", VInt 4)] req demo_machine).2
    = Err (errors_New "DBPath is not a path: Format db/table") ∧
  (@SendRequest demo_runtime [("Severity", VInt 4)] req demo_blocked).2
    = Err (errors_New "DBPath is not a path: Format db/table").
Proof.
  intros req.
  destruct (@bad_table_path_rejected demo_runtime demo_machine req
              [("Severity", VInt 4)]) as (_ & _ & _ & _ & _ & Hsend).
  { vm_compute. discriminate. }
  destruct (@bad_table_path_rejected demo_runtime demo_blocked req
              [("Severity", VInt 4)]) as (_ & _ & _ & _ & _ & Hsend').
  { vm_compute. discriminate. }
  destruct (Hsend (or_introl eq_refl)) as (_ & Hfmt & _).
  destruct (Hsend' (or_introl eq_refl)) as (_ & Hfmt' & _).
  split; [apply Hfmt|apply Hfmt']; stat_finds.
Defined.

(** C7 fails on the code.  The path [alerts] has one segment, and the
    synthesis fails, but not with the path-format error: the cache
    directory is missing and cannot be made, and [createCacheDir], which
    runs first, returns its own error. *)
Lemma bad_table_path_counterexample :
  let req := demo_write "POST" "alerts" {[ "Severity" := VInt 4 ]} in
  strings_Split (DBPath req) "/" = ["alerts"] ∧
  (@generatePayload demo_runtime [("Severity", VInt 4)] (demo_sealed, req)).2
    = Err (errors_New "Couldn't create payload structure cache directory") ∧
  (@SendRequest demo_runtime [("Severity", VInt 4)] req demo_sealed).2
    ≠ Err (errors_New "DBPath is not a path: Format db/table").
Proof. vm_compute. repeat split. discriminate. Qed.

(** The cached entry of [alerts.status] is there after an insert, and no
    request went out while the schema was resolved. *)
Lemma cache_entry_is_permanent_witness :
  let req := demo_write "POST" "alerts/status" {[ "Severity" := VInt 4 ]} in
  let order := [("Severity", VInt 4)] in
  nodes (@SendRequest demo_runtime order req demo_machine).1
    !! "cache/alerts.status.json" = Some (File "<schema>") ∧
  wire (@generatePayload demo_runtime order (demo_machine, req)).1.1 = [].
Proof.
  intros req order.
  destruct (@cache_entry_is_permanent demo_runtime demo_machine req order)
    as (Hkeeps & Hentry & _).
  split.
  - apply Hkeeps. reflexivity.
  - apply (Hentry "alerts" "status"). split; [reflexivity|]. split; stat_finds.
Defined.

(** An unreadable cache file: nothing is fetched, and the first column is
    not found. *)
Lemma failed_cache_read_is_not_refetched_witness :
  let m := demo_disk (Some Unreadable) in
  let req := demo_write "POST" "alerts/status" {[ "Severity" := VInt 4 ]} in
  @getPayloadStructure demo_runtime req m = (m, Ok tt) ∧
  (@generatePayload demo_runtime [("Severity", VInt 4)] (m, req)).2
    = Err (errors_New "Column not found: Severity").
Proof.
  intros m req.
  destruct (@failed_cache_read_is_not_refetched demo_runtime m req
              [("Severity", VInt 4)] "alerts" "status")
    as (Hget & _ & _ & _ & _ & Hfirst).
  { split; [reflexivity|]. split; stat_finds. }
  split; [exact Hget|].
  apply (Hfirst "Severity" (VInt 4) []); reflexivity.
Defined.

(** C2 fails on the code.  The cache file of [alerts.status] exists and
    cannot be read (or holds bytes that do not decode): the lookup does not
    proceed to the catalog, no request is sent at all, and the insert
    fails; with no cache file the same insert does send the catalog
    request. *)
Lemma cache_read_failure_counterexample :
  let req := demo_write "POST" "alerts/status" {[ "Severity" := VInt 4 ]} in
  let order := [("Severity", VInt 4)] in
  let unreadable := demo_disk (Some Unreadable) in
  let garbled := demo_disk (Some (File "<garbled>")) in
  let absent := demo_disk None in
  @cache_read_fails demo_runtime unreadable "cache/alerts.status.json" ∧
  @cache_read_fails demo_runtime garbled "cache/alerts.status.json" ∧
  wire (@generatePayload demo_runtime order (unreadable, req)).1.1 = [] ∧
  wire (@generatePayload demo_runtime order (garbled, req)).1.1 = [] ∧
  (@SendRequest demo_runtime order req unreadable).2
    = Err (errors_New "Column not found: Severity") ∧
  (@SendRequest demo_runtime order req garbled).2
    = Err (errors_New "Column not found: Severity") ∧
  wire (@generatePayload demo_runtime order (absent, req)).1.1
    = [@catalog_request demo_runtime demo_omni "alerts" "status"].
Proof. vm_compute. repeat split. Qed.

(** The demo catalog: four columns, the last with the unknown code 99. *)
Lemma catalog_type_tags_witness :
  ∃ m' types,
    @fetchStructure demo_runtime demo_omni "alerts" "status" (demo_disk None)
      = (m', Ok tt) ∧
    nodes m' !! "cache/alerts.status.json"
      = Some (File (@json_Marshal demo_runtime types)) ∧
    types !! "Severity" = Some (VString "integer") ∧
    types !! "Summary" = Some (VString "string") ∧
    types !! "LastOccurrence" = Some (VString "utc") ∧
    types !! "Flags" = Some (VString "integer").
Proof.
  destruct (@catalog_type_tags demo_runtime) as (_ & _ & _ & _ & _ & _ & Hfetch).
  destruct (Hfetch (demo_disk None) demo_omni "alerts" "status" "<catalog>"
              [demo_column "Severity" 0; demo_column "Summary" 2;
               demo_column "LastOccurrence" 1; demo_column "Flags" 99]
              [("Severity", 0%float); ("Summary", 2%float);
               ("LastOccurrence", 1%float); ("Flags", 99%float)])
    as (m' & types & Hrun & Hfile & Htags).
  - reflexivity.
  - reflexivity.
  - reflexivity.
  - repeat constructor; eexists; (split; [reflexivity|]); split; reflexivity.
  - apply (bool_decide_unpack _). vm_compute. exact I.
  - reflexivity.
  - apply not_elem_of_empty.
  - exists m', types. split; [exact Hrun|]. split; [exact Hfile|].
    repeat split;
      [ apply (Htags "Severity" 0%float) | apply (Htags "Summary" 2%float)
      | apply (Htags "LastOccurrence" 1%float) | apply (Htags "Flags" 99%float) ];
      rewrite !elem_of_cons; auto 10.
Defined.

(** The two responses of the specification's examples. *)
Lemma response_unwrapping_witness :
  generateRetval {[ "exception" := VMap {[ "message" := VString "bad filter" ]} ]}
    = Err (errors_New "OMNIbus: bad filter") ∧
  generateRetval {[ "rowset" := VMap ∅ ]} = Ok [].
Proof.
  split.
  - apply (proj1 (response_unwrapping _) {[ "message" := VString "bad filter" ]}
                 "bad filter"); reflexivity.
  - apply (proj1 (proj2 (response_unwrapping _)) ∅); reflexivity.
Defined.

(** C4 fails on the code.  An [exception] field that is present and is not
    an object, a [rowset] field that is present, has no [rows] in it and is
    not an object, and a [rows] field that is present and is not a list:
    [generateRetval] panics on each. *)
Lemma response_unwrapping_counterexample :
  generateRetval {[ "exception" := VString "bad filter" ]} = Panic ∧
  generateRetval {[ "rowset" := VNil ]} = Panic ∧
  generateRetval {[ "rowset" := VMap {[ "rows" := VNil ]} ]} = Panic.
Proof. repeat split. Qed.

(** The empty response, and a body that does not decode. *)
Lemma lenient_default_without_fields_witness :
  generateRetval {[ "status" := VString "ok" ]} = Ok [] ∧
  @unwrap demo_runtime (inl "<garbled>") demo_machine = (demo_machine, Ok []).
Proof.
  split.
  - apply (proj1 (@lenient_default_without_fields demo_runtime _)); reflexivity.
  - apply (proj2 (proj2 (@lenient_default_without_fields demo_runtime ∅))). reflexivity.
Defined.

(** The specification's scenario from request to wire: the payload that is
    synthesized, and the one request that goes out. *)
Example demo_insert_runs :
  let cols : gmap string value :=
    {[ "Severity" := VInt 4; "Summary" := VString "test" ]} in
  let req := demo_write "POST" "alerts/status" cols in
  let order := [("Severity", VInt 4); ("Summary", VString "test")] in
  let st := (@generatePayload demo_runtime order (demo_machine, req)).1 in
  payload_coldesc (Payload st.2)
    = [ {[ "type" := VString "integer"; "name" := VString "Severity" ]};
        {[ "type" := VString "string"; "name" := VString "Summary" ]} ] ∧
  payload_rows (Payload st.2)
    = [ {[ "Severity" := VInt 4; "Summary" := VString "test" ]} ] ∧
  (@SendRequest demo_runtime order req demo_machine).2 = Ok [] ∧
  rq_method <$> wire (@SendRequest demo_runtime order req demo_machine).1 = ["POST"].
Proof. vm_compute. repeat split. Qed.

(** Numeric columns, value by value. *)
Example demo_coercions_run :
  let run v := @generatePayload demo_runtime [("Severity", v)]
                 (demo_machine, demo_write "POST" "alerts/status" {[ "Severity" := v ]}) in
  let row v := payload_rows (Payload (run v).1.2) in
  row (VString "5") = [ {[ "Severity" := VInt 5 ]} ] ∧
  row (VInt 5) = [ {[ "Severity" := VInt 5 ]} ] ∧
  row (VInt64 5) = [ {[ "Severity" := VInt64 5 ]} ] ∧
  row (VFloat64 3.9) = [ {[ "Severity" := VInt 3 ]} ] ∧
  row (VFloat64 (-3.9)) = [ {[ "Severity" := VInt (-3) ]} ] ∧
  (run (VString "five")).2
    = Err (errors_New "Couldn't convert column value to integer: five (integer)") ∧
  (run (VBool true)).2
    = Err (errors_New "Couldn't convert given parameter: Severity which is of type bool") ∧
  (run (VOther "int32" "5")).2
    = Err (errors_New "Couldn't convert given parameter: Severity which is of type int32") ∧
  (run VNil).2 = Panic.
Proof. vm_compute. repeat split. Qed.

(** The first insert into a table: the catalog is asked, the cache file is
    written, and the insert goes out; the second insert asks nothing. *)
Example demo_first_insert_runs :
  let req := demo_write "POST" "alerts/status" {[ "LastOccurrence" := VString "1700000000" ]} in
  let order := [("LastOccurrence", VString "1700000000")] in
  let first := @SendRequest demo_runtime order req (demo_disk None) in
  let second := @SendRequest demo_runtime order req first.1 in
  first.2 = Ok [] ∧
  rq_method <$> wire first.1 = ["GET"; "POST"] ∧
  nodes first.1 !! "cache/alerts.status.json" = Some (File "<fetched>") ∧
  second.2 = Ok [] ∧
  rq_method <$> wire second.1 = ["GET"; "POST"; "POST"] ∧
  nodes second.1 = nodes first.1.
Proof. vm_compute. repeat split. Qed.

(** ** Further concrete runs *)

(** With no cache directory configured, [createCacheDir] makes the default
    one and the directories above it; a second call finds it. *)
Lemma createCacheDir_settles_witness :
  let m1 := (createCacheDir demo_unconfigured).1 in
  PayloadStructCacheDir (omni m1) = "cache/omniinterface/payloadstructs" ∧
  nodes m1 !! "cache/omniinterface/payloadstructs" = Some Dir ∧
  nodes m1 !! "cache/omniinterface" = Some Dir ∧
  nodes m1 !! "cache" = Some Dir ∧
  createCacheDir m1 = (m1, Ok tt).
Proof.
  intros m1.
  destruct (createCacheDir_settles demo_unconfigured m1 eq_refl)
    as (Hagain & Hdir & _ & _ & Hmade & _).
  split; [exact Hdir|]. split; [exact (Hmade eq_refl)|].
  split; [reflexivity|]. split; [reflexivity|exact Hagain].
Defined.

(** A regular file where the cache directory should be passes for it, and
    so does a cache directory beneath a regular file: nothing is made.  A
    directory that cannot be made is the one error, and [cache], made on
    the way, stays. *)
Lemma createCacheDir_outcome_witness :
  createCacheDir demo_taken = (demo_taken, Ok tt) ∧
  createCacheDir demo_blocked = (demo_blocked, Ok tt) ∧
  (createCacheDir demo_sealed).2
    = Err (errors_New "Couldn't create payload structure cache directory") ∧
  (createCacheDir demo_halfway).2
    = Err (errors_New "Couldn't create payload structure cache directory") ∧
  nodes (createCacheDir demo_halfway).1 !! "cache" = Some Dir.
Proof.
  destruct (createCacheDir_outcome demo_taken) as (_ & _ & _ & _ & Hfile & _).
  destruct (createCacheDir_outcome demo_blocked) as (_ & _ & _ & _ & _ & Hfails & _).
  destruct (createCacheDir_outcome demo_sealed) as (_ & [Hok|Herr] & _);
    [vm_compute in Hok; discriminate Hok|].
  destruct (createCacheDir_outcome demo_halfway) as (_ & [Hok'|Herr'] & _ & _ & _ & _ & _ & Hnew);
    [vm_compute in Hok'; discriminate Hok'|].
  split; [exact (proj1 (Hfile (File "x") eq_refl))|].
  split; [exact (proj1 (Hfails eq_refl))|].
  split; [exact Herr|]. split; [exact Herr'|].
  destruct (Hnew "cache" Dir eq_refl) as [Hold|[_ _]]; [discriminate Hold|reflexivity].
Defined.

Lemma demo_available (entry : option fnode) : cache_dir_available (demo_disk entry).
Proof. destruct entry; stat_finds. Defined.

(** One slash passes, whatever is around it; none does not. *)
Lemma path_format_error_iff_witness :
  (@getPayloadStructure demo_runtime (demo_write "POST" "alerts" ∅) demo_machine).2
    = Err (errors_New "DBPath is not a path: Format db/table") ∧
  (@getPayloadStructure demo_runtime (demo_write "POST" "alerts/" ∅) demo_machine).2
    ≠ Err (errors_New "DBPath is not a path: Format db/table").
Proof.
  split.
  - apply (@path_format_error_iff demo_runtime demo_machine (demo_write "POST" "alerts" ∅)
             (demo_available _)).
    vm_compute. discriminate.
  - intros Herr.
    apply (@path_format_error_iff demo_runtime demo_machine (demo_write "POST" "alerts/" ∅)
             (demo_available _))
      in Herr.
    apply Herr. reflexivity.
Defined.

(** The remote service out of reach, no cache directory configured, an
    empty disk: the default directory and those above it are made, and
    there is no cache file after the failed lookup. *)
Lemma failed_lookup_writes_nothing_witness :
  let req := demo_write "POST" "alerts/status" {[ "Severity" := VInt 4 ]} in
  let m' := (@getPayloadStructure demo_offline req demo_unconfigured).1 in
  nodes m' !! "cache/omniinterface/payloadstructs/alerts.status.json" = None ∧
  nodes m' !! "cache" = Some Dir ∧
  nodes m' !! "cache/omniinterface" = Some Dir.
Proof.
  intros req m'.
  destruct (@failed_lookup_writes_nothing demo_offline demo_unconfigured req
              "cache/omniinterface/payloadstructs/alerts.status.json") as [Hsame _].
  { vm_compute. discriminate. }
  split; [|split; reflexivity].
  apply Hsame. apply (bool_decide_unpack _). vm_compute. exact I.
Defined.

(** The cache directory taken by a regular file, closed to searches, and
    configured beneath a regular file: no catalog query, and the insert
    fails on its first column. *)
Lemma unreachable_cache_skips_fetch_witness :
  let req := demo_write "POST" "alerts/status" {[ "Severity" := VInt 4 ]} in
  let order := [("Severity", VInt 4)] in
  (@generatePayload demo_runtime order (demo_taken, req)).2
    = Err (errors_New "Column not found: Severity") ∧
  @getPayloadStructure demo_runtime req demo_closed = (demo_closed, Ok tt) ∧
  @getPayloadStructure demo_runtime req demo_blocked = (demo_blocked, Ok tt).
Proof.
  intros req order.
  destruct (@unreachable_cache_skips_fetch demo_runtime demo_taken req order
              "alerts" "status" eq_refl eq_refl) as (_ & _ & _ & _ & Hfirst).
  { right. split; [constructor|]. by exists (File "x"). }
  destruct (@unreachable_cache_skips_fetch demo_runtime demo_closed req order
              "alerts" "status" eq_refl eq_refl) as (_ & Hclosed & _).
  { right. split; [constructor|]. by exists Closed. }
  destruct (@unreachable_cache_skips_fetch demo_runtime demo_blocked req order
              "alerts" "status" eq_refl eq_refl) as (_ & Hblocked & _).
  { left. reflexivity. }
  split; [exact (Hfirst "Severity" (VInt 4) [] eq_refl)|].
  split; [exact Hclosed|exact Hblocked].
Defined.

(** After the first lookup of [alerts.status] the second one changes
    nothing. *)
Lemma schema_fetched_once_witness :
  let req := demo_write "POST" "alerts/status" {[ "Severity" := VInt 4 ]} in
  let m1 := (@getPayloadStructure demo_runtime req (demo_disk None)).1 in
  wire m1 = [@catalog_request demo_runtime demo_omni "alerts" "status"] ∧
  @getPayloadStructure demo_runtime req m1 = (m1, Ok tt).
Proof.
  intros req m1. split; [reflexivity|].
  refine (proj2 (@schema_fetched_once demo_runtime (demo_disk None) req m1
                   "alerts" "status" eq_refl _ eq_refl)).
  apply not_elem_of_empty.
Defined.

Lemma demo_miss (method : string) (cols : gmap string value) :
  cache_miss (demo_disk None) (demo_write method "alerts/status" cols) "alerts" "status".
Proof. apply cache_miss_check; [reflexivity|stat_finds|reflexivity..]. Defined.

(** An insert into [alerts.status], not cached yet, with the remote service
    out of reach, and with one that answers with an exception. *)
Lemma failed_fetch_aborts_write_witness :
  let req := demo_write "POST" "alerts/status" {[ "Severity" := VInt 4 ]} in
  let order := [("Severity", VInt 4)] in
  (@SendRequest demo_offline order req (demo_disk None)).2
    = Err (url_Error "dial tcp: connection refused") ∧
  rq_method <$> wire (@SendRequest demo_offline order req (demo_disk None)).1 = ["GET"] ∧
  (@SendRequest demo_refusing order req (demo_disk None)).2
    = Err (errors_New "OMNIbus: bad filter") ∧
  nodes (@SendRequest demo_refusing order req (demo_disk None)).1
    !! "cache/alerts.status.json" = None.
Proof.
  intros req order.
  destruct (@failed_fetch_aborts_write demo_offline (demo_disk None) req order
              "alerts" "status" (demo_miss _ _) eq_refl eq_refl) as [Hoff _].
  destruct (@failed_fetch_aborts_write demo_refusing (demo_disk None) req order
              "alerts" "status" (demo_miss _ _) eq_refl eq_refl) as [_ Hexc].
  destruct (Hoff "dial tcp: connection refused" eq_refl) as (Herr & Hwire & _).
  destruct (Hexc "<exception>" {[ "message" := VString "bad filter" ]} "bad filter"
              eq_refl eq_refl eq_refl) as (Herr' & _ & Hnone).
  split; [exact Herr|]. split; [by rewrite Hwire|]. split; [exact Herr'|exact Hnone].
Defined.

(** The cache file of [alerts.status] cannot be written: the lookup
    returns nil, and the insert fails on its first column. *)
Lemma cache_write_failure_is_silent_witness :
  let req := demo_write "POST" "alerts/status" {[ "Severity" := VInt 4 ]} in
  (@getPayloadStructure demo_runtime req demo_readonly).2 = Ok tt ∧
  (@generatePayload demo_runtime [("Severity", VInt 4)] (demo_readonly, req)).2
    = Err (errors_New "Column not found: Severity").
Proof.
  intros req.
  destruct (@cache_write_failure_is_silent demo_runtime demo_readonly req
              [("Severity", VInt 4)] "alerts" "status" "<catalog>"
              [demo_column "Severity" 0; demo_column "Summary" 2;
               demo_column "LastOccurrence" 1; demo_column "Flags" 99]
              [("Severity", 0%float); ("Summary", 2%float);
               ("LastOccurrence", 1%float); ("Flags", 99%float)])
    as (Hok & _ & _ & _ & Hfirst).
  - apply cache_miss_check; [reflexivity|stat_finds|reflexivity..].
  - vm_compute. reflexivity.
  - reflexivity.
  - reflexivity.
  - reflexivity.
  - repeat constructor; by eexists.
  - split; [exact Hok|]. exact (Hfirst "Severity" (VInt 4) [] eq_refl).
Defined.

(** An answer that does not decode is cached as the schema of
    [alerts.status]. *)
Lemma empty_catalog_answer_is_cached_witness :
  let req := demo_write "POST" "alerts/status" {[ "Severity" := VInt 4 ]} in
  ∃ m', @getPayloadStructure demo_garbled req (demo_disk None) = (m', Ok tt) ∧
        nodes m' !! "cache/alerts.status.json" = Some (File "null").
Proof.
  intros req.
  destruct (@empty_catalog_answer_is_cached demo_garbled (demo_disk None) req
              "alerts" "status" "<html>" (demo_miss _ _))
    as (m' & Hget & _ & Hfile & _).
  - apply not_elem_of_empty.
  - reflexivity.
  - reflexivity.
  - left. reflexivity.
  - exists m'. split; [exact Hget|exact Hfile].
Defined.

(** A catalog answer that lists [Severity] twice, as a string and then as a
    number: the second listing decides, and the answer's own [rowset]
    is cached with it. *)
Lemma catalog_tags_in_listing_order_witness :
  let req := demo_write "POST" "alerts/status" {[ "Severity" := VInt 4 ]} in
  ∃ m' types',
    @getPayloadStructure demo_relisting req (demo_disk None) = (m', Ok tt) ∧
    nodes m' !! "cache/alerts.status.json"
      = Some (File (@json_Marshal demo_relisting types')) ∧
    types' !! "Severity" = Some (VString "integer") ∧
    is_Some (types' !! "rowset").
Proof.
  intros req.
  destruct (@catalog_tags_in_listing_order demo_relisting (demo_disk None) req
              "alerts" "status" "<catalog>"
              [demo_column "Severity" 2; demo_column "Severity" 0]
              [("Severity", 2%float); ("Severity", 0%float)] (demo_miss _ _))
    as (m' & types' & Hget & Hfile & Hframe & Hlast & _).
  - apply not_elem_of_empty.
  - reflexivity.
  - reflexivity.
  - reflexivity.
  - repeat constructor; by eexists.
  - exists m', types'. split; [exact Hget|]. split; [exact Hfile|]. split.
    + refine (Hlast [("Severity", 2%float)] "Severity" 0%float [] eq_refl _).
      apply not_elem_of_nil.
    + rewrite Hframe; [by eexists|].
      intros Hin. apply elem_of_cons in Hin as [Heq|Hin]; [discriminate Heq|].
      apply elem_of_cons in Hin as [Heq|Hin]; [discriminate Heq|].
      by apply elem_of_nil in Hin.
Defined.

(** A row whose type code came as a string. *)
Lemma malformed_catalog_row_panics_witness :
  let req := demo_write "POST" "alerts/status" {[ "Severity" := VInt 4 ]} in
  (@getPayloadStructure demo_untyped req (demo_disk None)).2 = Panic.
Proof.
  intros req.
  refine (proj1 (@malformed_catalog_row_panics demo_untyped (demo_disk None) req
                   "alerts" "status" "<catalog>" _ (demo_miss _ _)
                   eq_refl eq_refl eq_refl _)).
  intros [cols Hl]. inversion Hl as [|v c res cols' (r & Hr & Hdt & _) Hl']; subst.
  inversion Hr; subst r. vm_compute in Hdt. discriminate Hdt.
Defined.

Lemma demo_entry (method : string) (cols : gmap string value) :
  has_entry demo_machine (demo_write method "alerts/status" cols) "alerts" "status".
Proof. split; [reflexivity|]. split; stat_finds. Defined.

(** An insert without columns. *)
Lemma empty_column_data_witness :
  let req := demo_write "POST" "alerts/status" ∅ in
  let st := (@generatePayload demo_runtime [] (demo_machine, req)).1 in
  (@generatePayload demo_runtime [] (demo_machine, req)).2 = Ok tt ∧
  payload_coldesc (Payload st.2) = [] ∧ payload_rows (Payload st.2) = [∅].
Proof.
  intros req st.
  pose proof (@empty_column_data demo_runtime demo_machine req [] "alerts" "status"
                (demo_entry _ _) eq_refl) as Hgen.
  unfold st. rewrite Hgen; [by repeat split|].
  unfold range_order. cbn. by rewrite map_to_list_empty.
Defined.

(** A schema that declares [LastOccurrence] as [timestamp], not [utc]: the
    string goes into the row as it is. *)
Lemma only_integer_and_utc_coerce_witness :
  let types : gmap string value := {[ "LastOccurrence" := VString "timestamp" ]} in
  let req := demo_write "POST" "alerts/status"
               {[ "LastOccurrence" := VString "1700000000" ]} in
  @columnStep demo_runtime types 0 "LastOccurrence" (VString "1700000000") (initial_bufs req)
    = (stored types 0 "LastOccurrence" (VString "1700000000") (initial_bufs req), Ok tt).
Proof.
  intros types req.
  destruct (@only_integer_and_utc_coerce demo_runtime types req
              [("LastOccurrence", VString "1700000000")] "LastOccurrence"
              (VString "1700000000") 0 (initial_bufs req) []
              (range_order_singleton _ _) (reaches_first _ _ _ _ _)) as [_ Hpass].
  refine (proj1 (Hpass _ _ _)); vm_compute; discriminate.
Defined.

(** [Severity] as the string 5 and as the int 5. *)
Lemma string_and_int_forms_agree_witness :
  let run v := @generatePayload demo_runtime [("Severity", v)]
                 (demo_machine, demo_write "POST" "alerts/status" {[ "Severity" := v ]}) in
  Payload (run (VString "5")).1.2 = Payload (run (VInt 5)).1.2 ∧
  (run (VString "5")).2 = (run (VInt 5)).2.
Proof.
  intros run.
  destruct (@string_and_int_forms_agree demo_runtime demo_machine
              (demo_write "POST" "alerts/status" {[ "Severity" := VString "5" ]})
              [("Severity", VString "5")] demo_schema "Severity" "5" 5%Z
              (demo_cached _ _) (range_order_singleton _ _)
              (lookup_singleton_eq _ _) eq_refl eq_refl)
    as (_ & _ & Hout & Hpay).
  split; [symmetry; exact Hpay|symmetry; exact Hout].
Defined.

(** The method in lower case. *)
Lemma unsupported_method_is_ignored_witness :
  @SendRequest demo_runtime [] (demo_write "get" "alerts/status" ∅) demo_machine
    = (demo_machine, Ok []).
Proof.
  exact (@unsupported_method_is_ignored demo_runtime demo_machine
           (demo_write "get" "alerts/status" ∅) [] eq_refl).
Defined.

(** A read with no cache directory configured nor present: nothing is
    made, and the configuration stays empty. *)
Lemma reads_leave_cache_alone_witness :
  let m' := (@SendRequest demo_runtime [] demo_read demo_unconfigured).1 in
  nodes m' = ∅ ∧ PayloadStructCacheDir (omni m') = "".
Proof.
  intros m'.
  destruct (@reads_leave_cache_alone demo_runtime demo_unconfigured demo_read [] eq_refl)
    as (Hn & Ho & _).
  split; [exact Hn|]. unfold m'. by rewrite Ho.
Defined.

(** The read of the demo, on the wire. *)
Lemma sent_request_shape_witness :
  ∃ r, wire (@sendOMNIbus demo_runtime demo_read demo_machine).1 = [r] ∧
       rq_method r = "GET" ∧ rq_auth r = Some ("root", "secret") ∧ rq_close r = true ∧
       rq_body r = None ∧
       rq_url r = "http://omnihost:8080/objectserver/restapi/alerts/status/?collist=Node,Summary&filter=Severity > 3".
Proof.
  eexists.
  split; [reflexivity|].
  destruct (@sent_request_shape demo_runtime demo_read demo_machine _ eq_refl)
    as (Hm & _ & Ha & Hc & _ & Hread & Hget & _).
  split; [exact Hm|]. split; [exact Ha|]. split; [exact Hc|].
  split; [exact (proj1 (Hread eq_refl))|exact (Hget eq_refl)].
Defined.

(** A configured URL that is only a colon. *)
Lemma unparseable_url_panics_witness :
  @sendOMNIbus demo_strict demo_read demo_misconfigured = (demo_misconfigured, Panic) ∧
  (@getPayloadStructure demo_strict (demo_write "POST" "alerts/status" ∅)
     demo_misconfigured).2 = Panic.
Proof.
  destruct (@unparseable_url_panics demo_strict demo_read demo_misconfigured) as [Hsend _].
  destruct (@unparseable_url_panics demo_strict (demo_write "POST" "alerts/status" ∅)
              demo_misconfigured) as [_ Hget].
  split; [exact (Hsend eq_refl eq_refl)|].
  refine (proj1 (Hget "alerts" "status" _ eq_refl)).
  apply cache_miss_check; [reflexivity|stat_finds|reflexivity..].
Defined.

(** The insert of the scenario: one request, with the encoded payload as
    its body. *)
Lemma write_sends_synthesized_payload_witness :
  let req := demo_write "POST" "alerts/status" {[ "Severity" := VInt 4 ]} in
  let order := [("Severity", VInt 4)] in
  let b := (@rangeColumns demo_runtime demo_schema order 0 (initial_bufs req)).1 in
  ∃ r, wire (@SendRequest demo_runtime order req demo_machine).1 = [r] ∧
       rq_method r = "POST" ∧
       rq_body r = Some (@json_Marshal demo_runtime (payload_of b)) ∧
       b_rows b = [ {[ "Severity" := VInt 4 ]} ].
Proof.
  intros req order b.
  destruct (@write_sends_synthesized_payload demo_runtime demo_machine req order
              demo_schema b (demo_cached _ _) eq_refl eq_refl eq_refl)
    as (Hm & Hbody & _ & _ & Hwire & _).
  eexists. split; [exact Hwire|]. split; [exact Hm|]. split; [exact Hbody|reflexivity].
Defined.

(** An unknown column: the insert is not sent. *)
Lemma rejected_write_is_not_sent_witness :
  let req := demo_write "POST" "alerts/status" {[ "Bogus" := VInt 1 ]} in
  let order := [("Bogus", VInt 1)] in
  (@SendRequest demo_runtime order req demo_machine).2
    = Err (errors_New "Column not found: Bogus") ∧
  wire (@SendRequest demo_runtime order req demo_machine).1 = [].
Proof.
  intros req order.
  destruct (@rejected_write_is_not_sent demo_runtime demo_machine req order eq_refl)
    as (Hm & Herr & _ & _).
  { vm_compute. discriminate. }
  split; [exact (Herr _ eq_refl)|]. by rewrite Hm.
Defined.

(** Half a second is no timeout; thirty seconds are thirty seconds. *)
Lemma timeout_counts_whole_seconds_witness :
  @client_Timeout demo_runtime demo_hasty = 0%Z ∧
  @client_Timeout demo_runtime demo_omni = 30000000000%Z.
Proof.
  split.
  - exact (proj2 (@timeout_counts_whole_seconds demo_runtime demo_hasty) eq_refl eq_refl).
  - refine (proj1 (@timeout_counts_whole_seconds demo_runtime demo_omni) 30%Z eq_refl _).
    vm_compute. split; discriminate.
Defined.

(** The scenario's two columns, visited in either order. *)
Lemma synthesis_is_order_independent_witness :
  let cols : gmap string value :=
    {[ "Severity" := VInt 4; "Summary" := VString "test" ]} in
  let req := demo_write "POST" "alerts/status" cols in
  let r1 := @generatePayload demo_runtime
              [("Severity", VInt 4); ("Summary", VString "test")] (demo_machine, req) in
  let r2 := @generatePayload demo_runtime
              [("Summary", VString "test"); ("Severity", VInt 4)] (demo_machine, req) in
  r2.2 = Ok tt ∧ payload_rows (Payload r1.1.2) = payload_rows (Payload r2.1.2).
Proof.
  intros cols req r1 r2.
  destruct (@synthesis_is_order_independent demo_runtime demo_machine req demo_schema
              [("Severity", VInt 4); ("Summary", VString "test")]
              [("Summary", VString "test"); ("Severity", VInt 4)]
              (demo_cached _ _)) as [Hiff Hsame].
  - unfold range_order. vm_compute. first [reflexivity | apply perm_swap].
  - unfold range_order. vm_compute. first [reflexivity | apply perm_swap].
  - split; [exact (proj1 Hiff eq_refl)|exact (proj1 (Hsame eq_refl))].
Defined.

(** The read of the demo against a service that answers with two rows. *)
Lemma read_returns_remote_rows_witness :
  (@SendRequest demo_answering [] demo_read demo_machine).2 = Ok demo_rows ∧
  length (wire (@SendRequest demo_answering [] demo_read demo_machine).1) = 1%nat.
Proof.
  destruct (@read_returns_remote_rows demo_answering demo_machine demo_read []
              eq_refl eq_refl eq_refl) as (Hwire & _ & _ & Hrows).
  split.
  - exact (Hrows "<rows>" {[ "rows" := VSlice demo_rows ]} demo_rows
             eq_refl eq_refl eq_refl eq_refl).
  - by rewrite Hwire.
Defined.

(** A payload and a filter the caller has put into an insert. *)
Lemma unused_fields_are_ignored_witness :
  let req := demo_write "POST" "alerts/status" {[ "Severity" := VInt 4 ]} in
  let order := [("Severity", VInt 4)] in
  @SendRequest demo_runtime order (set_Payload {[ "rowset" := VNil ]} req) demo_machine
    = @SendRequest demo_runtime order req demo_machine ∧
  @SendRequest demo_runtime order (set_Filter "Severity > 3" req) demo_machine
    = @SendRequest demo_runtime order req demo_machine.
Proof.
  intros req order.
  destruct (@unused_fields_are_ignored demo_runtime demo_machine req order)
    as (Hpay & _ & _ & Hfil).
  split; [exact (Hpay _)|exact (Hfil eq_refl _)].
Defined.

(** The tables [alerts/status.journal] and [alerts.status/journal]. *)
Lemma cache_key_collision_witness :
  let m := {| omni := demo_omni;
              nodes := {[ "cache" := Dir;
                          "cache/alerts.status.journal.json" := File "<schema>" ]};
              sealed := ∅; wire := [] |} in
  @getPayloadStructure demo_runtime (demo_write "POST" "alerts/status.journal" ∅) m
    = (m, Ok tt).
Proof.
  intros m.
  refine (proj1 (proj2 (proj2 (@cache_key_collision demo_runtime m
            (demo_write "POST" "alerts.status/journal" ∅)
            (demo_write "POST" "alerts/status.journal" ∅)
            "alerts" "status" "journal" eq_refl eq_refl _)))).
  split; [reflexivity|]. split; stat_finds.
Defined.

(** An insert with a boolean [Severity]: its error is the type error of
    that column. *)
Lemma cached_synthesis_failures_witness :
  let req := demo_write "POST" "alerts/status" {[ "Severity" := VBool true ]} in
  ∃ k v ty, ColumnData req !! k = Some v ∧ reflect_TypeOf v = Some ty ∧
    (@generatePayload demo_runtime [("Severity", VBool true)] (demo_machine, req)).2
      = Err (errors_New ("Couldn't convert given parameter: " +:+ k
                         +:+ " which is of type " +:+ ty)).
Proof.
  intros req.
  destruct (@cached_synthesis_failures demo_runtime demo_machine req
              [("Severity", VBool true)] demo_schema (demo_cached _ _)
              (range_order_singleton _ _)) as [Herr _].
  { intros k v Hk. cbn in Hk. apply lookup_singleton_Some in Hk as [_ <-]. exact I. }
  destruct (Herr _ eq_refl) as (k & v & Hk & Hwhy).
  destruct Hwhy as [[Hnil He]|[[_ (s & t & _ & _ & _ & He)]|[_ (ty & Hty & _ & He)]]];
    [discriminate He|discriminate He|].
  exists k, v, ty. split; [exact Hk|]. split; [exact Hty|]. by rewrite <- He.
Defined.
